(** * Exchange migration dashboard: the session orchestrator, verified

    A shallow embedding of the server side of the migration dashboard:
    - [lib/migration-utils.ts]   (logger, validator, mover wrapper, stats, HTML report),
    - [lib/exchange-connector.ts] (the simulated mailbox lookup),
    - [app/api/migrate/route.ts]  (session creation and the batch loop),
    - [app/api/progress/route.ts] (the polling event stream),
    - [app/api/reports/route.ts]  (CSV and HTML exports).

    Conventions of the embedding.
    - A JavaScript string is a [string] whose characters stand for UTF-16
      code units below 256; the few literal characters outside that range
      (arrows and pictograms in log texts) stand as their UTF-8 bytes.
    - A JavaScript number that the code uses as a count, an index or a
      millisecond clock is a [Z]; mailbox sizes and random draws are [Q].
    - Everything the outside world decides (the clock, [Math.random], the
      answers of the Exchange connector, the order in which the promises of
      a batch settle, locale formatting, the CSV serialiser) is read from a
      [World] record, so every function below is executable. *)

From Stdlib Require Import ZArith QArith Qround String Ascii List Lia Bool.
From Stdlib Require Import Permutation DecimalString.
From stdpp Require Import gmap strings.
Import ListNotations.
Open Scope Z_scope.

(* ------------------------------------------------------------------ *)
(** ** JavaScript primitives used by the routes *)

Module JS.

(** [n.toString()] for an integral number. *)
Definition numToString (z : Z) : string :=
  NilZero.string_of_int (Z.to_int z).

Fixpoint repeatChar (n : nat) (c : ascii) : string :=
  match n with
  | O => EmptyString
  | S k => String c (repeatChar k c)
  end.

(** [s.padStart(target, c)] with a one-character filler: strings that
    are already long enough are returned unchanged, never truncated. *)
Definition padStart (target : nat) (c : ascii) (s : string) : string :=
  (repeatChar (target - String.length s) c ++ s)%string.

(** [x || d] on strings: the empty string is falsy. *)
Definition orString (x d : string) : string :=
  if String.eqb x EmptyString then d else x.

(** [x || d] where [x] may be [null]/[undefined]. *)
Definition orNullable (x : option string) (d : string) : string :=
  match x with
  | Some s => orString s d
  | None => d
  end.

(** [x || 0] on an optional number: [undefined] and [0] both give [0]. *)
Definition orZero (x : option Q) : Q :=
  match x with
  | Some q => q
  | None => 0%Q
  end.

(** [Array.prototype.slice(start, end)] with integral arguments:
    negative indices count from the end, everything is clamped to the
    array, and an empty range gives the empty array. *)
Definition relIndex (len i : Z) : Z :=
  if i <? 0 then Z.max (len + i) 0 else Z.min i len.

Definition slice {A : Type} (l : list A) (first last : Z) : list A :=
  let len := Z.of_nat (length l) in
  let k := relIndex len first in
  let final := relIndex len last in
  firstn (Z.to_nat (final - k)) (skipn (Z.to_nat k) l).

(** [Math.round]: the nearest integer, ties towards +infinity. *)
Definition round (q : Q) : Z := Qfloor (q + (1 # 2))%Q.

(** [q.toFixed(2)] for a non-negative number. *)
Definition toFixed2 (q : Q) : string :=
  let n := round (q * 100)%Q in
  (numToString (n / 100) ++ "." ++
   padStart 2 "0"%char (numToString (n mod 100)))%string.

(** [`${Math.floor(a / b) + 1}`]: a division by zero gives [NaN] or an
    infinity, which the addition leaves alone. *)
Definition floorDivSuccText (a b : Z) : string :=
  if b =? 0 then
    if a =? 0 then "NaN" else if 0 <? a then "Infinity" else "-Infinity"
  else numToString (a / b + 1).

(** [`${Math.round((a / b) * 100)}`] for two counts. *)
Definition percentText (a b : nat) : string :=
  match b with
  | O => match a with O => "NaN" | S _ => "Infinity" end
  | S _ => numToString (round ((Z.of_nat a # Pos.of_nat b) * 100)%Q)
  end.

(** [`${x}`] for a string that may be [null]. *)
Definition nullableText (x : option string) : string :=
  match x with
  | Some s => s
  | None => "null"
  end.

(** [a > b] on numbers. *)
Definition gt (a b : Q) : bool := negb (Qle_bool a b).

(** The character with the given code; used for the double quote. *)
Definition dq : string := String (ascii_of_nat 34) EmptyString.
Definition nl : string := String (ascii_of_nat 10) EmptyString.

(** [s.split(c)[0]]: the part of [s] before the first [c]. *)
Fixpoint beforeFirst (c : ascii) (s : string) : string :=
  match s with
  | EmptyString => EmptyString
  | String d rest => if Ascii.eqb d c then EmptyString else String d (beforeFirst c rest)
  end.

(** *** Regular expressions, by derivatives

    Enough of the RegExp language for the anchored pattern of the
    validator: character classes, concatenation, alternation, star. *)
Inductive regex : Type :=
| Never : regex
| Empty : regex
| Class : (ascii -> bool) -> regex
| Cat : regex -> regex -> regex
| Alt : regex -> regex -> regex
| Star : regex -> regex.

Definition Plus (r : regex) : regex := Cat r (Star r).

Fixpoint nullable (r : regex) : bool :=
  match r with
  | Never => false
  | Empty => true
  | Class _ => false
  | Cat a b => nullable a && nullable b
  | Alt a b => nullable a || nullable b
  | Star _ => true
  end.

Fixpoint deriv (c : ascii) (r : regex) : regex :=
  match r with
  | Never => Never
  | Empty => Never
  | Class p => if p c then Empty else Never
  | Cat a b =>
      if nullable a
      then Alt (Cat (deriv c a) b) (deriv c b)
      else Cat (deriv c a) b
  | Alt a b => Alt (deriv c a) (deriv c b)
  | Star a => Cat (deriv c a) (Star a)
  end.

(** [/^r$/.test(s)] *)
Fixpoint test (r : regex) (s : string) : bool :=
  match s with
  | EmptyString => nullable r
  | String c rest => test (deriv c r) rest
  end.

(** The class [\s] on code units below 256: TAB, LF, VT, FF, CR, SPACE
    and NBSP. *)
Definition isSpace (c : ascii) : bool :=
  let n := nat_of_ascii c in
  (Nat.leb 9 n && Nat.leb n 13) || Nat.eqb n 32 || Nat.eqb n 160.

Definition isChar (d c : ascii) : bool := Ascii.eqb d c.

(** [s.split('').reduce((a, b) => a + b.charCodeAt(0), 0)] *)
Fixpoint charCodeSum (s : string) : Z :=
  match s with
  | EmptyString => 0
  | String c rest => Z.of_nat (nat_of_ascii c) + charCodeSum rest
  end.

End JS.

(* ------------------------------------------------------------------ *)
(** ** [types/migration.ts] *)

Module MailboxRow.
Record t : Type := mk {
  SourceEmail : string;
  TargetEmail : string;
  DisplayName : string
}.
End MailboxRow.

Inductive ValidationStatus : Type := Passed | Warning | VFailed.

Module ValidationResult.
Record t : Type := mk {
  SourceEmail : string;
  TargetEmail : string;
  DisplayName : string;
  SourceExists : bool;
  TargetExists : bool;
  SourceSize : Q;
  ValidationStatus : ValidationStatus;
  ValidationMessages : list string;
  ValidationIssues : list string
}.
End ValidationResult.

(** ['In Progress' | 'Completed' | 'Failed'] *)
Inductive Status : Type := StInProgress | StCompleted | StFailed.

Definition statusText (s : Status) : string :=
  match s with
  | StInProgress => "In Progress"
  | StCompleted => "Completed"
  | StFailed => "Failed"
  end.

Definition Status_eqb (a b : Status) : bool :=
  match a, b with
  | StInProgress, StInProgress => true
  | StCompleted, StCompleted => true
  | StFailed, StFailed => true
  | _, _ => false
  end.

Module MigrationResult.
Record t : Type := mk {
  SourceEmail : string;
  TargetEmail : string;
  DisplayName : string;
  StartTime : string;
  EndTime : option string;
  Duration : option string;
  Status : Status;
  ItemsMigrated : Z;
  DataMigrated : string;
  ErrorMessage : string
}.
End MigrationResult.

Module MigrationStats.
Record t : Type := mk {
  Total : nat;
  Successful : nat;
  Failed : nat;
  Skipped : nat;
  InProgress : nat
}.
End MigrationStats.

Module MigrationConfig.
Record t : Type := mk {
  BatchSize : Z;
  ValidateOnly : bool;
  SkipValidation : bool;
  ReportPath : string
}.
End MigrationConfig.

Inductive LogLevel : Type := Info | Success | LWarning | LError | Progress.

Module LogEntry.
Record t : Type := mk {
  timestamp : string;
  level : LogLevel;
  message : string;
  mailboxId : option string
}.
End LogEntry.

Inductive SessionStatus : Type :=
Idle | Validating | Ready | Migrating | SCompleted | SError.

(** [session.logs] is first a fresh empty array and, once the migration
  has finished, the very array owned by the session's logger. *)
Inductive LogsRef : Type :=
| OwnLogs (entries : list LogEntry.t)
| LoggerLogs.

Module MigrationSession.
Record t : Type := mk {
  id : string;
  config : MigrationConfig.t;
  mailboxList : list MailboxRow.t;
  validationResults : option (list ValidationResult.t);
  migrationResults : list MigrationResult.t;
  stats : MigrationStats.t;
  logs : LogsRef;
  status : SessionStatus;
  startTime : option string;
  endTime : option string
}.
End MigrationSession.

(* ------------------------------------------------------------------ *)
(** ** The outside world *)

(** What a [throw] can carry: an [Error] with its message, or anything
  else. *)
Inductive Thrown : Type :=
| ErrorObject (message : string)
| OtherValue.

(** How an awaited promise settles. *)
Inductive Settled (A : Type) : Type :=
| Fulfilled (a : A)
| Rejected (e : Thrown).
Arguments Fulfilled {A} a.
Arguments Rejected {A} e.

(** Answer of [ExchangeConnector.validateMailbox]. *)
Module Lookup.
Record t : Type := mk {
  exists_ : bool;
  size : option Q;
  itemCount : option Z;
  database : option string;
  error : option string
}.
End Lookup.

(** Answer of [ExchangeConnector.startMigration]. *)
Module Move.
Record t : Type := mk {
  success : bool;
  moveRequestId : option string;
  error : option string
}.
End Move.

(** One row object handed to the CSV serialiser: cells by column name. *)
Inductive CsvCell : Type :=
| CStr (s : string)
| CNum (n : Z).

Record World : Type := {
(** the value of the [n]-th [new Date()] of the run, in milliseconds *)
clock : nat -> Z;
(** the [n]-th [Math.random()] of the run, in [0,1) *)
random : nat -> Q;
(** how the [n]-th call of [connector.startMigration] settles *)
mover : nat -> Settled Move.t;
(** the order in which the [n] pending items of batch [k] settle,
    as positions in the batch *)
schedule : nat -> nat -> list nat;
(** [Date.prototype.toISOString], [toLocaleString] and
    [Number.prototype.toLocaleString] *)
toISOString : Z -> string;
dateToLocaleString : Z -> string;
numToLocaleString : Z -> string;
(** [stringify(records, { header: true, columns })] of csv-stringify *)
stringify : list string -> list (list (string * CsvCell)) -> string
}.


(* ------------------------------------------------------------------ *)
(** ** [lib/exchange-connector.ts], simulation mode *)

Module Connector.

(** [validateMailbox(email)] with [useMockData]: existence is decided by
    the sum of the character codes, the size and the item count by two
    random draws [r1] and [r2]. *)
Definition validateMailbox (r1 r2 : Q) (email : string) : Lookup.t :=
  let hash := JS.charCodeSum email in
  let exists_ := negb (hash mod 10 =? 0) in
  if exists_ then
    Lookup.mk true
      (Some (r1 * 5000 + 100)%Q)
      (Some (Qfloor (r2 * 50000)%Q + 1000))
      (Some "SimulatedDB01"%string)
      None
  else
    Lookup.mk false None None None (Some "Mailbox not found"%string).

End Connector.

(* ------------------------------------------------------------------ *)
(** ** [lib/migration-utils.ts] *)

Module Utils.

(** *** [MigrationLogger] : the private array [logs] *)
Definition MigrationLogger : Type := list LogEntry.t.

(** [logger.log(message, level, mailboxId)] at clock reading [now];
    returns the entry and the logger after the push. *)
Definition log (W : World) (now : Z) (logger : MigrationLogger)
    (message : string) (level : LogLevel) (mailboxId : option string)
    : LogEntry.t * MigrationLogger :=
  let entry := LogEntry.mk (toISOString W now) level message mailboxId in
  (entry, logger ++ [entry]).

Definition getLogs (logger : MigrationLogger) : list LogEntry.t := logger.

Definition simulateMailboxExists (email : string) : bool :=
  let hash := JS.charCodeSum email in
  negb (hash mod 10 =? 0).

(** [/^[^\s@]+@[^\s@]+\.[^\s@]+$/] *)
Definition notSpaceNorAt (c : ascii) : bool :=
  negb (JS.isSpace c || JS.isChar "@" c).

Definition emailRegex : JS.regex :=
  JS.Cat (JS.Plus (JS.Class notSpaceNorAt))
    (JS.Cat (JS.Class (JS.isChar "@"))
       (JS.Cat (JS.Plus (JS.Class notSpaceNorAt))
          (JS.Cat (JS.Class (JS.isChar "."))
             (JS.Plus (JS.Class notSpaceNorAt))))).

(** [itemCount?.toLocaleString()] inside a template literal *)
Definition itemCountText (W : World) (n : option Z) : string :=
  match n with
  | Some k => numToLocaleString W k
  | None => "undefined"
  end.

(** [validateMailbox(mailbox)], given the answer [sourceValidation] that
    the awaited [connector.validateMailbox(mailbox.SourceEmail)] brought
    back. The record is built with status [Passed] and then updated; the
    two [return validation] statements inside the checks leave early. *)
Definition validateMailbox (W : World) (sourceValidation : Lookup.t)
    (mailbox : MailboxRow.t) : ValidationResult.t :=
  let targetEmailValid := JS.test emailRegex (MailboxRow.TargetEmail mailbox) in
  let SourceSize := JS.orZero (Lookup.size sourceValidation) in
  let validation (st : ValidationStatus) (msgs issues : list string) :=
    ValidationResult.mk
      (MailboxRow.SourceEmail mailbox)
      (MailboxRow.TargetEmail mailbox)
      (MailboxRow.DisplayName mailbox)
      (Lookup.exists_ sourceValidation)
      false
      SourceSize
      st msgs issues in
  if negb (Lookup.exists_ sourceValidation) then
    validation VFailed
      [("Source mailbox " ++ MailboxRow.SourceEmail mailbox ++ " does not exist")%string]
      ["Source mailbox not found"%string]
  else if negb targetEmailValid then
    validation VFailed
      [("Target email " ++ MailboxRow.TargetEmail mailbox ++ " is not valid")%string]
      ["Invalid target email format"%string]
  else
    let msgs1 :=
      [("Source mailbox exists (" ++ JS.numToString (JS.round SourceSize) ++ "MB, "
        ++ itemCountText W (Lookup.itemCount sourceValidation) ++ " items)")%string] in
    let msgs2 :=
      match Lookup.database sourceValidation with
      | Some db =>
          if String.eqb db EmptyString then msgs1
          else msgs1 ++ [("Database: " ++ db)%string]
      | None => msgs1
      end in
    if JS.gt SourceSize 10000 then
      validation Warning
        (msgs2 ++ ["⚠️ Large mailbox detected - consider scheduling during off-hours"%string])
        ["Large mailbox (>10GB) - migration may take extended time"%string]
    else
      validation Passed msgs2 [].

(** The [Duration] text of [simulateMigration] (lines 144-147):
    [Math.floor(durationMs / 60000)], [Math.floor((durationMs % 60000) / 1000)],
    each through [toString().padStart(2, '0')]. JavaScript's [%] takes the
    sign of the dividend, hence [Z.rem]. *)
Definition formatDuration (durationMs : Z) : string :=
  let minutes := durationMs / 60000 in
  let seconds := Z.rem durationMs 60000 / 1000 in
  (JS.padStart 2 "0" (JS.numToString minutes) ++ ":" ++
   JS.padStart 2 "0" (JS.numToString seconds))%string.

(** [simulateMigration(mailbox)]. The function builds [result] with
    status ['In Progress'] before it awaits [connector.startMigration],
    and updates it in place afterwards; the four steps are kept apart. *)
Definition started (W : World) (mailbox : MailboxRow.t) (startTime : Z)
    : MigrationResult.t :=
  MigrationResult.mk
    (MailboxRow.SourceEmail mailbox)
    (MailboxRow.TargetEmail mailbox)
    (MailboxRow.DisplayName mailbox)
    (toISOString W startTime)
    None None StInProgress 0 "0 MB" EmptyString.

(** [result.EndTime = ...; result.Duration = ...] *)
Definition stamped (result : MigrationResult.t) (endTime duration : string)
    : MigrationResult.t :=
  MigrationResult.mk
    (MigrationResult.SourceEmail result)
    (MigrationResult.TargetEmail result)
    (MigrationResult.DisplayName result)
    (MigrationResult.StartTime result)
    (Some endTime) (Some duration)
    (MigrationResult.Status result)
    (MigrationResult.ItemsMigrated result)
    (MigrationResult.DataMigrated result)
    (MigrationResult.ErrorMessage result).

(** [result.Status = 'Completed'; result.ItemsMigrated = ...;
    result.DataMigrated = ...] *)
Definition completed (result : MigrationResult.t) (items : Z) (data : string)
    : MigrationResult.t :=
  MigrationResult.mk
    (MigrationResult.SourceEmail result)
    (MigrationResult.TargetEmail result)
    (MigrationResult.DisplayName result)
    (MigrationResult.StartTime result)
    (MigrationResult.EndTime result)
    (MigrationResult.Duration result)
    StCompleted items data
    (MigrationResult.ErrorMessage result).

(** [result.Status = 'Failed'; result.ErrorMessage = ...] *)
Definition failed (result : MigrationResult.t) (err : string)
    : MigrationResult.t :=
  MigrationResult.mk
    (MigrationResult.SourceEmail result)
    (MigrationResult.TargetEmail result)
    (MigrationResult.DisplayName result)
    (MigrationResult.StartTime result)
    (MigrationResult.EndTime result)
    (MigrationResult.Duration result)
    StFailed
    (MigrationResult.ItemsMigrated result)
    (MigrationResult.DataMigrated result)
    err.

(** [simulateMigration(mailbox)] when the awaited
    [connector.startMigration] is fulfilled with [migrationResult]:
    [startTime] and [finishTime] are the two clock readings, [r1] and
    [r2] the random draws of the success branch. There is no [try] in the
    function: when the awaited promise is rejected, the rejection goes on
    to the caller and nothing below the [await] runs. *)
Definition simulateMigration (W : World) (mailbox : MailboxRow.t)
    (startTime finishTime : Z) (migrationResult : Move.t) (r1 r2 : Q)
    : MigrationResult.t :=
  let result := started W mailbox startTime in
  let durationMs := finishTime - startTime in
  let result := stamped result (toISOString W finishTime) (formatDuration durationMs) in
  if Move.success migrationResult then
    completed result
      (Qfloor (r1 * 50000)%Q + 1000)
      (JS.toFixed2 (r2 * 5 + (1 # 10))%Q ++ " GB")%string
  else
    failed result (JS.orNullable (Move.error migrationResult) "Migration failed").

Definition hasStatus (st : Status) (r : MigrationResult.t) : bool :=
  Status_eqb (MigrationResult.Status r) st.

Definition calculateStats (results : list MigrationResult.t) : MigrationStats.t :=
  MigrationStats.mk
    (length results)
    (length (List.filter (hasStatus StCompleted) results))
    (length (List.filter (hasStatus StFailed) results))
    0
    (length (List.filter (hasStatus StInProgress) results)).


(** *** [generateReportHTML]

    The template literal, line by line. *)
Definition reportHead : list string :=
  [
    "<!DOCTYPE html>";
    "<html>";
    "<head>";
    "    <title>Exchange Mailbox Migration Report</title>";
    "    <style>";
    "        body { font-family: 'Segoe UI', Arial, sans-serif; margin: 20px; background: #f5f5f5; }";
    "        .container { max-width: 1200px; margin: 0 auto; background: white; padding: 30px; box-shadow: 0 2px 10px rgba(0,0,0,0.1); }";
    "        h1 { color: #0078d4; border-bottom: 3px solid #0078d4; padding-bottom: 10px; }";
    "        h2 { color: #333; margin-top: 30px; }";
    "        .summary { display: grid; grid-template-columns: repeat(4, 1fr); gap: 20px; margin: 20px 0; }";
    "        .stat-card { background: linear-gradient(135deg, #667eea 0%, #764ba2 100%); color: white; padding: 20px; border-radius: 8px; text-align: center; }";
    "        .stat-card.success { background: linear-gradient(135deg, #11998e 0%, #38ef7d 100%); }";
    "        .stat-card.failed { background: linear-gradient(135deg, #ee0979 0%, #ff6a00 100%); }";
    "        .stat-card.warning { background: linear-gradient(135deg, #f2994a 0%, #f2c94c 100%); }";
    "        .stat-number { font-size: 48px; font-weight: bold; }";
    "        .stat-label { font-size: 14px; opacity: 0.9; margin-top: 5px; }";
    "        table { width: 100%; border-collapse: collapse; margin: 20px 0; }";
    "        th { background: #0078d4; color: white; padding: 12px; text-align: left; }";
    "        td { padding: 10px; border-bottom: 1px solid #ddd; }";
    "        tr:hover { background: #f5f5f5; }";
    "        .status-completed { color: #10b981; font-weight: bold; }";
    "        .status-failed { color: #ef4444; font-weight: bold; }";
    "        .footer { margin-top: 40px; padding-top: 20px; border-top: 1px solid #ddd; text-align: center; color: #666; }";
    "    </style>";
    "</head>";
    "<body>";
    "    <div class=" ++ JS.dq ++ "container" ++ JS.dq ++ ">";
    "        <h1>📊 Exchange Mailbox Migration Report</h1>"
  ]%string.

Definition statCard (cls : string) (number : nat) (label : string) : list string :=
  [ "            <div class=" ++ JS.dq ++ cls ++ JS.dq ++ ">";
    "                <div class=" ++ JS.dq ++ "stat-number" ++ JS.dq ++ ">" ++
      JS.numToString (Z.of_nat number) ++ "</div>";
    "                <div class=" ++ JS.dq ++ "stat-label" ++ JS.dq ++ ">" ++
      label ++ "</div>";
    "            </div>"
  ]%string.

Definition reportSummary (stats : MigrationStats.t) : list string :=
  List.concat
    [ [ ("        <div class=" ++ JS.dq ++ "summary" ++ JS.dq ++ ">")%string ];
      statCard "stat-card" (MigrationStats.Total stats) "Total Mailboxes";
      statCard "stat-card success" (MigrationStats.Successful stats) "Successful";
      statCard "stat-card failed" (MigrationStats.Failed stats) "Failed";
      statCard "stat-card warning" (MigrationStats.InProgress stats) "In Progress";
      [ "        </div>"%string ] ].

Definition reportTableHead : list string :=
  [
    EmptyString;
    "        <h2>Migration Results</h2>";
    "        <table>";
    "            <thead>";
    "                <tr>";
    "                    <th>Display Name</th>";
    "                    <th>Source Email</th>";
    "                    <th>Target Email</th>";
    "                    <th>Status</th>";
    "                    <th>Duration</th>";
    "                    <th>Items</th>";
    "                    <th>Data Migrated</th>";
    "                </tr>";
    "            </thead>";
    "            <tbody>"
  ]%string.

Definition reportFoot : list string :=
  [
    "            </tbody>";
    "        </table>";
    EmptyString;
    "        <div class=" ++ JS.dq ++ "footer" ++ JS.dq ++ ">";
    "            <p>Exchange Mailbox Migration Automation | Powered by Next.js Migration Tool</p>";
    "        </div>";
    "    </div>";
    "</body>";
    "</html>"
  ]%string.

(** [result.Status === 'Completed' ? 'status-completed' : 'status-failed'] *)
Definition statusClass (result : MigrationResult.t) : string :=
  if Status_eqb (MigrationResult.Status result) StCompleted
  then "status-completed" else "status-failed".

(** The cell that shows the status of one result. *)
Definition statusCell (result : MigrationResult.t) : string :=
  ("<td class=" ++ JS.dq ++ statusClass result ++ JS.dq ++ ">" ++
   statusText (MigrationResult.Status result) ++ "</td>")%string.

Definition rowBefore (result : MigrationResult.t) : string :=
  (JS.nl ++ "                <tr>" ++ JS.nl ++
   "                    <td>" ++ MigrationResult.DisplayName result ++ "</td>" ++ JS.nl ++
   "                    <td>" ++ MigrationResult.SourceEmail result ++ "</td>" ++ JS.nl ++
   "                    <td>" ++ MigrationResult.TargetEmail result ++ "</td>" ++ JS.nl ++
   "                    ")%string.

Definition rowAfter (result : MigrationResult.t) : string :=
  (JS.nl ++
   "                    <td>" ++ JS.orNullable (MigrationResult.Duration result) "N/A" ++ "</td>" ++ JS.nl ++
   "                    <td>" ++ JS.numToString (MigrationResult.ItemsMigrated result) ++ "</td>" ++ JS.nl ++
   "                    <td>" ++ MigrationResult.DataMigrated result ++ "</td>" ++ JS.nl ++
   "                </tr>")%string.

(** The inner template literal: one table row for one result. *)
Definition resultRow (result : MigrationResult.t) : string :=
  (rowBefore result ++ statusCell result ++ rowAfter result)%string.

(** [results.map(result => ...).join('')] *)
Definition resultRows (results : list MigrationResult.t) : string :=
  String.concat EmptyString (map resultRow results).

(** [generateReportHTML(results, stats, validationResults)], rendered at
    clock reading [now]; the third argument is not used by the body. *)
Definition generateReportHTML (W : World) (now : Z)
    (results : list MigrationResult.t) (stats : MigrationStats.t)
    (validationResults : option (list ValidationResult.t)) : string :=
  String.concat JS.nl
    (List.concat
       [ reportHead;
         [ ("        <p><strong>Generated:</strong> " ++
            dateToLocaleString W now ++ "</p>")%string;
           EmptyString ];
         reportSummary stats;
         reportTableHead;
         [ ("                " ++ resultRows results)%string ];
         reportFoot ]).

End Utils.

(* ------------------------------------------------------------------ *)
(** ** [app/api/migrate/route.ts] *)

Module Migrate.

(** The two module-level maps. A session object is stored by reference
    and updated in place, so what [getSession] returns at any instant is
    the current state of that object. *)
Record Server : Type := {
  activeSessions : gmap string MigrationSession.t;
  sessionLoggers : gmap string Utils.MigrationLogger
}.

Definition getSession (srv : Server) (sessionId : string)
    : option MigrationSession.t :=
  activeSessions srv !! sessionId.

Definition getSessionLogger (srv : Server) (sessionId : string)
    : option Utils.MigrationLogger :=
  sessionLoggers srv !! sessionId.

(** The JSON body of a request: [sessionId] may be missing, and
    [mailboxList] is [None] when it is missing or not an array. *)
Record Request : Type := {
  sessionId : option string;
  mailboxList : option (list MailboxRow.t);
  config : MigrationConfig.t
}.

(** The state of one run of [processMigration]: the session object, the
    logger, the local [processedCount], how much of the world has been
    consumed, and two ghost fields: every state in which the session
    object was left when control went back to the event loop, and every
    [batch] that the loop has cut so far. *)
Record Run : Type := {
  session : MigrationSession.t;
  logger : Utils.MigrationLogger;
  processedCount : nat;
  dates : nat;
  randoms : nat;
  moves : nat;
  seen : list MigrationSession.t;
  batches : list (list MailboxRow.t)
}.

Definition withSession (r : Run) (s : MigrationSession.t) : Run :=
  {| session := s; logger := logger r; processedCount := processedCount r;
     dates := dates r; randoms := randoms r; moves := moves r; seen := seen r; batches := batches r |}.

(** [new Date()] *)
Definition newDate (W : World) (r : Run) : Z * Run :=
  (clock W (dates r),
   {| session := session r; logger := logger r;
      processedCount := processedCount r;
      dates := S (dates r); randoms := randoms r; moves := moves r;
      seen := seen r; batches := batches r |}).

(** [Math.random()] *)
Definition mathRandom (W : World) (r : Run) : Q * Run :=
  (random W (randoms r),
   {| session := session r; logger := logger r;
      processedCount := processedCount r;
      dates := dates r; randoms := S (randoms r); moves := moves r;
      seen := seen r; batches := batches r |}).

(** The call [connector.startMigration(...)]: the promise it returns
    settles as the world says. *)
Definition startMigration (W : World) (r : Run) : Settled Move.t * Run :=
  (mover W (moves r),
   {| session := session r; logger := logger r;
      processedCount := processedCount r;
      dates := dates r; randoms := randoms r; moves := S (moves r);
      seen := seen r; batches := batches r |}).

(** [logger.log(message, level, mailboxId)] *)
Definition log (W : World) (r : Run) (message : string) (level : LogLevel)
    (mailboxId : option string) : Run :=
  let (now, r) := newDate W r in
  {| session := session r;
     logger := snd (Utils.log W now (logger r) message level mailboxId);
     processedCount := processedCount r;
     dates := dates r; randoms := randoms r; moves := moves r;
     seen := seen r; batches := batches r |}.

(** [processedCount++] *)
Definition countProcessed (r : Run) : Run :=
  {| session := session r; logger := logger r;
     processedCount := S (processedCount r);
     dates := dates r; randoms := randoms r; moves := moves r;
     seen := seen r; batches := batches r |}.

(** Ghost: the loop has cut [batch]. *)
Definition cut (r : Run) (batch : list MailboxRow.t) : Run :=
  {| session := session r; logger := logger r;
     processedCount := processedCount r;
     dates := dates r; randoms := randoms r; moves := moves r;
     seen := seen r; batches := batches r ++ [batch] |}.

(** An [await]: other callbacks (a progress tick, a report request) may
    now run and see the session as it is. *)
Definition yield (r : Run) : Run :=
  {| session := session r; logger := logger r;
     processedCount := processedCount r;
     dates := dates r; randoms := randoms r; moves := moves r;
     seen := seen r ++ [session r]; batches := batches r |}.

(** *** Updates of the session object *)

Definition setStats (s : MigrationSession.t) (st : MigrationStats.t)
    : MigrationSession.t :=
  MigrationSession.mk
    (MigrationSession.id s) (MigrationSession.config s)
    (MigrationSession.mailboxList s) (MigrationSession.validationResults s)
    (MigrationSession.migrationResults s)
    st
    (MigrationSession.logs s) (MigrationSession.status s)
    (MigrationSession.startTime s) (MigrationSession.endTime s).

(** [session.stats.Successful++] *)
Definition incSuccessful (s : MigrationSession.t) : MigrationSession.t :=
  let st := MigrationSession.stats s in
  setStats s
    (MigrationStats.mk (MigrationStats.Total st)
       (S (MigrationStats.Successful st)) (MigrationStats.Failed st)
       (MigrationStats.Skipped st) (MigrationStats.InProgress st)).

(** [session.stats.Failed++] *)
Definition incFailed (s : MigrationSession.t) : MigrationSession.t :=
  let st := MigrationSession.stats s in
  setStats s
    (MigrationStats.mk (MigrationStats.Total st)
       (MigrationStats.Successful st) (S (MigrationStats.Failed st))
       (MigrationStats.Skipped st) (MigrationStats.InProgress st)).

(** [session.migrationResults.push(result)] *)
Definition pushResult (s : MigrationSession.t) (result : MigrationResult.t)
    : MigrationSession.t :=
  MigrationSession.mk
    (MigrationSession.id s) (MigrationSession.config s)
    (MigrationSession.mailboxList s) (MigrationSession.validationResults s)
    (MigrationSession.migrationResults s ++ [result])
    (MigrationSession.stats s)
    (MigrationSession.logs s) (MigrationSession.status s)
    (MigrationSession.startTime s) (MigrationSession.endTime s).

(** [session.stats = calculateStats(session.migrationResults)] *)
Definition recomputeStats (s : MigrationSession.t) : MigrationSession.t :=
  setStats s (Utils.calculateStats (MigrationSession.migrationResults s)).

(** [session.status = 'completed'; session.endTime = ...;
    session.logs = logger.getLogs()] *)
Definition complete (s : MigrationSession.t) (endTime : string)
    : MigrationSession.t :=
  MigrationSession.mk
    (MigrationSession.id s) (MigrationSession.config s)
    (MigrationSession.mailboxList s) (MigrationSession.validationResults s)
    (MigrationSession.migrationResults s)
    (MigrationSession.stats s)
    LoggerLogs SCompleted
    (MigrationSession.startTime s) (Some endTime).

(** *** One item of a batch *)

(** What [batch.map(async (mailbox) => ...)] leaves behind for one item
    when it reaches the [await] inside [simulateMigration]. *)
Record Pending : Type := {
  mailbox : MailboxRow.t;
  startTime : Z;
  promise : Settled Move.t
}.

(** [error instanceof Error ? error.message : 'Unknown error'] *)
Definition thrownMessage (e : Thrown) : string :=
  match e with
  | ErrorObject message => message
  | OtherValue => "Unknown error"
  end.

(** The arrow function up to its first suspension: the "Starting" log
    entry, then [simulateMigration] up to its [await]. *)
Definition startItem (W : World) (r : Run) (m : MailboxRow.t) : Pending * Run :=
  let r := log W r
    ("Starting migration: " ++ MailboxRow.SourceEmail m ++ " → " ++
     MailboxRow.TargetEmail m)%string
    Progress (Some (MailboxRow.SourceEmail m)) in
  let (t, r) := newDate W r in
  let (p, r) := startMigration W r in
  ({| mailbox := m; startTime := t; promise := p |}, r).

Fixpoint startAll (W : World) (r : Run) (batch : list MailboxRow.t)
    : list Pending * Run :=
  match batch with
  | [] => ([], r)
  | m :: rest =>
      let (p, r) := startItem W r m in
      let (ps, r) := startAll W r rest in
      (p :: ps, r)
  end.

(** [await simulateMigration(mailbox)] when the mover's promise settles:
    the rest of [simulateMigration] runs only on fulfilment, and draws
    random numbers only on success. *)
Definition awaitSimulateMigration (W : World) (r : Run) (p : Pending)
    : Settled MigrationResult.t * Run :=
  match promise p with
  | Fulfilled migrationResult =>
      let (finishTime, r) := newDate W r in
      if Move.success migrationResult then
        let (r1, r) := mathRandom W r in
        let (r2, r) := mathRandom W r in
        (Fulfilled (Utils.simulateMigration W (mailbox p) (startTime p)
                      finishTime migrationResult r1 r2), r)
      else
        (Fulfilled (Utils.simulateMigration W (mailbox p) (startTime p)
                      finishTime migrationResult 0 0), r)
  | Rejected e => (Rejected e, r)
  end.

(** The object literal of the [catch] block. *)
Definition failedResult (W : World) (m : MailboxRow.t) (t1 t2 : Z)
    (error : Thrown) : MigrationResult.t :=
  MigrationResult.mk
    (MailboxRow.SourceEmail m) (MailboxRow.TargetEmail m)
    (MailboxRow.DisplayName m)
    (toISOString W t1) (Some (toISOString W t2)) (Some "00:00"%string)
    StFailed 0 "0 MB" (thrownMessage error).

(** The [try] block after the [await]. *)
Definition onFulfilled (W : World) (r : Run) (m : MailboxRow.t)
    (result : MigrationResult.t) : Run :=
  let r :=
    if Status_eqb (MigrationResult.Status result) StCompleted then
      let r := log W r
        ("Migration completed successfully - Items: " ++
         JS.numToString (MigrationResult.ItemsMigrated result) ++
         ", Data: " ++ MigrationResult.DataMigrated result ++
         ", Duration: " ++ JS.nullableText (MigrationResult.Duration result))%string
        Success (Some (MailboxRow.SourceEmail m)) in
      withSession r (incSuccessful (session r))
    else
      let r := log W r
        ("Migration failed: " ++ MigrationResult.ErrorMessage result)%string
        LError (Some (MailboxRow.SourceEmail m)) in
      withSession r (incFailed (session r)) in
  let r := withSession r (pushResult (session r) result) in
  let r := countProcessed r in
  withSession r (recomputeStats (session r)).

(** The [catch] block. *)
Definition onRejected (W : World) (r : Run) (m : MailboxRow.t)
    (error : Thrown) : Run :=
  let r := log W r ("Migration error: " ++ thrownMessage error)%string
             LError (Some (MailboxRow.SourceEmail m)) in
  let r := withSession r (incFailed (session r)) in
  let (t1, r) := newDate W r in
  let (t2, r) := newDate W r in
  withSession r (pushResult (session r) (failedResult W m t1 t2 error)).

(** The arrow function from its [await] to its [return]. *)
Definition settleItem (W : World) (r : Run) (p : Pending) : Run :=
  let (outcome, r) := awaitSimulateMigration W r p in
  match outcome with
  | Fulfilled result => onFulfilled W r (mailbox p) result
  | Rejected error => onRejected W r (mailbox p) error
  end.

(** The pending items of a batch settle one at a time, in the order
    [order] of their positions; the event loop is free in between. *)
Fixpoint settleAll (W : World) (r : Run) (pend : list Pending)
    (order : list nat) : Run :=
  match order with
  | [] => r
  | pos :: rest =>
      match pend !! pos with
      | Some p => settleAll W (yield (settleItem W r p)) pend rest
      | None => settleAll W r pend rest
      end
  end.

(** *** The batch loop *)

(** The body of the [for] loop at index [i], up to its
    [await Promise.all(batchPromises)]: the batch is cut and announced,
    and [batch.map] runs every arrow function up to its own [await]. *)
Definition batchStart (W : World) (mailboxList : list MailboxRow.t)
    (batchSize : Z) (i : Z) (r : Run) : list Pending * Run :=
  let batch := JS.slice mailboxList i (i + batchSize) in
  let r := cut r batch in
  let batchNumber := JS.floorDivSuccText i batchSize in
  let r := log W r
    ("Processing Batch " ++ batchNumber ++ " (" ++
     JS.numToString (Z.of_nat (length batch)) ++ " mailboxes)")%string
    Progress None in
  startAll W r batch.

(** The body of the [for] loop at index [i]; [k] counts the batches for
    the scheduler. *)
Definition batchBody (W : World) (mailboxList : list MailboxRow.t)
    (batchSize : Z) (k : nat) (i : Z) (r : Run) : Run :=
  let totalMailboxes := Z.of_nat (length mailboxList) in
  let batchNumber := JS.floorDivSuccText i batchSize in
  let (pend, r) := batchStart W mailboxList batchSize i r in
  (* await Promise.all(batchPromises) *)
  let r := yield r in
  let r := settleAll W r pend (schedule W k (length pend)) in
  let r := log W r ("Batch " ++ batchNumber ++ " complete")%string
             Progress None in
  if i + batchSize <? totalMailboxes then
    yield (log W r "Pausing 5 seconds before next batch..." Info None)
  else r.

(** [for (let i = 0; i < totalMailboxes; i += batchSize)]. Nothing makes
    [batchSize] positive, so the loop is given [fuel] iterations; the
    boolean tells whether the loop condition ended it. *)
Fixpoint batchLoop (W : World) (fuel : nat) (mailboxList : list MailboxRow.t)
    (batchSize : Z) (k : nat) (i : Z) (r : Run) : Run * bool :=
  match fuel with
  | O => (r, false)
  | S fuel' =>
      if i <? Z.of_nat (length mailboxList) then
        batchLoop W fuel' mailboxList batchSize (S k) (i + batchSize)
          (batchBody W mailboxList batchSize k i r)
      else (r, true)
  end.

(** The statements after the loop. *)
Definition finish (W : World) (r : Run) : Run :=
  let (t, r) := newDate W r in
  let r := withSession r (complete (session r) (toISOString W t)) in
  let st := MigrationSession.stats (session r) in
  let successRate :=
    JS.percentText (MigrationStats.Successful st) (MigrationStats.Total st) in
  let r := log W r
    ("Migration Complete! Total: " ++
     JS.numToString (Z.of_nat (MigrationStats.Total st)) ++
     ", Successful: " ++
     JS.numToString (Z.of_nat (MigrationStats.Successful st)) ++
     ", Failed: " ++
     JS.numToString (Z.of_nat (MigrationStats.Failed st)) ++
     ", Success Rate: " ++ successRate ++ "%")%string
    Success None in
  yield r.

(** [processMigration(sessionId, mailboxList, config, logger)], started
    when [now] clock readings have been taken. [None]: the session is not
    in the map and the function returns at once. Otherwise the run, and
    whether it reached its end within [fuel] batches. *)
Definition processMigration (W : World) (fuel : nat) (srv : Server)
    (now : nat) (sessionId : string) (mailboxList : list MailboxRow.t)
    (config : MigrationConfig.t) (logger : Utils.MigrationLogger)
    : option (Run * bool) :=
  match getSession srv sessionId with
  | None => None
  | Some session =>
      let r := {| session := session; logger := logger; processedCount := O;
                  dates := now; randoms := O; moves := O; seen := []; batches := [] |} in
      let batchSize := MigrationConfig.BatchSize config in
      let (r, exited) := batchLoop W fuel mailboxList batchSize O 0 r in
      if exited then Some (finish W r, true) else Some (r, false)
  end.

(** The same call from its start to the point where it first gives
    control back to its caller: the [await] of the first batch, or, when
    the loop is not entered, the end of the function. The caller goes on
    from this state. *)
Definition untilAwait (W : World) (srv : Server)
    (now : nat) (sessionId : string) (mailboxList : list MailboxRow.t)
    (config : MigrationConfig.t) (logger : Utils.MigrationLogger)
    : option Run :=
  match getSession srv sessionId with
  | None => None
  | Some session =>
      let r := {| session := session; logger := logger; processedCount := O;
                  dates := now; randoms := O; moves := O; seen := []; batches := [] |} in
      let batchSize := MigrationConfig.BatchSize config in
      if 0 <? Z.of_nat (length mailboxList) then
        Some (snd (batchStart W mailboxList batchSize 0 r))
      else Some (finish W r)
  end.

Inductive Reply : Type :=
| Json (status : Z) (error : string)
| Started (sessionId : string).

(** The session object literal of [POST]. *)
Definition newSession (W : World) (sessionId : string)
    (mailboxList : list MailboxRow.t) (config : MigrationConfig.t) (t : Z)
    : MigrationSession.t :=
  MigrationSession.mk sessionId config mailboxList None []
    (MigrationStats.mk (length mailboxList) 0 0 0 0)
    (OwnLogs []) Migrating (Some (toISOString W t)) None.

(** The maps at an instant of the run: the objects stored under
    [sessionId] are shared with the run and are in the state [r]. *)
Definition publish (srv : Server) (sessionId : string) (r : Run) : Server :=
  {| activeSessions := <[sessionId := session r]> (activeSessions srv);
     sessionLoggers := <[sessionId := logger r]> (sessionLoggers srv) |}.

(** [POST(request)]: the reply, the two maps as the handler leaves them,
    and the run of [processMigration] that it started. The call of
    [processMigration] is not awaited, so it runs up to its first [await]
    before the handler returns: the maps that the handler leaves hold the
    session and the logger in the state of that instant. *)
Definition POST (W : World) (fuel : nat) (srv : Server) (req : Request)
    : Reply * Server * option (Run * bool) :=
  match sessionId req, mailboxList req with
  | Some sessionId, Some mailboxList =>
      if String.eqb sessionId EmptyString then
        (Json 400 "Invalid request parameters", srv, None)
      else
        let config := config req in
        let logger : Utils.MigrationLogger := [] in
        let session := newSession W sessionId mailboxList config (clock W 0) in
        let logger :=
          snd (Utils.log W (clock W 1) logger
                 ("Starting migration of " ++
                  JS.numToString (Z.of_nat (length mailboxList)) ++
                  " mailboxes in batches of " ++
                  JS.numToString (MigrationConfig.BatchSize config) ++ "...")%string
                 Progress None) in
        let srv :=
          {| activeSessions := <[sessionId := session]> (activeSessions srv);
             sessionLoggers := <[sessionId := logger]> (sessionLoggers srv) |} in
        let returning :=
          match untilAwait W srv 2 sessionId mailboxList config logger with
          | Some r => publish srv sessionId r
          | None => srv
          end in
        (Started sessionId, returning,
         processMigration W fuel srv 2 sessionId mailboxList config logger)
  | _, _ => (Json 400 "Invalid request parameters", srv, None)
  end.

(** Every state of the session object that another callback can see
    during the run started by [req]. *)
Definition snapshots (W : World) (fuel : nat) (srv : Server) (req : Request)
    : list MigrationSession.t :=
  match POST W fuel srv req with
  | (_, _, Some (r, _)) => seen r
  | _ => []
  end.

End Migrate.

(* ------------------------------------------------------------------ *)
(** ** [app/api/progress/route.ts] *)

Module Progress.

(** What [sendEvent] is called with; every message goes out as an
    unnamed event whose [type] field tells the kind. *)
Inductive Event : Type :=
| Connected
| ErrorEvent (message : string)
| LogEvent (log : LogEntry.t)
| ProgressEvent (stats : MigrationStats.t) (status : SessionStatus)
    (migrationResults : list MigrationResult.t)
| CompleteEvent (session : MigrationSession.t) (logs : list LogEntry.t).

(** The stream of one request: what has been enqueued, whether the
    interval timer is armed, whether the controller has been closed. *)
Record Stream : Type := {
  sent : list Event;
  interval : bool;
  closed : bool
}.

Inductive Response : Type :=
| Plain (status : Z) (body : string)
| EventStream (s : Stream).

Definition sendEvent (s : Stream) (e : Event) : Stream :=
  {| sent := sent s ++ [e]; interval := interval s; closed := closed s |}.

(** [clearInterval(interval); controller.close()] *)
Definition close (s : Stream) : Stream :=
  {| sent := sent s; interval := false; closed := true |}.

(** [start(controller)]: the acknowledgment, and the timer is armed. *)
Definition start : Stream :=
  sendEvent {| sent := []; interval := true; closed := false |} Connected.

Definition GET (sessionId : option string) : Response :=
  match sessionId with
  | None => Plain 400 "Missing sessionId"
  | Some id =>
      if String.eqb id EmptyString then Plain 400 "Missing sessionId"
      else EventStream start
  end.

Definition isTerminal (st : SessionStatus) : bool :=
  match st with
  | SCompleted | SError => true
  | _ => false
  end.

(** The callback of [setInterval], run against the maps as they are at
    that instant. A cleared timer does not fire. *)
Definition tick (srv : Migrate.Server) (sessionId : string) (s : Stream) : Stream :=
  if interval s then
    match Migrate.getSession srv sessionId,
          Migrate.getSessionLogger srv sessionId with
    | Some session, Some logger =>
        let logs := Utils.getLogs logger in
        let s :=
          match last logs with
          | Some latestLog => sendEvent s (LogEvent latestLog)
          | None => s
          end in
        let s := sendEvent s
          (ProgressEvent (MigrationSession.stats session)
             (MigrationSession.status session)
             (MigrationSession.migrationResults session)) in
        if isTerminal (MigrationSession.status session) then
          close (sendEvent s (CompleteEvent session logs))
        else s
    | _, _ =>
        close (sendEvent s (ErrorEvent "Session not found"))
    end
  else s.

(** The [abort] listener of the request. *)
Definition abort (s : Stream) : Stream :=
  if closed s then s else close s.

(** What happens to an open stream: the timer fires, finding the maps in
    some state, or the client goes away. *)
Inductive Input : Type :=
| Tick (srv : Migrate.Server)
| Abort.

Definition step (sessionId : string) (s : Stream) (i : Input) : Stream :=
  match i with
  | Tick srv => tick srv sessionId s
  | Abort => abort s
  end.

Definition run (sessionId : string) (inputs : list Input) : Stream :=
  fold_left (step sessionId) inputs start.

Definition isError (e : Event) : bool :=
  match e with ErrorEvent _ => true | _ => false end.

Definition isProgress (e : Event) : bool :=
  match e with ProgressEvent _ _ _ => true | _ => false end.

Definition isComplete (e : Event) : bool :=
  match e with CompleteEvent _ _ => true | _ => false end.

End Progress.

(* ------------------------------------------------------------------ *)
(** ** [app/api/reports/route.ts] *)

Module Reports.

Inductive Response : Type :=
| Json (status : Z) (error : string)
| Download (contentType filename body : string).

Definition csvColumns : list string :=
  [ "Display Name"; "Source Email"; "Target Email"; "Status"; "Start Time";
    "End Time"; "Duration"; "Items Migrated"; "Data Migrated";
    "Error Message" ]%string.

(** The object that [session.migrationResults.map] builds for a result. *)
Definition csvRecord (result : MigrationResult.t) : list (string * CsvCell) :=
  [ ("Display Name", CStr (MigrationResult.DisplayName result));
    ("Source Email", CStr (MigrationResult.SourceEmail result));
    ("Target Email", CStr (MigrationResult.TargetEmail result));
    ("Status", CStr (statusText (MigrationResult.Status result)));
    ("Start Time", CStr (MigrationResult.StartTime result));
    ("End Time", CStr (JS.orNullable (MigrationResult.EndTime result) "N/A"));
    ("Duration", CStr (JS.orNullable (MigrationResult.Duration result) "N/A"));
    ("Items Migrated", CNum (MigrationResult.ItemsMigrated result));
    ("Data Migrated", CStr (MigrationResult.DataMigrated result));
    ("Error Message", CStr (JS.orString (MigrationResult.ErrorMessage result) EmptyString))
  ]%string.

Definition csvData (results : list MigrationResult.t)
    : list (list (string * CsvCell)) :=
  map csvRecord results.

(** [record[column]] *)
Fixpoint cell (column : string) (record : list (string * CsvCell))
    : option CsvCell :=
  match record with
  | [] => None
  | (name, c) :: rest => if String.eqb name column then Some c else cell column rest
  end.

(** [`Migration_Report_${new Date().toISOString().split('T')[0]}.ext`] *)
Definition fileName (W : World) (now : Z) (ext : string) : string :=
  ("Migration_Report_" ++ JS.beforeFirst "T" (toISOString W now) ++ "." ++ ext)%string.

(** [GET(request)] at clock reading [now]. *)
Definition GET (W : World) (now : Z) (srv : Migrate.Server)
    (sessionId format : option string) : Response :=
  let format := JS.orNullable format "csv" in
  match sessionId with
  | None => Json 400 "Missing sessionId"
  | Some sessionId =>
      if String.eqb sessionId EmptyString then Json 400 "Missing sessionId"
      else
        match Migrate.getSession srv sessionId with
        | None => Json 404 "Session not found"
        | Some session =>
            let stats := Utils.calculateStats (MigrationSession.migrationResults session) in
            if String.eqb format "csv" then
              Download "text/csv" (fileName W now "csv")
                (stringify W csvColumns
                   (csvData (MigrationSession.migrationResults session)))
            else if String.eqb format "html" then
              Download "text/html" (fileName W now "html")
                (Utils.generateReportHTML W now
                   (MigrationSession.migrationResults session) stats
                   (MigrationSession.validationResults session))
            else Json 400 "Invalid format. Use csv or html"
        end
  end.

End Reports.

(* ------------------------------------------------------------------ *)
(** ** Vocabulary of the properties *)

Definition largeMailboxIssue : string :=
  "Large mailbox (>10GB) - migration may take extended time".

(** [stats.Successful + stats.Failed + stats.InProgress] *)
Definition countedOutcomes (st : MigrationStats.t) : nat :=
  (MigrationStats.Successful st + MigrationStats.Failed st +
   MigrationStats.InProgress st)%nat.

(** Agreement of two stats records on everything but [Total]. *)
Definition sameCounters (a b : MigrationStats.t) : Prop :=
  MigrationStats.Successful a = MigrationStats.Successful b /\
  MigrationStats.Failed a = MigrationStats.Failed b /\
  MigrationStats.InProgress a = MigrationStats.InProgress b /\
  MigrationStats.Skipped a = MigrationStats.Skipped b.

Definition terminal (result : MigrationResult.t) : Prop :=
  MigrationResult.Status result = StCompleted \/
  MigrationResult.Status result = StFailed.

(** What the [try] block does to the session object, given the result
    that [simulateMigration] returned. *)
Definition sessionFulfilled (s : MigrationSession.t) (result : MigrationResult.t)
    : MigrationSession.t :=
  Migrate.recomputeStats
    (Migrate.pushResult
       (if Status_eqb (MigrationResult.Status result) StCompleted
        then Migrate.incSuccessful s else Migrate.incFailed s)
       result).

(** What the [catch] block does to the session object. *)
Definition sessionRejected (s : MigrationSession.t) (failed : MigrationResult.t)
    : MigrationSession.t :=
  Migrate.pushResult (Migrate.incFailed s) failed.

(** The states a session object can go through: created by [POST], then
    one item after the other takes the [try] or the [catch] path, in any
    order and number, and the run may finish. *)
Inductive reachable (W : World) : MigrationSession.t -> Prop :=
| reach_new (sessionId : string) (mailboxList : list MailboxRow.t)
    (config : MigrationConfig.t) (t : Z) :
    reachable W (Migrate.newSession W sessionId mailboxList config t)
| reach_fulfilled (s : MigrationSession.t) (m : MailboxRow.t)
    (t1 t2 : Z) (mv : Move.t) (r1 r2 : Q) :
    reachable W s ->
    reachable W (sessionFulfilled s (Utils.simulateMigration W m t1 t2 mv r1 r2))
| reach_rejected (s : MigrationSession.t) (m : MailboxRow.t)
    (t1 t2 : Z) (e : Thrown) :
    reachable W s ->
    reachable W (sessionRejected s (Migrate.failedResult W m t1 t2 e))
| reach_complete (s : MigrationSession.t) (t : string) :
    reachable W s ->
    reachable W (Migrate.complete s t).

(** The outcome that item number [i] of the input, the mailbox [m], must
    get: decided by how the mover's promise for it settles. *)
Definition outcomeOf (W : World) (i : nat) (m : MailboxRow.t)
    (out : MigrationResult.t) : Prop :=
  match mover W i with
  | Fulfilled mv =>
      exists (t1 t2 : Z) (r1 r2 : Q),
        out = Utils.simulateMigration W m t1 t2 mv r1 r2
  | Rejected e =>
      exists t1 t2 : Z, out = Migrate.failedResult W m t1 t2 e
  end.

(** The same for a pending item of a batch. *)
Definition outcomeFor (W : World) (p : Migrate.Pending)
    (out : MigrationResult.t) : Prop :=
  match Migrate.promise p with
  | Fulfilled mv =>
      exists (t2 : Z) (r1 r2 : Q),
        out = Utils.simulateMigration W (Migrate.mailbox p)
                (Migrate.startTime p) t2 mv r1 r2
  | Rejected e =>
      exists t1 t2 : Z, out = Migrate.failedResult W (Migrate.mailbox p) t1 t2 e
  end.

(** Consecutive chunks of [size] elements, the last one possibly
    shorter: the partition that the batch loop is meant to compute. *)
Fixpoint chunksOf {A : Type} (fuel size : nat) (l : list A) : list (list A) :=
  match fuel with
  | O => []
  | S fuel' =>
      match l with
      | [] => []
      | _ :: _ => firstn size l :: chunksOf fuel' size (skipn size l)
      end
  end.

Definition chunks {A : Type} (size : nat) (l : list A) : list (list A) :=
  chunksOf (length l) size l.



(** [ceil(n / b)] for a positive [b]. *)
Definition ceilDiv (n b : Z) : Z :=
  if n mod b =? 0 then n / b else n / b + 1.

(** A batch size clamped to the range [1,50]. *)
Definition clamped (batchSize : Z) : Z := Z.max 1 (Z.min 50 batchSize).

(** One line of a delimited file: the fields, separated by commas, and
    a line feed. *)
Definition csvLine (fields : list string) : string :=
  (String.concat "," fields ++ JS.nl)%string.

(** The text that the documentation of csv-stringify gives for
    [stringify(records, { header: true, columns })]: the line of the
    column names, then one line per record, in the order of the records;
    the line of a record holds its fields in the order of the columns,
    every one written by the library's field encoder [field], and a
    column that the record does not have gives an empty field. *)
Definition csvText (field : CsvCell -> string) (columns : list string)
    (records : list (list (string * CsvCell))) : string :=
  (csvLine (map (fun column => field (CStr column)) columns) ++
   String.concat EmptyString
     (map (fun record =>
             csvLine
               (map (fun column =>
                       match Reports.cell column record with
                       | Some value => field value
                       | None => EmptyString
                       end)
                    columns))
          records))%string.


(** *** Sample data for the worked examples *)

Module Sample.

(** A field encoder as csv-stringify has it: a number is written in
    decimal, a text as it is unless it holds a comma, a double quote, a
    line feed or a carriage return; then it is put between double quotes
    and every double quote in it is doubled. *)
Definition special (c : ascii) : bool :=
  Ascii.eqb c ","%char || Ascii.eqb c (ascii_of_nat 34) ||
  Ascii.eqb c (ascii_of_nat 10) || Ascii.eqb c (ascii_of_nat 13).

Fixpoint needsQuotes (s : string) : bool :=
  match s with
  | EmptyString => false
  | String c rest => special c || needsQuotes rest
  end.

Fixpoint doubled (s : string) : string :=
  match s with
  | EmptyString => EmptyString
  | String c rest =>
      if Ascii.eqb c (ascii_of_nat 34)
      then String c (String c (doubled rest))
      else String c (doubled rest)
  end.

Definition csvField (cell : CsvCell) : string :=
  match cell with
  | CNum n => JS.numToString n
  | CStr s =>
      if needsQuotes s then (JS.dq ++ doubled s ++ JS.dq)%string else s
  end.

Definition world : World := {|
  clock n := 1000 * Z.of_nat n;
  random n := (1 # 2)%Q;
  mover n :=
    match n with
    | 1%nat => Rejected (ErrorObject "mailbox locked")
    | _ => Fulfilled (Move.mk true (Some "Move-1"%string) None)
    end;
  schedule k n := rev (seq 0 n);
  toISOString z := JS.numToString z;
  dateToLocaleString z := JS.numToString z;
  numToLocaleString z := JS.numToString z;
  stringify columns records := csvText csvField columns records
|}.

Definition row (name : string) : MailboxRow.t :=
  MailboxRow.mk (name ++ "@old.example") (name ++ "@new.example") name.

Definition server : Migrate.Server :=
  {| Migrate.activeSessions := ∅; Migrate.sessionLoggers := ∅ |}.

Definition request (batchSize : Z) (rows : list MailboxRow.t) : Migrate.Request :=
  {| Migrate.sessionId := Some "session-1"%string;
     Migrate.mailboxList := Some rows;
     Migrate.config := MigrationConfig.mk batchSize false false "." |}.

Definition lookupOfSize (q : Q) : Lookup.t :=
  Lookup.mk true (Some q) (Some 1200) (Some "DB01"%string) None.

Definition moved : Move.t := Move.mk true (Some "Move-1"%string) None.

Definition rows : list MailboxRow.t := [row "ann"; row "bob"; row "cy"].

(** Three mailboxes in batches of two; the second mailbox makes the
    mover throw, and each batch settles last item first. *)
Definition run : list MigrationSession.t :=
  Migrate.snapshots world 5 server (request 2 rows).

Definition created : MigrationSession.t :=
  Migrate.newSession world "session-1" rows
    (MigrationConfig.mk 2 false false ".") 0.

Definition final : MigrationSession.t := List.last run created.

End Sample.

(** *** Bookkeeping relations between two states of a run *)

(** What an operation of the run leaves alone. *)
Record frame (r r' : Migrate.Run) : Prop := {
  frame_session : Migrate.session r' = Migrate.session r;
  frame_seen : Migrate.seen r' = Migrate.seen r;
  frame_batches : Migrate.batches r' = Migrate.batches r
}.

(** The pending items in the order in which [settleAll] resumes them. *)
Definition settled (pend : list Migrate.Pending) (order : list nat)
    : list Migrate.Pending :=
  flat_map (fun pos => match pend !! pos with Some p => [p] | None => [] end)
    order.

(** Everything seen so far, and the current session, is [reachable]. *)
Definition RunInv (W : World) (r : Migrate.Run) : Prop :=
  Forall (reachable W) (Migrate.seen r) /\ reachable W (Migrate.session r).

(** Between [r] and [r'] the mailboxes [items] were started, in this
    order, and each of them got its outcome appended, in some order. *)
Definition batchOutcomes (W : World) (r r' : Migrate.Run)
    (items : list MailboxRow.t) : Prop :=
  exists outs sorted : list MigrationResult.t,
    MigrationSession.migrationResults (Migrate.session r')
      = MigrationSession.migrationResults (Migrate.session r) ++ outs /\
    Permutation outs sorted /\
    Forall2 (fun out jm => outcomeOf W (fst jm) (snd jm) out) sorted
      (combine (seq (Migrate.moves r) (length items)) items).

(** A second sample world: every move succeeds and the items of a batch
    settle in the order in which they were started. *)
Module Sample2.

Definition calm : World := {|
  clock n := 1000 * Z.of_nat n;
  random n := (1 # 4)%Q;
  mover n := Fulfilled Sample.moved;
  schedule k n := seq 0 n;
  toISOString z := JS.numToString z;
  dateToLocaleString z := JS.numToString z;
  numToLocaleString z := JS.numToString z;
  stringify columns records := csvText Sample.csvField columns records
|}.

End Sample2.

(* ------------------------------------------------------------------ *)
(** ** [app/api/validate/route.ts] *)

Module Validate.

Inductive Reply : Type :=
| Json (status : Z) (error : string)
| Results (validationResults : list ValidationResult.t).

(** The [for (const mailbox of mailboxList)] loop: [lookups n] is what
    the [n]-th awaited [connector.validateMailbox] brings back ([n]
    counts the calls of this request, starting at [first]); every result
    is pushed onto [validationResults]. *)
Fixpoint validateEach (W : World) (lookups : nat -> Lookup.t) (first : nat)
    (validationResults : list ValidationResult.t)
    (mailboxList : list MailboxRow.t) : list ValidationResult.t :=
  match mailboxList with
  | [] => validationResults
  | mailbox :: rest =>
      let result := Utils.validateMailbox W (lookups first) mailbox in
      validateEach W lookups (S first) (validationResults ++ [result]) rest
  end.

(** [POST(request)]: [mailboxList] is [None] when the body has no such
    field or the field is not an array. *)
Definition POST (W : World) (lookups : nat -> Lookup.t)
    (mailboxList : option (list MailboxRow.t)) : Reply :=
  match mailboxList with
  | None => Json 400 "Invalid mailbox list"
  | Some mailboxList => Results (validateEach W lookups 0 [] mailboxList)
  end.

End Validate.

(* ------------------------------------------------------------------ *)
(** ** [lib/exchange-connector.ts], the connector object *)

Module ExchangeConnector.

Record ExchangeConfig : Type := {
  connectionUri : option string;
  useBasicAuth : option bool;
  credentialPath : option string;
  useMockData : option bool
}.

(** The default argument of the constructor, [{ useMockData: true }]. *)
Definition defaultConfig : ExchangeConfig :=
  {| connectionUri := None; useBasicAuth := None; credentialPath := None;
     useMockData := Some true |}.

Record t : Type := {
  config : ExchangeConfig;
  isConnected : bool
}.

(** [new ExchangeConnector(config)] *)
Definition new (cfg : option ExchangeConfig) : t :=
  {| config := match cfg with Some c => c | None => defaultConfig end;
     isConnected := false |}.

(** [getExchangeConnector(config)] on the module variable
    [exchangeConnectorInstance]: the connector handed out and the
    variable afterwards. *)
Definition getExchangeConnector (instance : option t)
    (cfg : option ExchangeConfig) : t * option t :=
  match instance with
  | None => let c := new cfg in (c, Some c)
  | Some c => (c, Some c)
  end.

(** A sequence of calls: the connectors handed out, in order. *)
Fixpoint getExchangeConnectors (instance : option t)
    (cfgs : list (option ExchangeConfig)) : list t :=
  match cfgs with
  | [] => []
  | cfg :: rest =>
      let (c, instance) := getExchangeConnector instance cfg in
      c :: getExchangeConnectors instance rest
  end.

(** [if (this.config.useMockData)] *)
Definition mocking (c : t) : bool :=
  match useMockData (config c) with
  | Some b => b
  | None => false
  end.

(** [startMigration] with [useMockData], once its timer has fired: [r]
    is the draw compared with [0.05], [now] the value of [Date.now()] and
    [suffix] the text [Math.random().toString(36).substr(2, 9)]. *)
Definition startMigration (r : Q) (now : Z) (suffix : string) : Move.t :=
  if JS.gt r (5 # 100) then
    Move.mk true
      (Some ("Move-" ++ JS.numToString now ++ "-" ++ suffix)%string) None
  else
    Move.mk false None
      (Some "Simulated migration failure - mailbox locked"%string).

End ExchangeConnector.

(* ------------------------------------------------------------------ *)
(** ** The dashboard page ([MigrationDashboard]) *)

Module Dashboard.

(** A row as the CSV parser delivers it: a column that the file does not
    have is [undefined]. *)
Record CsvRow : Type := {
  SourceEmail : option string;
  TargetEmail : option string;
  DisplayName : option string
}.

(** Truthiness of a field. *)
Definition truthy (x : option string) : bool :=
  match x with
  | Some s => negb (String.eqb s EmptyString)
  | None => false
  end.

(** [row.SourceEmail && row.TargetEmail && row.DisplayName] *)
Definition complete (row : CsvRow) : bool :=
  truthy (SourceEmail row) && truthy (TargetEmail row) &&
  truthy (DisplayName row).

(** [data.filter(row => ...)] of [handleFileUpload] *)
Definition validData (data : list CsvRow) : list CsvRow :=
  List.filter complete data.

Definition ValidationStatus_eqb (a b : ValidationStatus) : bool :=
  match a, b with
  | Passed, Passed => true
  | Warning, Warning => true
  | VFailed, VFailed => true
  | _, _ => false
  end.

(** [validationResults.filter(r => r.ValidationStatus === st).length] *)
Definition countStatus (st : ValidationStatus)
    (validationResults : list ValidationResult.t) : nat :=
  length
    (List.filter
       (fun r => ValidationStatus_eqb (ValidationResult.ValidationStatus r) st)
       validationResults).

(** [session.validationResults.some(r => r.ValidationStatus === 'Failed')],
    the part of the [disabled] attribute of the Start button that comes
    from validation. *)
Definition someFailed (validationResults : list ValidationResult.t) : bool :=
  existsb
    (fun r => ValidationStatus_eqb (ValidationResult.ValidationStatus r) VFailed)
    validationResults.

End Dashboard.

(* ------------------------------------------------------------------ *)
(** ** Vocabulary of the further properties *)

(** The strings that a regular expression denotes. *)
Inductive matches : JS.regex -> string -> Prop :=
| matches_empty : matches JS.Empty EmptyString
| matches_class (p : ascii -> bool) (c : ascii) :
    p c = true -> matches (JS.Class p) (String c EmptyString)
| matches_cat (a b : JS.regex) (s1 s2 : string) :
    matches a s1 -> matches b s2 -> matches (JS.Cat a b) (s1 ++ s2)
| matches_alt_l (a b : JS.regex) (s : string) :
    matches a s -> matches (JS.Alt a b) s
| matches_alt_r (a b : JS.regex) (s : string) :
    matches b s -> matches (JS.Alt a b) s
| matches_star_nil (a : JS.regex) : matches (JS.Star a) EmptyString
| matches_star_cons (a : JS.regex) (s1 s2 : string) :
    matches a s1 -> matches (JS.Star a) s2 -> matches (JS.Star a) (s1 ++ s2).

Fixpoint allChars (p : ascii -> bool) (s : string) : bool :=
  match s with
  | EmptyString => true
  | String c rest => p c && allChars p rest
  end.

(** A non-empty run of characters that are neither white space nor [@]. *)
Definition plain (s : string) : Prop :=
  s <> EmptyString /\ allChars Utils.notSpaceNorAt s = true.

(** The characters of a string, as a list. *)
Fixpoint chars (s : string) : list ascii :=
  match s with
  | EmptyString => []
  | String c rest => c :: chars rest
  end.

Definition isLog (e : Progress.Event) : bool :=
  match e with Progress.LogEvent _ => true | _ => false end.

Definition isConnected (e : Progress.Event) : bool :=
  match e with Progress.Connected => true | _ => false end.

(** The shape of everything a progress stream has sent: the
    acknowledgment, then [log] and [progress] events, then at most one
    closing event. *)
Definition ending (e : Progress.Event) : bool :=
  Progress.isError e || Progress.isComplete e.

Definition wellFormed (s : Progress.Stream) : Prop :=
  Progress.interval s = negb (Progress.closed s) /\
  exists body tail : list Progress.Event,
    Progress.sent s = Progress.Connected :: body ++ tail /\
    Forall (fun e => isLog e || Progress.isProgress e = true) body /\
    (tail = [] \/
     (exists e : Progress.Event, tail = [e] /\ ending e = true) /\
     Progress.closed s = true).

(** A session that is still being migrated, and one that is done. *)
Definition migrating (s : MigrationSession.t) : Prop :=
  MigrationSession.status s = Migrating /\
  MigrationSession.endTime s = None /\
  MigrationSession.logs s = OwnLogs [].

Definition finished (s : MigrationSession.t) : Prop :=
  MigrationSession.status s = SCompleted /\
  MigrationSession.endTime s <> None /\
  MigrationSession.logs s = LoggerLogs.

(** The fields of a session that [POST] fixes once and for all. *)
Definition sameIdentity (a b : MigrationSession.t) : Prop :=
  MigrationSession.id a = MigrationSession.id b /\
  MigrationSession.config a = MigrationSession.config b /\
  MigrationSession.mailboxList a = MigrationSession.mailboxList b /\
  MigrationSession.validationResults a = MigrationSession.validationResults b /\
  MigrationSession.startTime a = MigrationSession.startTime b.

(** Outcome lists that only grow along a list of session states. *)
Definition growing (l : list MigrationSession.t) : Prop :=
  forall (i j : nat) (si sj : MigrationSession.t),
    (i <= j)%nat -> l !! i = Some si -> l !! j = Some sj ->
    exists more : list MigrationResult.t,
      MigrationSession.migrationResults sj
        = MigrationSession.migrationResults si ++ more.

(** [stats] is exactly the aggregation of the outcome list. *)
Definition aggregated (s : MigrationSession.t) : Prop :=
  MigrationSession.stats s
    = Utils.calculateStats (MigrationSession.migrationResults s).

(** What is always true of a stored outcome. *)
Definition settledOutcome (out : MigrationResult.t) : Prop :=
  MigrationResult.EndTime out <> None /\
  (exists d : string,
     MigrationResult.Duration out = Some d /\ d <> EmptyString) /\
  (MigrationResult.Status out = StCompleted ->
     MigrationResult.ErrorMessage out = EmptyString) /\
  (MigrationResult.Status out = StFailed ->
     MigrationResult.ItemsMigrated out = 0 /\
     MigrationResult.DataMigrated out = "0 MB"%string).

(** ** Further sample values *)

Module Fixtures.

(** One log entry, and a server on which session-1 has just been
    created and has logged it. *)
Definition entry : LogEntry.t := LogEntry.mk "0" Info "Starting" None.


Definition logging : Migrate.Server :=
  Migrate.publish Sample.server "session-1"
    {| Migrate.session := Sample.created; Migrate.logger := [entry];
       Migrate.processedCount := 0; Migrate.dates := 2;
       Migrate.randoms := 0; Migrate.moves := 0;
       Migrate.seen := []; Migrate.batches := [] |}.

(** A configuration that asks for the real Exchange, and the connector
    handed out to the second of two calls, the first without a
    configuration, the second with this one. *)
Definition real : ExchangeConnector.ExchangeConfig :=
  {| ExchangeConnector.connectionUri := None;
     ExchangeConnector.useBasicAuth := None;
     ExchangeConnector.credentialPath := None;
     ExchangeConnector.useMockData := Some false |}.

Definition second : ExchangeConnector.t :=
  nth 1 (ExchangeConnector.getExchangeConnectors None [None; Some real])
    (ExchangeConnector.new (Some real)).

End Fixtures.

(* ------------------------------------------------------------------ *)
(** * Properties *)

(** ** The embedding at work *)

Example slice_inside : JS.slice [1; 2; 3; 4; 5] 2 4 = [3; 4].
Proof. reflexivity. Qed.

Example slice_past_the_end : JS.slice [1; 2; 3; 4; 5] 4 6 = [5].
Proof. reflexivity. Qed.

Example slice_negative_end : JS.slice [1; 2; 3; 4; 5] 0 (-1) = [1; 2; 3; 4].
Proof. reflexivity. Qed.

Example email_accepted :
  JS.test Utils.emailRegex "ann@new.example" = true.
Proof. reflexivity. Qed.

Example email_without_dot : JS.test Utils.emailRegex "ann@example" = false.
Proof. reflexivity. Qed.

Example email_with_space :
  JS.test Utils.emailRegex "ann smith@new.example" = false.
Proof. reflexivity. Qed.

Example email_two_ats : JS.test Utils.emailRegex "ann@@new.example" = false.
Proof. reflexivity. Qed.

Example duration_short : Utils.formatDuration 61000 = "01:01"%string.
Proof. reflexivity. Qed.

Example duration_long : Utils.formatDuration 6000000 = "100:00"%string.
Proof. reflexivity. Qed.

Example simulated_lookup_missing :
  Lookup.exists_ (Connector.validateMailbox (1 # 2) (1 # 2) "d") = false.
Proof. reflexivity. Qed.

Example sample_run_batches :
  match Migrate.POST Sample.world 5 Sample.server (Sample.request 2 Sample.rows) with
  | (_, _, Some (r, done)) =>
      (map (map MailboxRow.DisplayName) (Migrate.batches r), done)
  | _ => ([], false)
  end = ([["ann"; "bob"]; ["cy"]]%string, true).
Proof. vm_compute. reflexivity. Qed.

Example sample_run_outcomes :
  map (fun r => (MigrationResult.DisplayName r, MigrationResult.Status r,
                 MigrationResult.ErrorMessage r))
    (MigrationSession.migrationResults Sample.final)
  = [ ("bob", StFailed, "mailbox locked");
      ("ann", StCompleted, EmptyString);
      ("cy", StCompleted, EmptyString) ]%string.
Proof. vm_compute. reflexivity. Qed.

Example zero_batch_size_never_ends :
  match Migrate.POST Sample.world 50 Sample.server (Sample.request 0 Sample.rows) with
  | (_, _, Some (r, done)) => (length (Migrate.batches r), done)
  | _ => (O, true)
  end = (50%nat, false).
Proof. vm_compute. reflexivity. Qed.

(** ** Texts *)

Lemma length_append (a b : string) :
  String.length (a ++ b)%string = (String.length a + String.length b)%nat.
Proof. induction a as [|c a IH]; simpl; [reflexivity | now rewrite IH]. Qed.

Lemma length_repeatChar (n : nat) (c : ascii) :
  String.length (JS.repeatChar n c) = n.
Proof. induction n as [|n IH]; simpl; [reflexivity | now rewrite IH]. Qed.

Lemma length_padStart (n : nat) (c : ascii) (s : string) :
  String.length (JS.padStart n c s) = Nat.max n (String.length s).
Proof.
  unfold JS.padStart. rewrite length_append, length_repeatChar. lia.
Qed.

Lemma two_digits (n : nat) :
  (n < 60)%nat ->
  String.length (JS.padStart 2 "0" (JS.numToString (Z.of_nat n))) = 2%nat.
Proof.
  intros H.
  do 60 (destruct n as [|n]; [vm_compute; reflexivity|]).
  lia.
Qed.

Lemma rem_nonneg (d : Z) : 0 <= d -> Z.rem d 60000 = d mod 60000.
Proof. intros H. apply Z.rem_mod_nonneg; lia. Qed.

Lemma formatDuration_nonneg (d : Z) :
  0 <= d ->
  Utils.formatDuration d =
    (JS.padStart 2 "0" (JS.numToString (d / 60000)) ++ ":" ++
     JS.padStart 2 "0" (JS.numToString (d mod 60000 / 1000)))%string.
Proof. intros H. unfold Utils.formatDuration. now rewrite rem_nonneg. Qed.

Lemma simulateMigration_Duration (W : World) (m : MailboxRow.t)
    (t1 t2 : Z) (mv : Move.t) (r1 r2 : Q) :
  MigrationResult.Duration (Utils.simulateMigration W m t1 t2 mv r1 r2)
    = Some (Utils.formatDuration (t2 - t1)).
Proof. unfold Utils.simulateMigration. destruct (Move.success mv); reflexivity. Qed.

(** ** The validator *)

Section Validator.

Lemma gt_true (a b : Q) : JS.gt a b = true <-> (b < a)%Q.
Proof.
  unfold JS.gt. rewrite negb_true_iff. split.
  - intros H. apply Qnot_le_lt. intros Hle.
    apply Qle_bool_iff in Hle. congruence.
  - intros H. destruct (Qle_bool a b) eqn:E; [|reflexivity].
    apply Qle_bool_iff in E. exfalso. exact (Qlt_not_le _ _ H E).
Qed.

Lemma gt_false (a b : Q) : JS.gt a b = false <-> ~ (b < a)%Q.
Proof.
  rewrite <- gt_true. destruct (JS.gt a b); split; intros; congruence.
Qed.

Variable W : World.

Lemma validate_missing (l : Lookup.t) (m : MailboxRow.t) :
  Lookup.exists_ l = false ->
  ValidationResult.ValidationStatus (Utils.validateMailbox W l m) = VFailed /\
  ValidationResult.ValidationIssues (Utils.validateMailbox W l m)
    = ["Source mailbox not found"%string].
Proof. intros H. unfold Utils.validateMailbox. rewrite H. split; reflexivity. Qed.

Lemma validate_malformed (l : Lookup.t) (m : MailboxRow.t) :
  Lookup.exists_ l = true ->
  JS.test Utils.emailRegex (MailboxRow.TargetEmail m) = false ->
  ValidationResult.ValidationStatus (Utils.validateMailbox W l m) = VFailed /\
  ValidationResult.ValidationIssues (Utils.validateMailbox W l m)
    = ["Invalid target email format"%string].
Proof.
  intros H1 H2. unfold Utils.validateMailbox. rewrite H1, H2. split; reflexivity.
Qed.

Lemma validate_sized (l : Lookup.t) (m : MailboxRow.t) :
  Lookup.exists_ l = true ->
  JS.test Utils.emailRegex (MailboxRow.TargetEmail m) = true ->
  ValidationResult.ValidationStatus (Utils.validateMailbox W l m)
    = (if JS.gt (JS.orZero (Lookup.size l)) 10000 then Warning else Passed) /\
  ValidationResult.ValidationIssues (Utils.validateMailbox W l m)
    = (if JS.gt (JS.orZero (Lookup.size l)) 10000
       then [largeMailboxIssue] else []).
Proof.
  intros H1 H2. unfold Utils.validateMailbox. rewrite H1, H2. simpl.
  destruct (JS.gt (JS.orZero (Lookup.size l)) 10000); split; reflexivity.
Qed.

End Validator.

(** ** Chunks of a list *)

Section Chunks.
Context {A : Type}.
Implicit Types (l : list A) (size fuel : nat).

Lemma chunksOf_cons fuel size (x : A) l :
  chunksOf (S fuel) size (x :: l) =
    firstn size (x :: l) :: chunksOf fuel size (skipn size (x :: l)).
Proof. reflexivity. Qed.

Lemma chunksOf_fuel fuel1 fuel2 size l :
  (1 <= size)%nat -> (length l <= fuel1)%nat -> (length l <= fuel2)%nat ->
  chunksOf fuel1 size l = chunksOf fuel2 size l.
Proof.
  intros Hs. revert fuel2 l.
  induction fuel1 as [|f1 IH]; intros fuel2 l H1 H2.
  - destruct l; [|simpl in H1; lia]. destruct fuel2; reflexivity.
  - destruct l as [|x l]; [destruct fuel2; reflexivity|].
    destruct fuel2 as [|f2]; [simpl in H2; lia|].
    rewrite !chunksOf_cons. f_equal.
    assert (length (skipn size (x :: l)) <= length l)%nat.
    { rewrite length_skipn. simpl. lia. }
    simpl in H1, H2. apply IH; lia.
Qed.

Lemma chunks_cons size (x : A) l :
  (1 <= size)%nat ->
  chunks size (x :: l) =
    firstn size (x :: l) :: chunks size (skipn size (x :: l)).
Proof.
  intros Hs. unfold chunks at 1. simpl length. rewrite chunksOf_cons. f_equal.
  apply chunksOf_fuel; auto.
  rewrite length_skipn. simpl. lia.
Qed.

Lemma chunks_ind size (Hs : (1 <= size)%nat) (P : list A -> Prop) :
  P [] ->
  (forall x l, P (skipn size (x :: l)) -> P (x :: l)) ->
  forall l, P l.
Proof.
  intros H0 Hstep l.
  remember (length l) as n eqn:En.
  revert l En. induction n as [n IH] using lt_wf_ind. intros l En.
  destruct l as [|x l]; [exact H0|].
  apply Hstep. eapply IH; [|reflexivity].
  rewrite length_skipn. subst n. simpl. lia.
Qed.

Lemma concat_chunks size l : (1 <= size)%nat -> concat (chunks size l) = l.
Proof.
  intros Hs. induction l as [|x l IH] using (chunks_ind size Hs); auto.
  rewrite chunks_cons by assumption. simpl concat. rewrite IH.
  apply firstn_skipn.
Qed.

Lemma length_chunks size l :
  (1 <= size)%nat ->
  Z.of_nat (length (chunks size l)) =
    (Z.of_nat (length l) + Z.of_nat size - 1) / Z.of_nat size.
Proof.
  intros Hs. induction l as [|x l IH] using (chunks_ind size Hs); auto.
  - simpl. symmetry. apply Z.div_small. lia.
  - rewrite chunks_cons by assumption. simpl length at 1.
    rewrite Nat2Z.inj_succ, IH, length_skipn.
    set (N := length (x :: l)). set (B := Z.of_nat size).
    assert (HB : 1 <= B) by (unfold B; lia).
    assert (HN : (1 <= N)%nat) by (unfold N; simpl; lia).
    destruct (le_lt_dec N size) as [Hle | Hgt].
    + replace (Z.of_nat (N - size)) with 0 by lia.
      rewrite (Z.div_small (0 + B - 1) B) by lia.
      apply Z.div_unique with (r := Z.of_nat N - 1); unfold B; lia.
    + replace (Z.of_nat N + B - 1) with (Z.of_nat (N - size) + B - 1 + 1 * B)
        by (unfold B; lia).
      rewrite Z.div_add by lia. lia.
Qed.

Lemma chunks_full size l (j : nat) (batch : list A) :
  (1 <= size)%nat ->
  chunks size l !! j = Some batch ->
  (j + 1 < length (chunks size l))%nat ->
  length batch = size.
Proof.
  intros Hs. revert j. induction l as [|x l IH] using (chunks_ind size Hs); auto.
  - intros j H. discriminate H.
  - intros j. rewrite chunks_cons by assumption. destruct j as [|j]; simpl.
    + intros [= <-] Hlen.
      destruct (skipn size (x :: l)) as [|y rest] eqn:E.
      * simpl in Hlen. lia.
      * assert (Hl : length (skipn size (x :: l)) = S (length rest))
          by (rewrite E; reflexivity).
        rewrite length_skipn in Hl.
        change (length (firstn size (x :: l)) = size).
        rewrite length_firstn. lia.
    + intros Hj Hlen. apply (IH j); [exact Hj | lia].
Qed.

Lemma chunks_last size l (batch : list A) :
  (1 <= size)%nat ->
  last (chunks size l) = Some batch ->
  Z.of_nat (length batch) =
    if Z.of_nat (length l) mod Z.of_nat size =? 0
    then Z.of_nat size
    else Z.of_nat (length l) mod Z.of_nat size.
Proof.
  intros Hs. induction l as [|x l IH] using (chunks_ind size Hs); auto.
  - intros H. discriminate H.
  - rewrite chunks_cons by assumption.
    set (N := length (x :: l)). set (B := Z.of_nat size).
    assert (HB : 1 <= B) by (unfold B; lia).
    assert (HN : (1 <= N)%nat) by (unfold N; simpl; lia).
    destruct (skipn size (x :: l)) as [|y rest] eqn:E.
    + simpl. intros [= <-].
      assert (Hl : length (skipn size (x :: l)) = 0%nat) by (rewrite E; reflexivity).
      rewrite length_skipn in Hl. fold N in Hl.
      change (Z.of_nat (length (firstn size (x :: l))) =
              if Z.of_nat N mod B =? 0 then B else Z.of_nat N mod B).
      rewrite length_firstn. fold N.
      destruct (Nat.eq_dec N size) as [-> | Hne].
      * fold B. rewrite Z.mod_same by lia. simpl. unfold B. lia.
      * rewrite Z.mod_small by (unfold B; lia).
        destruct (Z.eqb_spec (Z.of_nat N) 0); lia.
    + intros Hlast.
      assert (Hl : length (skipn size (x :: l)) = S (length rest))
        by (rewrite E; reflexivity).
      rewrite length_skipn in Hl. fold N in Hl.
      assert (Hlast' : last (chunks size (y :: rest)) = Some batch).
      { rewrite chunks_cons in Hlast |- * by assumption. exact Hlast. }
      specialize (IH Hlast'). rewrite IH.
      replace (Z.of_nat (length (y :: rest))) with (Z.of_nat N - 1 * B)
        by (simpl length; unfold B; lia).
      replace (Z.of_nat N - 1 * B) with (Z.of_nat N + (-1) * B) by lia.
      rewrite Z.mod_add by lia. reflexivity.
Qed.

End Chunks.

Lemma slice_batch {A : Type} (l : list A) (i B : Z) :
  0 <= i < Z.of_nat (length l) -> 1 <= B ->
  JS.slice l i (i + B) = firstn (Z.to_nat B) (skipn (Z.to_nat i) l).
Proof.
  intros Hi HB. unfold JS.slice, JS.relIndex.
  destruct (Z.ltb_spec i 0); [lia|].
  destruct (Z.ltb_spec (i + B) 0); [lia|].
  rewrite (Z.min_l i) by lia.
  destruct (Z.le_ge_cases (i + B) (Z.of_nat (length l))) as [Hin | Hout].
  - rewrite Z.min_l by lia. f_equal. lia.
  - rewrite Z.min_r by lia.
    rewrite !firstn_all2; auto; rewrite length_skipn; lia.
Qed.

(** ** The run of [processMigration] *)

Module RunFacts.
Import Migrate.

#[local] Arguments log : simpl never.
#[local] Arguments startItem : simpl never.
#[local] Arguments settleItem : simpl never.
#[local] Arguments batchBody : simpl never.
#[local] Arguments finish : simpl never.

Lemma frame_refl (r : Run) : frame r r.
Proof. split; reflexivity. Qed.

Lemma frame_trans (a b c : Run) : frame a b -> frame b c -> frame a c.
Proof. intros [] []. split; congruence. Qed.

Lemma log_frame (W : World) (r : Run) (msg : string) (lvl : LogLevel)
    (id : option string) : frame r (log W r msg lvl id).
Proof. split; reflexivity. Qed.

Lemma log_moves (W : World) (r : Run) (msg : string) (lvl : LogLevel)
    (id : option string) : moves (log W r msg lvl id) = moves r.
Proof. reflexivity. Qed.

Lemma startItem_spec (W : World) (r : Run) (m : MailboxRow.t) :
  frame r (snd (startItem W r m)) /\
  moves (snd (startItem W r m)) = S (moves r) /\
  mailbox (fst (startItem W r m)) = m /\
  promise (fst (startItem W r m)) = mover W (moves r).
Proof. repeat split. Qed.

Lemma startAll_cons (W : World) (r : Run) (m : MailboxRow.t)
    (rest : list MailboxRow.t) :
  startAll W r (m :: rest) =
    let (p, r1) := startItem W r m in
    let (ps, r2) := startAll W r1 rest in (p :: ps, r2).
Proof. reflexivity. Qed.

Lemma startAll_spec (W : World) (batch : list MailboxRow.t) (r : Run) :
  frame r (snd (startAll W r batch)) /\
  moves (snd (startAll W r batch)) = (moves r + length batch)%nat /\
  Forall2 (fun p jm => mailbox p = snd jm /\ promise p = mover W (fst jm))
    (fst (startAll W r batch))
    (combine (seq (moves r) (length batch)) batch).
Proof.
  revert r. induction batch as [|m rest IH]; intros r.
  - simpl. split; [apply frame_refl|]. split; [lia | constructor].
  - rewrite startAll_cons.
    pose proof (startItem_spec W r m) as (F1 & M1 & B1 & P1).
    destruct (startItem W r m) as [p r1].
    specialize (IH r1).
    destruct (startAll W r1 rest) as [ps r2].
    simpl in *. destruct IH as (F2 & M2 & A2).
    split; [eapply frame_trans; eauto|].
    split; [lia|].
    constructor; [simpl; auto|].
    rewrite M1 in A2. exact A2.
Qed.

Lemma settleItem_spec (W : World) (r : Run) (p : Pending) :
  seen (settleItem W r p) = seen r /\
  batches (settleItem W r p) = batches r /\
  moves (settleItem W r p) = moves r /\
  exists out : MigrationResult.t,
    outcomeFor W p out /\
    session (settleItem W r p) =
      match promise p with
      | Fulfilled _ => sessionFulfilled (session r) out
      | Rejected _ => sessionRejected (session r) out
      end.
Proof.
  unfold settleItem, awaitSimulateMigration, outcomeFor.
  destruct (promise p) as [mv | e].
  - destruct (Move.success mv) eqn:Es; simpl.
    + unfold onFulfilled.
      match goal with |- context [Status_eqb ?a ?b] => destruct (Status_eqb a b) eqn:Eq end.
      * repeat split. eexists. split; [do 3 eexists; reflexivity|].
        unfold sessionFulfilled. simpl. rewrite Eq. reflexivity.
      * repeat split. eexists. split; [do 3 eexists; reflexivity|].
        unfold sessionFulfilled. simpl. rewrite Eq. reflexivity.
    + unfold onFulfilled.
      match goal with |- context [Status_eqb ?a ?b] => destruct (Status_eqb a b) eqn:Eq end.
      * repeat split. eexists. split; [do 3 eexists; reflexivity|].
        unfold sessionFulfilled. simpl. rewrite Eq. reflexivity.
      * repeat split. eexists. split; [do 3 eexists; reflexivity|].
        unfold sessionFulfilled. simpl. rewrite Eq. reflexivity.
  - simpl. repeat split. eexists. split; [do 2 eexists; reflexivity|].
    reflexivity.
Qed.


Lemma results_fulfilled (s : MigrationSession.t) (out : MigrationResult.t) :
  MigrationSession.migrationResults (sessionFulfilled s out)
    = MigrationSession.migrationResults s ++ [out].
Proof.
  unfold sessionFulfilled.
  destruct (Status_eqb (MigrationResult.Status out) StCompleted); reflexivity.
Qed.

Lemma results_rejected (s : MigrationSession.t) (out : MigrationResult.t) :
  MigrationSession.migrationResults (sessionRejected s out)
    = MigrationSession.migrationResults s ++ [out].
Proof. reflexivity. Qed.

Lemma settleItem_results (W : World) (r : Run) (p : Pending) :
  exists out : MigrationResult.t,
    outcomeFor W p out /\
    MigrationSession.migrationResults (session (settleItem W r p))
      = MigrationSession.migrationResults (session r) ++ [out].
Proof.
  destruct (settleItem_spec W r p) as (_ & _ & _ & out & Hout & Hs).
  exists out. split; [exact Hout|]. rewrite Hs.
  destruct (promise p); [apply results_fulfilled | apply results_rejected].
Qed.

Lemma settleItem_reachable (W : World) (r : Run) (p : Pending) :
  reachable W (session r) -> reachable W (session (settleItem W r p)).
Proof.
  intros Hr.
  destruct (settleItem_spec W r p) as (_ & _ & _ & out & Hout & Hs).
  rewrite Hs. unfold outcomeFor in Hout.
  destruct (promise p) as [mv | e].
  - destruct Hout as (t2 & r1 & r2 & ->). now apply reach_fulfilled.
  - destruct Hout as (t1 & t2 & ->). now apply reach_rejected.
Qed.

Lemma yield_inv (W : World) (r : Run) : RunInv W r -> RunInv W (yield r).
Proof.
  intros [Hseen Hs]. split; simpl; [|exact Hs].
  apply Forall_app. split; [exact Hseen | repeat constructor; exact Hs].
Qed.

Lemma frame_inv (W : World) (r r' : Run) : frame r r' -> RunInv W r -> RunInv W r'.
Proof. intros [Fs Fn _] [Hseen Hs]. split; [rewrite Fn | rewrite Fs]; assumption. Qed.

Lemma settleItem_inv (W : World) (r : Run) (p : Pending) :
  RunInv W r -> RunInv W (settleItem W r p).
Proof.
  intros [Hseen Hs]. split; [|now apply settleItem_reachable].
  destruct (settleItem_spec W r p) as (-> & _). exact Hseen.
Qed.

Lemma settleAll_spec (W : World) (pend : list Pending) (order : list nat) (r : Run) :
  batches (settleAll W r pend order) = batches r /\
  moves (settleAll W r pend order) = moves r /\
  (RunInv W r -> RunInv W (settleAll W r pend order)) /\
  exists outs : list MigrationResult.t,
    Forall2 (outcomeFor W) (settled pend order) outs /\
    MigrationSession.migrationResults (session (settleAll W r pend order))
      = MigrationSession.migrationResults (session r) ++ outs.
Proof.
  revert r. induction order as [|pos rest IH]; intros r.
  - simpl. split; [reflexivity|]. split; [reflexivity|]. split; [auto|].
    exists []. split; [constructor|]. now rewrite app_nil_r.
  - simpl. unfold settled. simpl. fold (settled pend rest).
    destruct (pend !! pos) as [p|].
    + destruct (IH (yield (settleItem W r p))) as (Hb & Hm & Hi & outs & Hf & Hres).
      destruct (settleItem_spec W r p) as (_ & Hb1 & Hm1 & _).
      destruct (settleItem_results W r p) as (out & Hout & Hres1).
      split; [rewrite Hb; simpl; exact Hb1|].
      split; [rewrite Hm; simpl; exact Hm1|].
      split; [intros Hr; apply Hi, yield_inv, settleItem_inv, Hr|].
      exists (out :: outs). split; [constructor; assumption|].
      rewrite Hres. simpl session. rewrite Hres1, <- app_assoc. reflexivity.
    + apply IH.
Qed.

Lemma settled_seq (pend skipped : list Pending) :
  settled (skipped ++ pend) (seq (length skipped) (length pend)) = pend.
Proof.
  revert skipped. induction pend as [|p pend IH]; intros skipped; [reflexivity|].
  simpl. unfold settled. simpl. fold (settled (skipped ++ p :: pend)).
  rewrite (lookup_app_r skipped) by lia.
  rewrite Nat.sub_diag. simpl. f_equal.
  specialize (IH (skipped ++ [p])).
  rewrite <- app_assoc, length_app in IH. simpl in IH.
  rewrite Nat.add_1_r in IH. exact IH.
Qed.

Lemma settled_fair (pend : list Pending) (order : list nat) :
  Permutation order (seq 0 (length pend)) -> Permutation (settled pend order) pend.
Proof.
  intros Hperm.
  rewrite <- (settled_seq pend []) at 2. simpl.
  unfold settled. apply Permutation_flat_map. exact Hperm.
Qed.


Lemma outcome_started (W : World) (pend : list Pending)
    (items : list (nat * MailboxRow.t)) (outs : list MigrationResult.t) :
  Forall2 (fun p jm => mailbox p = snd jm /\ promise p = mover W (fst jm))
    pend items ->
  Forall2 (outcomeFor W) pend outs ->
  Forall2 (fun out jm => outcomeOf W (fst jm) (snd jm) out) outs items.
Proof.
  intros H. revert outs. induction H as [|p jm pend items [Hm Hp] _ IH];
    intros outs Hout; inversion Hout; subst; constructor.
  - match goal with H : outcomeFor W p _ |- _ => rename H into Hf end.
    unfold outcomeFor in Hf. unfold outcomeOf. rewrite <- Hp, <- Hm.
    destruct (promise p) as [mv | e].
    + destruct Hf as (t2 & r1 & r2 & ->). now exists (startTime p), t2, r1, r2.
    + exact Hf.
  - now apply IH.
Qed.

Lemma batchBody_spec (W : World) (l : list MailboxRow.t) (B : Z) (k : nat)
    (i : Z) (r : Run) :
  let batch := JS.slice l i (i + B) in
  let r' := batchBody W l B k i r in
  batches r' = batches r ++ [batch] /\
  moves r' = (moves r + length batch)%nat /\
  (RunInv W r -> RunInv W r') /\
  (Permutation (schedule W k (length batch)) (seq 0 (length batch)) ->
   batchOutcomes W r r' batch).
Proof.
  cbv zeta. unfold batchBody, batchStart.
  set (batch := JS.slice l i (i + B)).
  set (r1 := log W (cut r batch) _ _ _).
  assert (F1 : session r1 = session r /\ seen r1 = seen r /\
               batches r1 = batches r ++ [batch] /\ moves r1 = moves r)
    by (repeat split).
  destruct F1 as (S1 & N1 & B1 & M1).
  pose proof (startAll_spec W batch r1) as (F2 & M2 & A2).
  destruct (startAll W r1 batch) as [pend r2]. simpl in F2, M2, A2.
  destruct F2 as [S2 N2 B2].
  assert (Hlen : length pend = length batch).
  { apply Forall2_length in A2. rewrite A2, length_combine, length_seq. lia. }
  destruct (settleAll_spec W pend (schedule W k (length pend)) (yield r2))
    as (B3 & M3 & I3 & outs & Hf & Hres).
  set (r3 := settleAll W (yield r2) pend (schedule W k (length pend))) in *.
  set (r4 := log W r3 _ _ _).
  assert (F4 : frame r3 r4) by apply log_frame.
  assert (M4 : moves r4 = moves r3) by reflexivity.
  assert (Hfinal : forall rf, session rf = session r4 ->
            batches rf = batches r4 -> moves rf = moves r4 ->
            (RunInv W r4 -> RunInv W rf) ->
            batches rf = batches r ++ [batch] /\
            moves rf = (moves r + length batch)%nat /\
            (RunInv W r -> RunInv W rf) /\
            (Permutation (schedule W k (length batch)) (seq 0 (length batch)) ->
             batchOutcomes W r rf batch)).
  { intros rf Sf Bf Mf If.
    destruct F4 as [S4 N4 B4].
    split; [rewrite Bf, B4, B3; simpl; congruence|].
    split; [rewrite Mf, M4, M3; simpl; lia|].
    split.
    - intros Hr. apply If. apply (frame_inv W r3); [split; assumption|].
      apply I3, yield_inv. destruct Hr as [Hseen Hs].
      split; [rewrite N2, N1 | rewrite S2, S1]; assumption.
    - intros Hfair. rewrite <- Hlen in Hfair.
      apply settled_fair in Hfair.
      destruct (Permutation_Forall2 Hfair Hf) as (sorted & Hperm & Hsorted).
      exists outs, sorted. split; [|split; [exact Hperm|]].
      + rewrite Sf, S4, Hres. simpl. now rewrite S2, S1.
      + rewrite <- M1. eapply outcome_started; eassumption. }
  destruct (i + B <? Z.of_nat (length l)).
  - apply Hfinal; try reflexivity.
    intros Hr. apply yield_inv. exact Hr.
  - apply Hfinal; auto.
Qed.

Lemma batchLoop_inv (W : World) (l : list MailboxRow.t) (B : Z) (fuel : nat) :
  forall (k : nat) (i : Z) (r : Run),
    RunInv W r -> RunInv W (fst (batchLoop W fuel l B k i r)).
Proof.
  induction fuel as [|fuel IH]; intros k i r Hr; simpl; [exact Hr|].
  destruct (i <? Z.of_nat (length l)); [|exact Hr].
  apply IH. now apply (batchBody_spec W l B k i r).
Qed.


Lemma combine_app {A B : Type} (a1 a2 : list A) (b1 b2 : list B) :
  length a1 = length b1 ->
  combine (a1 ++ a2) (b1 ++ b2) = combine a1 b1 ++ combine a2 b2.
Proof.
  revert b1. induction a1 as [|x a1 IH]; intros [|y b1] H; simpl in *;
    try discriminate; [reflexivity|].
  f_equal. apply IH. lia.
Qed.

Lemma batchOutcomes_nil (W : World) (r : Run) : batchOutcomes W r r [].
Proof.
  exists [], []. split; [now rewrite app_nil_r|]. split; constructor.
Qed.

Lemma batchOutcomes_app (W : World) (r r1 r' : Run) (a b : list MailboxRow.t) :
  moves r1 = (moves r + length a)%nat ->
  batchOutcomes W r r1 a -> batchOutcomes W r1 r' b ->
  batchOutcomes W r r' (a ++ b).
Proof.
  intros Hm (outs1 & sorted1 & Hres1 & Hp1 & Hf1) (outs2 & sorted2 & Hres2 & Hp2 & Hf2).
  exists (outs1 ++ outs2), (sorted1 ++ sorted2).
  split; [rewrite Hres2, Hres1, app_assoc; reflexivity|].
  split; [now apply Permutation_app|].
  rewrite length_app, seq_app, combine_app by now rewrite length_seq.
  apply Forall2_app; [exact Hf1|]. rewrite <- Hm. exact Hf2.
Qed.

Lemma batchLoop_complete (W : World) (l : list MailboxRow.t) (B : Z) (fuel : nat) :
  1 <= B ->
  forall (k : nat) (i : Z) (r : Run),
    0 <= i ->
    (length (skipn (Z.to_nat i) l) < fuel)%nat ->
    exists r' : Run,
      batchLoop W fuel l B k i r = (r', true) /\
      batches r' = batches r ++ chunks (Z.to_nat B) (skipn (Z.to_nat i) l) /\
      moves r' = (moves r + length (skipn (Z.to_nat i) l))%nat /\
      ((forall k n, Permutation (schedule W k n) (seq 0 n)) ->
       batchOutcomes W r r' (skipn (Z.to_nat i) l)).
Proof.
  intros HB. induction fuel as [|fuel IH]; intros k i r Hi Hfuel; [lia|].
  simpl. rewrite length_skipn in Hfuel.
  destruct (Z.ltb_spec i (Z.of_nat (length l))) as [Hlt | Hge].
  - pose proof (batchBody_spec W l B k i r) as (Hb & Hm & _ & Ho).
    rewrite (slice_batch l i B) in Hb, Hm, Ho by lia.
    set (rest := skipn (Z.to_nat i) l) in *.
    assert (Hrest : length rest = (length l - Z.to_nat i)%nat)
      by (unfold rest; apply length_skipn).
    assert (Hnext : skipn (Z.to_nat (i + B)) l = skipn (Z.to_nat B) rest).
    { unfold rest. rewrite skipn_skipn. f_equal. lia. }
    destruct (IH (S k) (i + B) (batchBody W l B k i r)) as (r' & E & Hb' & Hm' & Ho').
    { lia. }
    { rewrite Hnext, length_skipn. lia. }
    rewrite Hnext in Hb', Hm', Ho'.
    exists r'. split; [exact E|].
    destruct rest as [|x rest'] eqn:Er; [simpl in Hrest; lia|].
    split; [|split].
    + rewrite Hb', Hb, <- app_assoc. simpl. rewrite chunks_cons by lia. reflexivity.
    + rewrite Hm', Hm. rewrite length_firstn, length_skipn.
      rewrite length_firstn, length_skipn in *. lia.
    + intros Hfair.
      rewrite <- (firstn_skipn (Z.to_nat B) (x :: rest')).
      eapply batchOutcomes_app; [exact Hm | apply Ho, Hfair | apply Ho', Hfair].
  - exists r. split; [reflexivity|].
    rewrite skipn_all2 by lia. simpl.
    split; [now rewrite app_nil_r|]. split; [lia|].
    intros _. apply batchOutcomes_nil.
Qed.

(** With a batch size of zero the index never moves: on a non-empty
    input the loop condition never ends the loop. *)
Lemma batchLoop_zero_never_exits (W : World) (l : list MailboxRow.t) (fuel : nat) :
  l <> [] ->
  forall (k : nat) (r : Run), snd (batchLoop W fuel l 0 k 0 r) = false.
Proof.
  intros Hl. induction fuel as [|fuel IH]; intros k r; [reflexivity|].
  simpl. destruct (Z.ltb_spec 0 (Z.of_nat (length l))) as [_ | Hge].
  - apply IH.
  - destruct l; [contradiction | simpl in Hge; lia].
Qed.

Lemma finish_spec (W : World) (r : Run) :
  exists t : string,
    session (finish W r) = complete (session r) t /\
    seen (finish W r) = seen r ++ [complete (session r) t] /\
    batches (finish W r) = batches r.
Proof. eexists. repeat split. Qed.

Lemma finish_inv (W : World) (r : Run) : RunInv W r -> RunInv W (finish W r).
Proof.
  intros [Hseen Hs]. destruct (finish_spec W r) as (t & Hs' & Hn' & _).
  assert (reachable W (complete (session r) t)) by now apply reach_complete.
  split; [rewrite Hn' | rewrite Hs'; assumption].
  apply Forall_app. split; [assumption | now repeat constructor].
Qed.

Lemma processMigration_inv (W : World) (fuel : nat) (srv : Server) (now : nat)
    (sessionId : string) (l : list MailboxRow.t) (config : MigrationConfig.t)
    (logger : Utils.MigrationLogger) (r : Run) (done : bool) :
  (forall s, getSession srv sessionId = Some s -> reachable W s) ->
  processMigration W fuel srv now sessionId l config logger = Some (r, done) ->
  RunInv W r.
Proof.
  intros Hs. unfold processMigration.
  destruct (getSession srv sessionId) as [s|] eqn:E; [|discriminate].
  match goal with |- context [batchLoop W fuel l ?B ?k ?i ?r0] =>
    pose proof (batchLoop_inv W l B fuel k i r0) as Hinv;
    destruct (batchLoop W fuel l B k i r0) as [r1 exited] end.
  simpl in Hinv.
  assert (Hr1 : RunInv W r1).
  { apply Hinv. split; simpl; [constructor | now apply Hs]. }
  destruct exited; intros [= <- <-]; [now apply finish_inv | exact Hr1].
Qed.

Lemma POST_started (W : World) (fuel : nat) (srv : Server) (req : Request)
    (reply : Reply) (srv' : Server) (r : Run) (done : bool) :
  POST W fuel srv req = (reply, srv', Some (r, done)) ->
  exists (sid : string) (l : list MailboxRow.t) (stored : Server),
    sessionId req = Some sid /\ mailboxList req = Some l /\
    getSession stored sid = Some (newSession W sid l (config req) (clock W 0)) /\
    exists logger,
      processMigration W fuel stored 2 sid l (config req) logger = Some (r, done).
Proof.
  unfold POST.
  destruct (sessionId req) as [sid|]; [|discriminate].
  destruct (mailboxList req) as [l|]; [|discriminate].
  destruct (String.eqb sid EmptyString); [discriminate|].
  intros [= <- _ H]. exists sid, l. eexists.
  split; [reflexivity|]. split; [reflexivity|].
  split; [|eexists; exact H].
  unfold getSession. simpl. apply lookup_insert_eq.
Qed.

Lemma snapshots_reachable (W : World) (fuel : nat) (srv : Server) (req : Request)
    (s : MigrationSession.t) :
  In s (snapshots W fuel srv req) -> reachable W s.
Proof.
  unfold snapshots.
  destruct (POST W fuel srv req) as [[reply srv'] [[r done]|]] eqn:E; [|intros []].
  apply POST_started in E.
  destruct E as (sid & l & stored & _ & _ & Hget & logger & Hrun).
  apply processMigration_inv in Hrun.
  - destruct Hrun as [Hseen _]. intros Hin.
    rewrite Forall_forall in Hseen. apply Hseen.
    apply list_elem_of_In. exact Hin.
  - intros s' Hs'. rewrite Hget in Hs'. injection Hs' as <-. apply reach_new.
Qed.


Lemma POST_complete (W : World) (fuel : nat) (srv : Server) (sid : string)
    (l : list MailboxRow.t) (cfg : MigrationConfig.t) :
  sid <> EmptyString ->
  1 <= MigrationConfig.BatchSize cfg ->
  (length l < fuel)%nat ->
  exists (r : Run) (srv' : Server),
    POST W fuel srv
      {| sessionId := Some sid; mailboxList := Some l; config := cfg |}
      = (Started sid, srv', Some (r, true)) /\
    batches r = chunks (Z.to_nat (MigrationConfig.BatchSize cfg)) l /\
    MigrationSession.status (session r) = SCompleted /\
    ((forall k n, Permutation (schedule W k n) (seq 0 n)) ->
     exists sorted : list MigrationResult.t,
       Permutation (MigrationSession.migrationResults (session r)) sorted /\
       Forall2 (fun out jm => outcomeOf W (fst jm) (snd jm) out) sorted
         (combine (seq 0 (length l)) l)).
Proof.
  intros Hsid HB Hfuel. unfold POST. simpl.
  destruct (String.eqb_spec sid EmptyString) as [-> | _]; [congruence|].
  unfold processMigration, getSession. simpl.
  rewrite lookup_insert_eq.
  match goal with |- context [batchLoop W fuel l ?B ?k ?i ?r0] =>
    destruct (batchLoop_complete W l B fuel HB k i r0) as (r' & E & Hb & Hm & Ho);
    [lia | simpl; exact Hfuel | rewrite E] end.
  simpl in Hb, Hm, Ho.
  eexists _, _. split; [reflexivity|].
  destruct (finish_spec W r') as (t & Hs & _ & Hbf).
  split; [rewrite Hbf; exact Hb|].
  split; [rewrite Hs; reflexivity|].
  intros Hfair. destruct (Ho Hfair) as (outs & sorted & Hres & Hperm & Hf).
  simpl in Hres, Hf. exists sorted. split; [|exact Hf].
  rewrite Hs. simpl. rewrite Hres. exact Hperm.
Qed.

End RunFacts.

(** ** Statistics *)

Lemma calculateStats_snoc (l : list MigrationResult.t) (x : MigrationResult.t) :
  let a := Utils.calculateStats l in
  let b := Utils.calculateStats (l ++ [x]) in
  let ind (st : Status) : nat :=
    if Status_eqb (MigrationResult.Status x) st then 1%nat else 0%nat in
  MigrationStats.Total b = S (MigrationStats.Total a) /\
  MigrationStats.Successful b = (MigrationStats.Successful a + ind StCompleted)%nat /\
  MigrationStats.Failed b = (MigrationStats.Failed a + ind StFailed)%nat /\
  MigrationStats.InProgress b = (MigrationStats.InProgress a + ind StInProgress)%nat /\
  MigrationStats.Skipped b = MigrationStats.Skipped a.
Proof.
  cbv zeta. unfold Utils.calculateStats, Utils.hasStatus. simpl.
  rewrite !List.filter_app, !length_app. simpl.
  destruct (MigrationResult.Status x); simpl; lia.
Qed.

Lemma calculateStats_counted (l : list MigrationResult.t) :
  countedOutcomes (Utils.calculateStats l) = length l.
Proof.
  induction l as [|x l IH]; [reflexivity|].
  unfold countedOutcomes, Utils.calculateStats, Utils.hasStatus in *. simpl in *.
  destruct (MigrationResult.Status x); simpl; lia.
Qed.

Lemma simulateMigration_Status (W : World) (m : MailboxRow.t) (t1 t2 : Z)
    (mv : Move.t) (r1 r2 : Q) :
  MigrationResult.Status (Utils.simulateMigration W m t1 t2 mv r1 r2)
    = if Move.success mv then StCompleted else StFailed.
Proof. unfold Utils.simulateMigration. destruct (Move.success mv); reflexivity. Qed.

Lemma simulateMigration_terminal (W : World) (m : MailboxRow.t) (t1 t2 : Z)
    (mv : Move.t) (r1 r2 : Q) :
  terminal (Utils.simulateMigration W m t1 t2 mv r1 r2).
Proof.
  unfold terminal. rewrite simulateMigration_Status.
  destruct (Move.success mv); auto.
Qed.

Lemma terminal_none_in_progress (l : list MigrationResult.t) :
  Forall terminal l ->
  MigrationStats.InProgress (Utils.calculateStats l) = 0%nat.
Proof.
  induction 1 as [|x l Hx _ IH]; [reflexivity|].
  unfold Utils.calculateStats, Utils.hasStatus in *. simpl in *.
  destruct Hx as [-> | ->]; simpl; exact IH.
Qed.

(** ** Invariants of the reachable sessions *)

Lemma reachable_counted (W : World) (s : MigrationSession.t) :
  reachable W s ->
  countedOutcomes (MigrationSession.stats s)
    = length (MigrationSession.migrationResults s).
Proof.
  induction 1 as [sid l cfg t | s m t1 t2 mv r1 r2 _ IH | s m t1 t2 e _ IH | s t _ IH].
  - reflexivity.
  - unfold sessionFulfilled, Migrate.recomputeStats. simpl.
    apply calculateStats_counted.
  - unfold sessionRejected, countedOutcomes in *. simpl.
    rewrite length_app. simpl. lia.
  - exact IH.
Qed.

Lemma reachable_same_counters (W : World) (s : MigrationSession.t) :
  reachable W s ->
  sameCounters (MigrationSession.stats s)
    (Utils.calculateStats (MigrationSession.migrationResults s)).
Proof.
  induction 1 as [sid l cfg t | s m t1 t2 mv r1 r2 _ IH | s m t1 t2 e _ IH | s t _ IH].
  - repeat split.
  - unfold sessionFulfilled, Migrate.recomputeStats. simpl. repeat split.
  - unfold sessionRejected. simpl.
    pose proof (calculateStats_snoc (MigrationSession.migrationResults s)
                  (Migrate.failedResult W m t1 t2 e)) as (_ & Hs & Hf & Hi & Hk).
    simpl in Hs, Hf, Hi, Hk.
    destruct IH as (I1 & I2 & I3 & I4).
    simpl in I1, I2, I3, I4.
    unfold sameCounters. simpl. repeat split; lia.
  - exact IH.
Qed.

Lemma reachable_terminal (W : World) (s : MigrationSession.t) :
  reachable W s ->
  Forall terminal (MigrationSession.migrationResults s).
Proof.
  induction 1 as [sid l cfg t | s m t1 t2 mv r1 r2 _ IH | s m t1 t2 e _ IH | s t _ IH].
  - constructor.
  - rewrite RunFacts.results_fulfilled. apply Forall_app. split; [exact IH|].
    constructor; [|constructor]. apply simulateMigration_terminal.
  - rewrite RunFacts.results_rejected. apply Forall_app. split; [exact IH|].
    constructor; [|constructor]. right. reflexivity.
  - exact IH.
Qed.

(** ** The progress stream *)

Lemma tick_progress_payload (srv : Migrate.Server) (sid : string)
    (s : MigrationSession.t) (st : MigrationStats.t) (status : SessionStatus)
    (results : list MigrationResult.t) :
  Migrate.getSession srv sid = Some s ->
  In (Progress.ProgressEvent st status results)
     (Progress.sent (Progress.tick srv sid Progress.start)) ->
  st = MigrationSession.stats s /\
  status = MigrationSession.status s /\
  results = MigrationSession.migrationResults s.
Proof.
  intros Hs. unfold Progress.tick. simpl. rewrite Hs.
  destruct (Migrate.getSessionLogger srv sid) as [logger|]; simpl.
  - destruct (last (Utils.getLogs logger));
      destruct (Progress.isTerminal (MigrationSession.status s)); simpl;
      intuition (try discriminate);
      match goal with H : Progress.ProgressEvent _ _ _ = _ |- _ =>
        injection H; intros; subst; reflexivity end.
  - intuition discriminate.
Qed.

(** ** Session invariants, as seen by a progress tick *)

(** C1. At every instant at which another callback can look at a session,
    and so in every [progress] event that a tick of the Progress Notifier
    sends, [stats.Successful + stats.Failed + stats.InProgress] equals
    [migrationResults.length]. *)
Theorem stats_sum_is_outcome_count (W : World) (fuel : nat)
    (srv : Migrate.Server) (req : Migrate.Request) (s : MigrationSession.t) :
  In s (Migrate.snapshots W fuel srv req) ->
  countedOutcomes (MigrationSession.stats s)
    = length (MigrationSession.migrationResults s) /\
  forall (srv' : Migrate.Server) (sid : string) (st : MigrationStats.t)
         (status : SessionStatus) (results : list MigrationResult.t),
    Migrate.getSession srv' sid = Some s ->
    In (Progress.ProgressEvent st status results)
       (Progress.sent (Progress.tick srv' sid Progress.start)) ->
    countedOutcomes st = length results.
Proof.
  intros Hs. apply RunFacts.snapshots_reachable in Hs.
  pose proof (reachable_counted W s Hs) as Hsum.
  split; [exact Hsum|].
  intros srv' sid st status results Hget Hev.
  destruct (tick_progress_payload srv' sid s st status results Hget Hev)
    as (-> & _ & ->).
  exact Hsum.
Qed.

Lemma stats_sum_is_outcome_count_witness :
  In Sample.final Sample.run /\
  countedOutcomes (MigrationSession.stats Sample.final)
    = length (MigrationSession.migrationResults Sample.final).
Proof.
  assert (H : In Sample.final
                (Migrate.snapshots Sample.world 5 Sample.server
                   (Sample.request 2 Sample.rows))).
  { vm_compute. do 6 right. left. reflexivity. }
  split; [exact H|].
  exact (proj1 (stats_sum_is_outcome_count Sample.world 5 Sample.server
                  (Sample.request 2 Sample.rows) Sample.final H)).
Defined.

(** C3, as the claim states it, fails: the session that [POST] creates
    for three mailboxes has [stats.Total = 3], while
    [calculateStats([])] has [Total = 0]. *)
Lemma stats_not_recomputed_at_creation :
  ~ (forall (W : World) (fuel : nat) (srv : Migrate.Server)
            (req : Migrate.Request) (s : MigrationSession.t),
       In s (Migrate.snapshots W fuel srv req) ->
       MigrationSession.stats s
         = Utils.calculateStats (MigrationSession.migrationResults s)).
Proof.
  intros H.
  specialize (H Sample.world 5%nat Sample.server
                (Sample.request 2 Sample.rows) Sample.created).
  assert (Hin : In Sample.created
                  (Migrate.snapshots Sample.world 5 Sample.server
                     (Sample.request 2 Sample.rows))).
  { vm_compute. left. reflexivity. }
  specialize (H Hin). vm_compute in H. discriminate H.
Qed.

(** C3, amended. In every state of a session that another callback can
    see, the [Successful], [Failed], [InProgress] and [Skipped] fields of
    [stats] equal those of [calculateStats(migrationResults)]. The whole
    of [stats] is recomputed from the outcome list after each item that
    completes without raising; when the session is created, [Total] is
    set to [mailboxList.length]. *)
Theorem stats_counters_follow_outcomes (W : World) (fuel : nat)
    (srv : Migrate.Server) (req : Migrate.Request) (s : MigrationSession.t) :
  In s (Migrate.snapshots W fuel srv req) ->
  sameCounters (MigrationSession.stats s)
    (Utils.calculateStats (MigrationSession.migrationResults s)) /\
  (forall result : MigrationResult.t,
     MigrationSession.stats (sessionFulfilled s result)
       = Utils.calculateStats
           (MigrationSession.migrationResults (sessionFulfilled s result))) /\
  forall (sid : string) (l : list MailboxRow.t) (cfg : MigrationConfig.t) (t : Z),
    MigrationStats.Total
      (MigrationSession.stats (Migrate.newSession W sid l cfg t)) = length l.
Proof.
  intros Hs. split; [|split; [|reflexivity]].
  - apply reachable_same_counters with (W := W).
    exact (RunFacts.snapshots_reachable W fuel srv req s Hs).
  - intros result. unfold sessionFulfilled, Migrate.recomputeStats. reflexivity.
Qed.

Lemma stats_counters_follow_outcomes_witness :
  In Sample.final Sample.run /\
  sameCounters (MigrationSession.stats Sample.final)
    (Utils.calculateStats (MigrationSession.migrationResults Sample.final)).
Proof.
  assert (H : In Sample.final
                (Migrate.snapshots Sample.world 5 Sample.server
                   (Sample.request 2 Sample.rows))).
  { vm_compute. do 6 right. left. reflexivity. }
  split; [exact H|].
  exact (proj1 (stats_counters_follow_outcomes Sample.world 5 Sample.server
                  (Sample.request 2 Sample.rows) Sample.final H)).
Defined.

(** C10. Every outcome stored in a session is [Completed] or [Failed]:
    nothing with status [In Progress] is ever appended, so the recomputed
    stats, and the stored ones, have [InProgress = 0]. *)
Theorem stored_outcomes_are_terminal (W : World) (fuel : nat)
    (srv : Migrate.Server) (req : Migrate.Request) (s : MigrationSession.t) :
  In s (Migrate.snapshots W fuel srv req) ->
  Forall terminal (MigrationSession.migrationResults s) /\
  MigrationStats.InProgress
    (Utils.calculateStats (MigrationSession.migrationResults s)) = 0%nat /\
  MigrationStats.InProgress (MigrationSession.stats s) = 0%nat.
Proof.
  intros Hs. apply RunFacts.snapshots_reachable in Hs.
  pose proof (reachable_terminal W s Hs) as Ht.
  pose proof (terminal_none_in_progress _ Ht) as H0.
  destruct (reachable_same_counters W s Hs) as (_ & _ & Hi & _).
  split; [exact Ht|]. split; [exact H0|]. now rewrite Hi.
Qed.

Lemma stored_outcomes_are_terminal_witness :
  In Sample.final Sample.run /\
  Forall terminal (MigrationSession.migrationResults Sample.final).
Proof.
  assert (H : In Sample.final
                (Migrate.snapshots Sample.world 5 Sample.server
                   (Sample.request 2 Sample.rows))).
  { vm_compute. do 6 right. left. reflexivity. }
  split; [exact H|].
  exact (proj1 (stored_outcomes_are_terminal Sample.world 5 Sample.server
                  (Sample.request 2 Sample.rows) Sample.final H)).
Defined.

(** ** Batches *)

Lemma ceilDiv_spec (n b : Z) : 0 <= n -> 1 <= b -> (n + b - 1) / b = ceilDiv n b.
Proof.
  intros Hn Hb. unfold ceilDiv.
  pose proof (Z.div_mod n b ltac:(lia)) as Hdm.
  pose proof (Z.mod_pos_bound n b ltac:(lia)) as Hm.
  destruct (Z.eqb_spec (n mod b) 0) as [E | E].
  - symmetry. apply Z.div_unique with (r := b - 1); lia.
  - symmetry. apply Z.div_unique with (r := n mod b - 1); lia.
Qed.

(** C2, as the claim states it, fails: a request for 51 mailboxes with
    [BatchSize = 51] is processed as one batch of 51, not as the two
    batches (50 and 1) that a batch size clamped to [1,50] would give. *)
Lemma batch_size_not_clamped :
  ~ (forall (W : World) (fuel : nat) (srv : Migrate.Server) (sid : string)
            (l : list MailboxRow.t) (cfg : MigrationConfig.t),
       sid <> EmptyString ->
       (length l < fuel)%nat ->
       exists (r : Migrate.Run) (srv' : Migrate.Server),
         Migrate.POST W fuel srv
           {| Migrate.sessionId := Some sid; Migrate.mailboxList := Some l;
              Migrate.config := cfg |}
           = (Migrate.Started sid, srv', Some (r, true)) /\
         Migrate.batches r
           = chunks (Z.to_nat (clamped (MigrationConfig.BatchSize cfg))) l).
Proof.
  intros H.
  set (l := repeat (Sample.row "ann") 51).
  set (cfg := MigrationConfig.mk 51 false false ".").
  assert (Hsid : "session-1"%string <> EmptyString) by discriminate.
  assert (Hfuel : (length l < 60)%nat) by (vm_compute; lia).
  destruct (H Sample.world 60%nat Sample.server "session-1"%string l cfg Hsid Hfuel)
    as (r & srv' & E & Hb).
  destruct (RunFacts.POST_complete Sample.world 60 Sample.server
              "session-1" l cfg Hsid ltac:(simpl; lia) Hfuel)
    as (r' & srv'' & E' & Hb' & _).
  rewrite E in E'. injection E' as _ <-.
  rewrite Hb in Hb'. apply (f_equal (@length _)) in Hb'.
  vm_compute in Hb'. discriminate Hb'.
Qed.

(** C2, amended. [processMigration] uses [config.BatchSize] as it is
    given, without clamping. For every batch size [B >= 1] and every
    input of [N] records the loop ends, and the batches it cut are
    consecutive records of the input, [ceil(N/B)] in number, each of
    size [B] except the last, which has size [N mod B], or [B] when [B]
    divides [N]. *)
Theorem batches_partition_input (W : World) (fuel : nat)
    (srv : Migrate.Server) (sid : string) (l : list MailboxRow.t)
    (cfg : MigrationConfig.t) :
  sid <> EmptyString ->
  1 <= MigrationConfig.BatchSize cfg ->
  (length l < fuel)%nat ->
  let B := MigrationConfig.BatchSize cfg in
  let N := Z.of_nat (length l) in
  exists (r : Migrate.Run) (srv' : Migrate.Server),
    Migrate.POST W fuel srv
      {| Migrate.sessionId := Some sid; Migrate.mailboxList := Some l;
         Migrate.config := cfg |}
      = (Migrate.Started sid, srv', Some (r, true)) /\
    concat (Migrate.batches r) = l /\
    Z.of_nat (length (Migrate.batches r)) = ceilDiv N B /\
    (forall (j : nat) (batch : list MailboxRow.t),
       Migrate.batches r !! j = Some batch ->
       (j + 1 < length (Migrate.batches r))%nat ->
       Z.of_nat (length batch) = B) /\
    (forall batch : list MailboxRow.t,
       last (Migrate.batches r) = Some batch ->
       Z.of_nat (length batch) = if N mod B =? 0 then B else N mod B).
Proof.
  intros Hsid HB Hfuel B N.
  destruct (RunFacts.POST_complete W fuel srv sid l cfg Hsid HB Hfuel)
    as (r & srv' & E & Hb & _).
  exists r, srv'. split; [exact E|]. rewrite Hb. fold B.
  assert (Hsize : (1 <= Z.to_nat B)%nat) by lia.
  assert (HBnat : Z.of_nat (Z.to_nat B) = B) by lia.
  split; [apply concat_chunks; exact Hsize|].
  split.
  { rewrite length_chunks by exact Hsize. rewrite HBnat.
    apply ceilDiv_spec; unfold N; lia. }
  split.
  - intros j batch Hj Hlen.
    rewrite (chunks_full _ l j batch Hsize Hj Hlen). exact HBnat.
  - intros batch Hlast.
    rewrite (chunks_last _ l batch Hsize Hlast). rewrite HBnat. reflexivity.
Qed.

Lemma batches_partition_input_witness :
  "session-1"%string <> EmptyString /\ 1 <= 2 /\ (length Sample.rows < 5)%nat /\
  exists (r : Migrate.Run) (srv' : Migrate.Server),
    Migrate.POST Sample.world 5 Sample.server (Sample.request 2 Sample.rows)
      = (Migrate.Started "session-1", srv', Some (r, true)) /\
    concat (Migrate.batches r) = Sample.rows /\
    Z.of_nat (length (Migrate.batches r)) = 2.
Proof.
  assert (H1 : "session-1"%string <> EmptyString) by discriminate.
  assert (H2 : 1 <= 2) by lia.
  assert (H3 : (length Sample.rows < 5)%nat) by (simpl; lia).
  split; [exact H1|]. split; [exact H2|]. split; [exact H3|].
  destruct (batches_partition_input Sample.world 5 Sample.server "session-1"
              Sample.rows (MigrationConfig.mk 2 false false ".") H1 H2 H3)
    as (r & srv' & E & Hc & Hn & _).
  exists r, srv'. split; [exact E|]. split; [exact Hc|]. exact Hn.
Defined.

(** ** Isolation of failures *)

Lemma combine_seq_lookup {A : Type} (l : list A) (a i : nat) (x : A) :
  l !! i = Some x -> combine (seq a (length l)) l !! i = Some ((a + i)%nat, x).
Proof.
  revert a i. induction l as [|y l IH]; intros a i H; [discriminate|].
  destruct i as [|i]; simpl in *.
  - injection H as ->. f_equal. f_equal. lia.
  - rewrite (IH (S a) i H). f_equal. f_equal. lia.
Qed.

Lemma failedResult_fields (W : World) (m : MailboxRow.t) (t1 t2 : Z) (e : Thrown) :
  let out := Migrate.failedResult W m t1 t2 e in
  MigrationResult.SourceEmail out = MailboxRow.SourceEmail m /\
  MigrationResult.TargetEmail out = MailboxRow.TargetEmail m /\
  MigrationResult.DisplayName out = MailboxRow.DisplayName m /\
  MigrationResult.Status out = StFailed /\
  MigrationResult.ErrorMessage out = Migrate.thrownMessage e.
Proof. repeat split. Qed.

(** C4. Whatever the mover throws for an item, the run goes on: with
    batches settling in any order, every mailbox of the input gets
    exactly one outcome and the session ends [completed]; the outcome of
    an item whose move threw is the [Failed] record of the [catch] block,
    carrying the message of the thrown [Error], and the outcome of every
    other item is what [simulateMigration] returned for it. *)
Theorem item_failure_is_isolated (W : World) (fuel : nat)
    (srv : Migrate.Server) (sid : string) (l : list MailboxRow.t)
    (cfg : MigrationConfig.t) :
  sid <> EmptyString ->
  1 <= MigrationConfig.BatchSize cfg ->
  (length l < fuel)%nat ->
  (forall k n : nat, Permutation (schedule W k n) (seq 0 n)) ->
  exists (r : Migrate.Run) (srv' : Migrate.Server)
         (sorted : list MigrationResult.t),
    Migrate.POST W fuel srv
      {| Migrate.sessionId := Some sid; Migrate.mailboxList := Some l;
         Migrate.config := cfg |}
      = (Migrate.Started sid, srv', Some (r, true)) /\
    MigrationSession.status (Migrate.session r) = SCompleted /\
    Permutation (MigrationSession.migrationResults (Migrate.session r)) sorted /\
    Forall2 (fun out jm => outcomeOf W (fst jm) (snd jm) out) sorted
      (combine (seq 0 (length l)) l) /\
    forall (i : nat) (m : MailboxRow.t) (message : string),
      l !! i = Some m ->
      mover W i = Rejected (ErrorObject message) ->
      exists out : MigrationResult.t,
        sorted !! i = Some out /\
        In out (MigrationSession.migrationResults (Migrate.session r)) /\
        MigrationResult.SourceEmail out = MailboxRow.SourceEmail m /\
        MigrationResult.Status out = StFailed /\
        MigrationResult.ErrorMessage out = message.
Proof.
  intros Hsid HB Hfuel Hfair.
  destruct (RunFacts.POST_complete W fuel srv sid l cfg Hsid HB Hfuel)
    as (r & srv' & E & _ & Hst & Ho).
  destruct (Ho Hfair) as (sorted & Hperm & Hf).
  exists r, srv', sorted. repeat (split; [assumption|]).
  intros i m message Hi Hmv.
  pose proof (combine_seq_lookup l 0 i m Hi) as Hc. simpl in Hc.
  destruct (Forall2_lookup_r _ _ _ _ _ Hf Hc) as (out & Hout & Hoc).
  simpl in Hoc. unfold outcomeOf in Hoc. rewrite Hmv in Hoc.
  destruct Hoc as (t1 & t2 & ->).
  eexists. split; [exact Hout|].
  split; [|repeat split].
  apply Permutation_in with (l := sorted); [symmetry; exact Hperm|].
  apply list_elem_of_In, list_elem_of_lookup. eauto.
Qed.

Lemma item_failure_is_isolated_witness :
  exists (r : Migrate.Run) (out : MigrationResult.t),
    MigrationSession.status (Migrate.session r) = SCompleted /\
    length (MigrationSession.migrationResults (Migrate.session r)) = 3%nat /\
    In out (MigrationSession.migrationResults (Migrate.session r)) /\
    MigrationResult.SourceEmail out = "bob@old.example"%string /\
    MigrationResult.Status out = StFailed /\
    MigrationResult.ErrorMessage out = "mailbox locked"%string.
Proof.
  destruct (item_failure_is_isolated Sample.world 5 Sample.server "session-1"
              Sample.rows (MigrationConfig.mk 2 false false "."))
    as (r & srv' & sorted & E & Hst & Hperm & Hf & Hrej).
  - discriminate.
  - simpl. lia.
  - simpl. lia.
  - intros k n. simpl. symmetry. apply Permutation_rev.
  - destruct (Hrej 1%nat (Sample.row "bob") "mailbox locked"%string)
      as (out & _ & Hin & Hsrc & Hs & Hmsg); [reflexivity | reflexivity |].
    exists r, out. split; [exact Hst|].
    split.
    { rewrite (Permutation_length Hperm). apply Forall2_length in Hf.
      rewrite Hf. reflexivity. }
    repeat (split; [assumption|]). exact Hmsg.
Defined.

(** ** The progress stream of an unknown session *)

Lemma step_after_close (sid : string) (s : Progress.Stream) (i : Progress.Input) :
  Progress.interval s = false -> Progress.closed s = true ->
  Progress.step sid s i = s.
Proof.
  intros Hi Hc. destruct i as [srv|]; simpl.
  - unfold Progress.tick. now rewrite Hi.
  - unfold Progress.abort. now rewrite Hc.
Qed.

Lemma run_after_close (sid : string) (inputs : list Progress.Input)
    (s : Progress.Stream) :
  Progress.interval s = false -> Progress.closed s = true ->
  fold_left (Progress.step sid) inputs s = s.
Proof.
  intros Hi Hc. induction inputs as [|i inputs IH]; [reflexivity|].
  simpl. rewrite step_after_close by assumption. exact IH.
Qed.

(** C5. A progress request for a session that is not in the map when the
    timer first fires gets the acknowledgment and then exactly one
    [error] event; that tick closes the stream and clears the timer, so
    whatever happens afterwards no [progress] and no [complete] event is
    ever sent. *)
Theorem unknown_session_ends_stream (srv : Migrate.Server) (sid : string)
    (later : list Progress.Input) :
  sid <> EmptyString ->
  Migrate.getSession srv sid = None ->
  Progress.GET (Some sid) = Progress.EventStream Progress.start /\
  let s := Progress.run sid (Progress.Tick srv :: later) in
  Progress.sent s
    = [Progress.Connected; Progress.ErrorEvent "Session not found"] /\
  Progress.closed s = true /\
  Progress.interval s = false /\
  List.filter Progress.isError (Progress.sent s)
    = [Progress.ErrorEvent "Session not found"] /\
  List.filter Progress.isProgress (Progress.sent s) = [] /\
  List.filter Progress.isComplete (Progress.sent s) = [].
Proof.
  intros Hsid Hnone. split.
  - unfold Progress.GET.
    destruct (String.eqb_spec sid EmptyString); [contradiction | reflexivity].
  - cbv zeta. unfold Progress.run. simpl fold_left.
    assert (Htick : Progress.tick srv sid Progress.start
                    = {| Progress.sent :=
                           [Progress.Connected;
                            Progress.ErrorEvent "Session not found"];
                         Progress.interval := false;
                         Progress.closed := true |}).
    { unfold Progress.tick. simpl. rewrite Hnone. reflexivity. }
    rewrite Htick, run_after_close by reflexivity.
    repeat split.
Qed.

Lemma unknown_session_ends_stream_witness :
  "nobody"%string <> EmptyString /\
  Migrate.getSession Sample.server "nobody" = None /\
  Progress.sent
    (Progress.run "nobody"
       [Progress.Tick Sample.server; Progress.Tick Sample.server; Progress.Abort])
    = [Progress.Connected; Progress.ErrorEvent "Session not found"].
Proof.
  assert (H1 : "nobody"%string <> EmptyString) by discriminate.
  assert (H2 : Migrate.getSession Sample.server "nobody" = None) by reflexivity.
  split; [exact H1|]. split; [exact H2|].
  exact (proj1 (proj2 (unknown_session_ends_stream Sample.server "nobody"
                         [Progress.Tick Sample.server; Progress.Abort] H1 H2))).
Defined.

(** ** The policy of the validator *)

(** C6. [validateMailbox] answers [Failed] when the source does not
    exist or the target address does not match the pattern, and then
    never reports the size issue; otherwise it answers [Warning] exactly
    when the source size exceeds 10000 MB, and [Passed] otherwise. *)
Theorem validate_policy (W : World) (l : Lookup.t) (m : MailboxRow.t) :
  let v := Utils.validateMailbox W l m in
  let size := JS.orZero (Lookup.size l) in
  let wellFormed := JS.test Utils.emailRegex (MailboxRow.TargetEmail m) in
  (Lookup.exists_ l = false \/ wellFormed = false ->
     ValidationResult.ValidationStatus v = VFailed /\
     ~ In largeMailboxIssue (ValidationResult.ValidationIssues v)) /\
  (Lookup.exists_ l = true /\ wellFormed = true ->
     (ValidationResult.ValidationStatus v = Warning <-> (10000 < size)%Q) /\
     (ValidationResult.ValidationStatus v = Passed <-> ~ (10000 < size)%Q)).
Proof.
  cbv zeta. split.
  - intros H.
    assert (Hcase : Lookup.exists_ l = false \/
                    (Lookup.exists_ l = true /\
                     JS.test Utils.emailRegex (MailboxRow.TargetEmail m) = false)).
    { destruct (Lookup.exists_ l); [right | left; reflexivity].
      destruct H as [H | H]; [discriminate | auto]. }
    destruct Hcase as [H0 | [H1 H2]].
    + destruct (validate_missing W l m H0) as [-> ->]. split; [reflexivity|].
      simpl. intros [E | []]. discriminate E.
    + destruct (validate_malformed W l m H1 H2) as [-> ->]. split; [reflexivity|].
      simpl. intros [E | []]. discriminate E.
  - intros [H1 H2]. destruct (validate_sized W l m H1 H2) as [-> _].
    destruct (JS.gt (JS.orZero (Lookup.size l)) 10000) eqn:E.
    + apply gt_true in E. split; split; intros; try discriminate; tauto.
    + apply gt_false in E. split; split; intros; try discriminate; tauto.
Qed.

(** C7, as the claim states it, fails: for one record whose source
    exists in both runs, a lookup that reports 5000 MB gives [Passed]
    with no issue and one that reports 20000 MB gives [Warning] with the
    large-mailbox issue. *)
Lemma validate_depends_on_size :
  ~ (forall (W : World) (m : MailboxRow.t) (l1 l2 : Lookup.t),
       Lookup.exists_ l1 = Lookup.exists_ l2 ->
       ValidationResult.ValidationStatus (Utils.validateMailbox W l1 m)
         = ValidationResult.ValidationStatus (Utils.validateMailbox W l2 m) /\
       ValidationResult.ValidationIssues (Utils.validateMailbox W l1 m)
         = ValidationResult.ValidationIssues (Utils.validateMailbox W l2 m)).
Proof.
  intros H.
  destruct (H Sample.world (Sample.row "ann")
              (Sample.lookupOfSize 5000) (Sample.lookupOfSize 20000)
              eq_refl) as [Hs _].
  vm_compute in Hs. discriminate Hs.
Qed.

(** Status and issue list as a function of the three tests. *)
Lemma validate_verdict (W : World) (l : Lookup.t) (m : MailboxRow.t) :
  (ValidationResult.ValidationStatus (Utils.validateMailbox W l m),
   ValidationResult.ValidationIssues (Utils.validateMailbox W l m))
  = if negb (Lookup.exists_ l) then
      (VFailed, ["Source mailbox not found"%string])
    else if negb (JS.test Utils.emailRegex (MailboxRow.TargetEmail m)) then
      (VFailed, ["Invalid target email format"%string])
    else if JS.gt (JS.orZero (Lookup.size l)) 10000 then
      (Warning, [largeMailboxIssue])
    else (Passed, []).
Proof.
  destruct (Lookup.exists_ l) eqn:E1; simpl.
  - destruct (JS.test Utils.emailRegex (MailboxRow.TargetEmail m)) eqn:Et; simpl.
    + destruct (validate_sized W l m E1 Et) as [-> ->].
      destruct (JS.gt (JS.orZero (Lookup.size l)) 10000); reflexivity.
    + destruct (validate_malformed W l m E1 Et) as [-> ->]. reflexivity.
  - destruct (validate_missing W l m E1) as [-> ->]. reflexivity.
Qed.

(** In simulation mode the size is [Math.random() * 5000 + 100], below
    the threshold for every draw, so there the existence answer alone
    fixes status and issues. *)
Lemma simulated_size_small (r1 r2 : Q) (email : string) :
  (0 <= r1)%Q -> (r1 < 1)%Q ->
  JS.gt (JS.orZero (Lookup.size (Connector.validateMailbox r1 r2 email))) 10000
    = false.
Proof.
  intros H0 H1. apply gt_false. unfold Connector.validateMailbox.
  destruct (negb (JS.charCodeSum email mod 10 =? 0)); simpl.
  - apply Qle_not_lt.
    apply Qle_trans with (1 * 5000 + 100)%Q; [|discriminate].
    apply Qplus_le_l. apply Qmult_le_compat_r; [apply Qlt_le_weak; exact H1 | discriminate].
  - discriminate.
Qed.

Lemma validate_simulation_deterministic (W : World) (m : MailboxRow.t)
    (r1 r2 r1' r2' : Q) :
  (0 <= r1)%Q -> (r1 < 1)%Q -> (0 <= r1')%Q -> (r1' < 1)%Q ->
  let l1 := Connector.validateMailbox r1 r2 (MailboxRow.SourceEmail m) in
  let l2 := Connector.validateMailbox r1' r2' (MailboxRow.SourceEmail m) in
  ValidationResult.ValidationStatus (Utils.validateMailbox W l1 m)
    = ValidationResult.ValidationStatus (Utils.validateMailbox W l2 m) /\
  ValidationResult.ValidationIssues (Utils.validateMailbox W l1 m)
    = ValidationResult.ValidationIssues (Utils.validateMailbox W l2 m).
Proof.
  intros A1 A2 B1 B2 l1 l2.
  pose proof (validate_verdict W l1 m) as V1.
  pose proof (validate_verdict W l2 m) as V2.
  unfold l1 in V1 at 3 4. unfold l2 in V2 at 3 4.
  rewrite simulated_size_small in V1, V2 by assumption.
  assert (He : Lookup.exists_ (Connector.validateMailbox r1 r2 (MailboxRow.SourceEmail m))
               = Lookup.exists_ (Connector.validateMailbox r1' r2' (MailboxRow.SourceEmail m))).
  { unfold Connector.validateMailbox.
    destruct (negb (JS.charCodeSum (MailboxRow.SourceEmail m) mod 10 =? 0));
      reflexivity. }
  rewrite He in V1. rewrite <- V2 in V1.
  now injection V1.
Qed.

(** C7, amended. Two runs of [validateMailbox] on the same record return
    the same status and the same issue list when the lookup gives the
    same existence answer and sizes on the same side of the 10000 MB
    threshold. *)
Theorem validate_deterministic (W : World) (m : MailboxRow.t) (l1 l2 : Lookup.t) :
  Lookup.exists_ l1 = Lookup.exists_ l2 ->
  JS.gt (JS.orZero (Lookup.size l1)) 10000
    = JS.gt (JS.orZero (Lookup.size l2)) 10000 ->
  ValidationResult.ValidationStatus (Utils.validateMailbox W l1 m)
    = ValidationResult.ValidationStatus (Utils.validateMailbox W l2 m) /\
  ValidationResult.ValidationIssues (Utils.validateMailbox W l1 m)
    = ValidationResult.ValidationIssues (Utils.validateMailbox W l2 m).
Proof.
  intros He Hs.
  pose proof (validate_verdict W l1 m) as V1.
  pose proof (validate_verdict W l2 m) as V2.
  rewrite He, Hs in V1. rewrite <- V2 in V1.
  injection V1 as Hstatus Hissues.
  split; [exact Hstatus | exact Hissues].
Qed.

Lemma validate_deterministic_witness :
  Lookup.exists_ (Sample.lookupOfSize 300)
    = Lookup.exists_ (Sample.lookupOfSize 5000) /\
  JS.gt (JS.orZero (Lookup.size (Sample.lookupOfSize 300))) 10000
    = JS.gt (JS.orZero (Lookup.size (Sample.lookupOfSize 5000))) 10000 /\
  ValidationResult.ValidationStatus
    (Utils.validateMailbox Sample.world (Sample.lookupOfSize 300) (Sample.row "ann"))
  = ValidationResult.ValidationStatus
    (Utils.validateMailbox Sample.world (Sample.lookupOfSize 5000) (Sample.row "ann")).
Proof.
  split; [reflexivity|]. split; [reflexivity|].
  exact (proj1 (validate_deterministic Sample.world (Sample.row "ann")
                  (Sample.lookupOfSize 300) (Sample.lookupOfSize 5000)
                  eq_refl eq_refl)).
Defined.

(** ** Durations *)

(** C8, as the claim states it, fails: nothing wraps. A move that took
    61 minutes and 1 second is recorded as [61:01], not as the [01:01]
    of a move that took 1 minute and 1 second. *)
Lemma duration_does_not_wrap :
  ~ (forall d : Z, 3600000 <= d ->
       Utils.formatDuration d = Utils.formatDuration (d mod 3600000)).
Proof.
  intros H. specialize (H 3661000 ltac:(lia)).
  vm_compute in H. discriminate H.
Qed.

(** C8, amended. The recorded [Duration] of a finished move is the
    wall-clock delta shown as whole minutes, a colon, and the remaining
    whole seconds, each padded with zeros to at least two digits; there
    is no hour component and the minute field is not reduced modulo 60,
    so a delta of 60 minutes or more shows 60 or more minutes. *)
Theorem duration_total_minutes (W : World) (m : MailboxRow.t)
    (startTime finishTime : Z) (mv : Move.t) (r1 r2 : Q) :
  startTime <= finishTime ->
  let d := finishTime - startTime in
  let minutes := d / 60000 in
  let seconds := d mod 60000 / 1000 in
  let MM := JS.padStart 2 "0" (JS.numToString minutes) in
  let SS := JS.padStart 2 "0" (JS.numToString seconds) in
  MigrationResult.Duration
    (Utils.simulateMigration W m startTime finishTime mv r1 r2)
    = Some (MM ++ ":" ++ SS)%string /\
  0 <= seconds < 60 /\
  60000 * minutes + 1000 * seconds <= d < 60000 * minutes + 1000 * seconds + 1000 /\
  (2 <= String.length MM)%nat /\
  String.length SS = 2%nat /\
  (3600000 <= d -> 60 <= minutes).
Proof.
  intros Hle. cbv zeta.
  set (d := finishTime - startTime).
  assert (Hd : 0 <= d) by (unfold d; lia).
  pose proof (Z.div_mod d 60000 ltac:(lia)) as Hdm.
  pose proof (Z.mod_pos_bound d 60000 ltac:(lia)) as Hm.
  pose proof (Z.div_mod (d mod 60000) 1000 ltac:(lia)) as Hsm.
  pose proof (Z.mod_pos_bound (d mod 60000) 1000 ltac:(lia)) as Hs.
  assert (Hsec : 0 <= d mod 60000 / 1000 < 60).
  { split; [apply Z.div_pos; lia | apply Z.div_lt_upper_bound; lia]. }
  split; [|split; [|split; [|split; [|split]]]].
  - rewrite simulateMigration_Duration. fold d.
    now rewrite formatDuration_nonneg.
  - exact Hsec.
  - lia.
  - rewrite length_padStart. lia.
  - replace (d mod 60000 / 1000) with (Z.of_nat (Z.to_nat (d mod 60000 / 1000))) by lia.
    apply two_digits. lia.
  - intros Hbig. apply Z.div_le_lower_bound; lia.
Qed.

Lemma duration_total_minutes_witness :
  0 <= 3661000 /\
  MigrationResult.Duration
    (Utils.simulateMigration Sample.world (Sample.row "ann") 0 3661000
       Sample.moved 0 0)
  = Some "61:01"%string.
Proof.
  split; [lia |].
  exact (proj1 (duration_total_minutes Sample.world (Sample.row "ann") 0 3661000
                  Sample.moved 0 0 ltac:(lia))).
Defined.

(** ** Reports *)

Lemma append_cons (x : ascii) (a b : string) :
  (String x a ++ b = String x (a ++ b))%string.
Proof. reflexivity. Qed.




Lemma map_lookup_Some {A B : Type} (f : A -> B) (l : list A) (i : nat) (x : A) :
  l !! i = Some x -> map f l !! i = Some (f x).
Proof.
  revert i. induction l as [|y l IH]; intros i H; [discriminate|].
  destruct i as [|i]; simpl in *; [now injection H as -> | now apply IH].
Qed.






(* ------------------------------------------------------------------ *)
(** * Further properties *)

(** ** Invariants of a run, in general *)

Module RunInvariants.
Import Migrate.

#[local] Arguments log : simpl never.
#[local] Arguments startItem : simpl never.
#[local] Arguments settleItem : simpl never.
#[local] Arguments batchBody : simpl never.
#[local] Arguments finish : simpl never.

Section Invariant.

Variable W : World.

(** [J seen s]: a property of what has been seen so far and of the
    current state of the session object. *)
Variable J : list MigrationSession.t -> MigrationSession.t -> Prop.

Hypothesis J_yield :
  forall (seen : list MigrationSession.t) (s : MigrationSession.t),
    J seen s -> J (seen ++ [s]) s.

Hypothesis J_fulfilled :
  forall (seen : list MigrationSession.t) (s : MigrationSession.t)
         (m : MailboxRow.t) (t1 t2 : Z) (mv : Move.t) (r1 r2 : Q),
    J seen s ->
    J seen (sessionFulfilled s (Utils.simulateMigration W m t1 t2 mv r1 r2)).

Hypothesis J_rejected :
  forall (seen : list MigrationSession.t) (s : MigrationSession.t)
         (m : MailboxRow.t) (t1 t2 : Z) (e : Thrown) (n : nat),
    mover W n = Rejected e ->
    J seen s ->
    J seen (sessionRejected s (failedResult W m t1 t2 e)).

Lemma settleItem_keeps (r : Run) (p : Pending) :
  (exists n : nat, promise p = mover W n) ->
  J (seen r) (session r) ->
  J (seen (settleItem W r p)) (session (settleItem W r p)).
Proof.
  intros [n Hn] HJ.
  destruct (RunFacts.settleItem_spec W r p) as (Hseen & _ & _ & out & Hout & Hs).
  rewrite Hseen, Hs. unfold outcomeFor in Hout.
  destruct (promise p) as [mv | e] eqn:Ep.
  - destruct Hout as (t2 & r1 & r2 & ->). now apply J_fulfilled.
  - destruct Hout as (t1 & t2 & ->). apply J_rejected with (n := n); congruence.
Qed.

Lemma settleAll_keeps (pend : list Pending) (order : list nat) (r : Run) :
  Forall (fun p => exists n : nat, promise p = mover W n) pend ->
  J (seen r) (session r) ->
  J (seen (settleAll W r pend order)) (session (settleAll W r pend order)).
Proof.
  intros Hpend. revert r. induction order as [|pos rest IH]; intros r HJ; [exact HJ|].
  simpl. destruct (pend !! pos) as [p|] eqn:Ep; [|now apply IH].
  apply IH. simpl. apply J_yield. apply settleItem_keeps; [|exact HJ].
  rewrite Forall_forall in Hpend. apply Hpend.
  apply list_elem_of_lookup. eauto.
Qed.

Lemma startAll_promises (batch : list MailboxRow.t) (r : Run) :
  Forall (fun p => exists n : nat, promise p = mover W n)
    (fst (startAll W r batch)).
Proof.
  destruct (RunFacts.startAll_spec W batch r) as (_ & _ & H).
  induction H as [|p jm pend items [_ Hp] _ IH]; constructor; eauto.
Qed.

Lemma batchBody_keeps (l : list MailboxRow.t) (B : Z) (k : nat) (i : Z) (r : Run) :
  J (seen r) (session r) ->
  J (seen (batchBody W l B k i r)) (session (batchBody W l B k i r)).
Proof.
  intros HJ. unfold batchBody, batchStart.
  set (batch := JS.slice l i (i + B)).
  set (r1 := log W (cut r batch) _ _ _).
  assert (HJ1 : J (seen r1) (session r1)) by exact HJ.
  pose proof (startAll_promises batch r1) as Hp.
  destruct (RunFacts.startAll_spec W batch r1) as ([S2 N2 _] & _ & _).
  destruct (startAll W r1 batch) as [pend r2]. simpl in Hp, S2, N2.
  assert (HJ2 : J (seen (yield r2)) (session (yield r2))).
  { simpl. apply J_yield. now rewrite S2, N2. }
  pose proof (settleAll_keeps pend (schedule W k (length pend)) (yield r2) Hp HJ2)
    as HJ3.
  set (r3 := settleAll W (yield r2) pend (schedule W k (length pend))) in *.
  destruct (i + B <? Z.of_nat (length l)).
  - simpl. apply J_yield. exact HJ3.
  - exact HJ3.
Qed.

Lemma batchLoop_keeps (l : list MailboxRow.t) (B : Z) (fuel : nat) :
  forall (k : nat) (i : Z) (r : Run),
    J (seen r) (session r) ->
    J (seen (fst (batchLoop W fuel l B k i r)))
      (session (fst (batchLoop W fuel l B k i r))).
Proof.
  induction fuel as [|fuel IH]; intros k i r HJ; simpl; [exact HJ|].
  destruct (i <? Z.of_nat (length l)); [|exact HJ].
  apply IH. now apply batchBody_keeps.
Qed.

(** The run that a request starts: while the loop runs, [J] holds of the
    session that [POST] created and of everything seen; a run that
    reaches its end adds one last state, the completed session. *)
Lemma POST_keeps (fuel : nat) (srv srv' : Server) (req : Request)
    (reply : Reply) (r : Run) (done : bool) :
  POST W fuel srv req = (reply, srv', Some (r, done)) ->
  exists (sid : string) (l : list MailboxRow.t),
    sessionId req = Some sid /\ mailboxList req = Some l /\
    sid <> EmptyString /\
    (J [] (newSession W sid l (config req) (clock W 0)) ->
     if done then
       exists (r1 : Run) (t : string),
         J (seen r1) (session r1) /\
         session r = complete (session r1) t /\
         seen r = seen r1 ++ [session r]
     else J (seen r) (session r)).
Proof.
  unfold POST.
  destruct (sessionId req) as [sid|]; [|discriminate].
  destruct (mailboxList req) as [l|]; [|discriminate].
  destruct (String.eqb_spec sid EmptyString) as [|Hne]; [discriminate|].
  unfold processMigration, getSession. simpl. rewrite lookup_insert_eq.
  match goal with |- context [batchLoop W fuel l ?B ?k ?i ?r0] =>
    pose proof (batchLoop_keeps l B fuel k i r0) as Hloop;
    destruct (batchLoop W fuel l B k i r0) as [r1 exited] end.
  simpl in Hloop.
  intros E. exists sid, l. repeat (split; [reflexivity || assumption|]).
  intros H0. specialize (Hloop H0).
  destruct exited; injection E as _ _ <- <-.
  - destruct (RunFacts.finish_spec W r1) as (t & Hs & Hn & _).
    exists r1, t. split; [exact Hloop|]. split; [exact Hs|].
    rewrite Hn, Hs. reflexivity.
  - exact Hloop.
Qed.

End Invariant.

End RunInvariants.

(** ** What a run changes and what it keeps *)

Lemma sameIdentity_refl (s : MigrationSession.t) : sameIdentity s s.
Proof. repeat split. Qed.

Lemma sameIdentity_fulfilled (a s : MigrationSession.t) (out : MigrationResult.t) :
  sameIdentity a s -> sameIdentity a (sessionFulfilled s out).
Proof.
  unfold sameIdentity, sessionFulfilled.
  destruct (Status_eqb (MigrationResult.Status out) StCompleted); simpl; auto.
Qed.

Lemma sameIdentity_rejected (a s : MigrationSession.t) (out : MigrationResult.t) :
  sameIdentity a s -> sameIdentity a (sessionRejected s out).
Proof. unfold sameIdentity, sessionRejected. simpl. auto. Qed.

Lemma sameIdentity_complete (a s : MigrationSession.t) (t : string) :
  sameIdentity a s -> sameIdentity a (Migrate.complete s t).
Proof. unfold sameIdentity. simpl. auto. Qed.

(** X1. Whatever happens during a run, the session keeps the [id],
    [config], [mailboxList] and [startTime] that [POST] gave it, and
    never gets validation results: only outcomes, stats, and at the end
    status, end time and logs change. *)
Theorem session_identity_is_kept (W : World) (fuel : nat)
    (srv : Migrate.Server) (req : Migrate.Request) (sid : string)
    (l : list MailboxRow.t) (s : MigrationSession.t) :
  Migrate.sessionId req = Some sid ->
  Migrate.mailboxList req = Some l ->
  In s (Migrate.snapshots W fuel srv req) ->
  MigrationSession.id s = sid /\
  MigrationSession.config s = Migrate.config req /\
  MigrationSession.mailboxList s = l /\
  MigrationSession.validationResults s = None /\
  MigrationSession.startTime s = Some (toISOString W (clock W 0)).
Proof.
  intros Hsid Hl Hin. unfold Migrate.snapshots in Hin.
  destruct (Migrate.POST W fuel srv req) as [[reply srv'] [[r done]|]] eqn:E;
    [|destruct Hin].
  set (s0 := Migrate.newSession W sid l (Migrate.config req) (clock W 0)).
  destruct (RunInvariants.POST_keeps W
              (fun seen s => Forall (sameIdentity s0) seen /\ sameIdentity s0 s))
    with (4 := E) as (sid' & l' & Hsid' & Hl' & _ & Hrun).
  - intros seen x [Hseen Hx]. split; [|exact Hx].
    apply Forall_app. split; [exact Hseen|]. constructor; [exact Hx | constructor].
  - intros seen x m t1 t2 mv r1 r2 [Hseen Hx]. split; [exact Hseen|].
    now apply sameIdentity_fulfilled.
  - intros seen x m t1 t2 e n _ [Hseen Hx]. split; [exact Hseen|].
    now apply sameIdentity_rejected.
  - rewrite Hsid in Hsid'. rewrite Hl in Hl'.
    injection Hsid' as <-. injection Hl' as <-. fold s0 in Hrun.
    assert (Hall : Forall (sameIdentity s0) (Migrate.seen r)).
    { destruct done.
      - destruct Hrun as (r1 & t & [Hseen Hs] & Hfin & Hn).
        { split; [constructor | apply sameIdentity_refl]. }
        rewrite Hn. apply Forall_app. split; [exact Hseen|].
        constructor; [|constructor]. rewrite Hfin.
        now apply sameIdentity_complete.
      - apply Hrun. split; [constructor | apply sameIdentity_refl]. }
    rewrite Forall_forall in Hall.
    destruct (Hall s) as (H1 & H2 & H3 & H4 & H5);
      [now apply list_elem_of_In|].
    unfold s0 in *. simpl in *. repeat split; congruence.
Qed.

Lemma session_identity_is_kept_witness :
  Migrate.sessionId (Sample.request 2 Sample.rows) = Some "session-1"%string /\
  Migrate.mailboxList (Sample.request 2 Sample.rows) = Some Sample.rows /\
  In Sample.final Sample.run /\
  MigrationSession.mailboxList Sample.final = Sample.rows.
Proof.
  assert (H : In Sample.final
                (Migrate.snapshots Sample.world 5 Sample.server
                   (Sample.request 2 Sample.rows))).
  { vm_compute. do 6 right. left. reflexivity. }
  split; [reflexivity|]. split; [reflexivity|]. split; [exact H|].
  exact (proj1 (proj2 (proj2
    (session_identity_is_kept Sample.world 5 Sample.server
       (Sample.request 2 Sample.rows) "session-1" Sample.rows Sample.final
       eq_refl eq_refl H)))).
Defined.

Lemma migrating_fulfilled (s : MigrationSession.t) (out : MigrationResult.t) :
  migrating s -> migrating (sessionFulfilled s out).
Proof.
  unfold migrating, sessionFulfilled.
  destruct (Status_eqb (MigrationResult.Status out) StCompleted); simpl; auto.
Qed.

Lemma migrating_rejected (s : MigrationSession.t) (out : MigrationResult.t) :
  migrating s -> migrating (sessionRejected s out).
Proof. unfold migrating, sessionRejected. simpl. auto. Qed.

(** X2. While the loop of [processMigration] runs, every state of the
    session that can be seen has status [migrating], no end time and its
    own empty [logs]; the status [completed], with the end time set and
    [logs] pointing to the logger's array, appears only as the last
    state of a run whose loop has ended. No other status ever occurs. *)
Theorem status_changes_once_at_the_end (W : World) (fuel : nat)
    (srv srv' : Migrate.Server) (req : Migrate.Request)
    (reply : Migrate.Reply) (r : Migrate.Run) (done : bool) :
  Migrate.POST W fuel srv req = (reply, srv', Some (r, done)) ->
  if done then
    exists init : list MigrationSession.t,
      Migrate.seen r = init ++ [Migrate.session r] /\
      Forall migrating init /\
      finished (Migrate.session r)
  else
    Forall migrating (Migrate.seen r) /\ migrating (Migrate.session r).
Proof.
  intros E.
  destruct (RunInvariants.POST_keeps W
              (fun seen s => Forall migrating seen /\ migrating s))
    with (4 := E) as (sid & l & _ & _ & _ & Hrun).
  - intros seen x [Hseen Hx]. split; [|exact Hx].
    apply Forall_app. split; [exact Hseen|]. constructor; [exact Hx | constructor].
  - intros seen x m t1 t2 mv r1 r2 [Hseen Hx]. split; [exact Hseen|].
    now apply migrating_fulfilled.
  - intros seen x m t1 t2 e n _ [Hseen Hx]. split; [exact Hseen|].
    now apply migrating_rejected.
  - assert (H0 : Forall migrating [] /\
                 migrating (Migrate.newSession W sid l (Migrate.config req) (clock W 0)))
      by (split; [constructor | repeat split]).
    specialize (Hrun H0). destruct done; [|exact Hrun].
    destruct Hrun as (r1 & t & [Hseen Hs] & Hfin & Hn).
    exists (Migrate.seen r1). split; [exact Hn|]. split; [exact Hseen|].
    rewrite Hfin. repeat split. discriminate.
Qed.

Lemma status_changes_once_at_the_end_witness :
  exists (srv' : Migrate.Server) (r : Migrate.Run),
    Migrate.POST Sample.world 5 Sample.server (Sample.request 2 Sample.rows)
      = (Migrate.Started "session-1", srv', Some (r, true)) /\
    finished (Migrate.session r).
Proof.
  destruct (Migrate.POST Sample.world 5 Sample.server
              (Sample.request 2 Sample.rows))
    as [[reply srv'] [[r done]|]] eqn:E.
  - assert (Hd : done = true /\ reply = Migrate.Started "session-1").
    { vm_compute in E. injection E as <- _ _ <-. split; reflexivity. }
    destruct Hd as [-> ->].
    exists srv', r. split; [reflexivity|].
    destruct (status_changes_once_at_the_end Sample.world 5 Sample.server srv'
                (Sample.request 2 Sample.rows) _ r true E)
      as (init & _ & _ & Hfin).
    exact Hfin.
  - vm_compute in E. discriminate E.
Defined.

(** ** Outcomes only accumulate *)

Lemma growing_snoc (l : list MigrationSession.t) (s : MigrationSession.t) :
  growing l ->
  Forall (fun x => exists more,
            MigrationSession.migrationResults s
              = MigrationSession.migrationResults x ++ more) l ->
  growing (l ++ [s]).
Proof.
  intros Hg Hall i j si sj Hij Hi Hj.
  destruct (Nat.lt_ge_cases j (length l)) as [Hlt | Hge].
  - rewrite lookup_app_l in Hi, Hj by lia. eauto.
  - assert (Hjl : j = length l).
    { apply lookup_lt_Some in Hj. rewrite length_app in Hj. simpl in Hj. lia. }
    subst j. rewrite lookup_app_r, Nat.sub_diag in Hj by lia.
    injection Hj as <-.
    destruct (Nat.lt_ge_cases i (length l)) as [Hlt | Hge'].
    + rewrite lookup_app_l in Hi by lia.
      rewrite Forall_forall in Hall. apply Hall.
      apply list_elem_of_lookup. eauto.
    + assert (i = length l) by lia. subst i.
      rewrite lookup_app_r, Nat.sub_diag in Hi by lia.
      injection Hi as <-. exists []. now rewrite app_nil_r.
Qed.

Lemma extends_step (seen : list MigrationSession.t)
    (s s' : MigrationSession.t) (out : MigrationResult.t) :
  MigrationSession.migrationResults s'
    = MigrationSession.migrationResults s ++ [out] ->
  Forall (fun x => exists more,
            MigrationSession.migrationResults s
              = MigrationSession.migrationResults x ++ more) seen ->
  Forall (fun x => exists more,
            MigrationSession.migrationResults s'
              = MigrationSession.migrationResults x ++ more) seen.
Proof.
  intros Hs Hall. eapply Forall_impl; [exact Hall|]. intros x [more Hx].
  exists (more ++ [out]). rewrite Hs, Hx. now rewrite app_assoc.
Qed.

Lemma run_grows (W : World) (fuel : nat) (srv srv' : Migrate.Server)
    (req : Migrate.Request) (reply : Migrate.Reply) (r : Migrate.Run)
    (done : bool) :
  Migrate.POST W fuel srv req = (reply, srv', Some (r, done)) ->
  growing (Migrate.seen r) /\
  Forall (fun x => exists more,
            MigrationSession.migrationResults (Migrate.session r)
              = MigrationSession.migrationResults x ++ more) (Migrate.seen r).
Proof.
  intros E.
  destruct (RunInvariants.POST_keeps W
              (fun seen s =>
                 growing seen /\
                 Forall (fun x => exists more,
                           MigrationSession.migrationResults s
                             = MigrationSession.migrationResults x ++ more) seen))
    with (4 := E) as (sid & l & _ & _ & _ & Hrun).
  - intros seen x [Hg Hall]. split; [now apply growing_snoc|].
    apply Forall_app. split; [exact Hall|].
    constructor; [|constructor]. exists []. now rewrite app_nil_r.
  - intros seen x m t1 t2 mv r1 r2 [Hg Hall]. split; [exact Hg|].
    eapply extends_step; [apply RunFacts.results_fulfilled | exact Hall].
  - intros seen x m t1 t2 e n _ [Hg Hall]. split; [exact Hg|].
    eapply extends_step; [apply RunFacts.results_rejected | exact Hall].
  - assert (H0 : growing [] /\
                 Forall (fun x => exists more,
                   MigrationSession.migrationResults
                     (Migrate.newSession W sid l (Migrate.config req) (clock W 0))
                     = MigrationSession.migrationResults x ++ more) []).
    { split; [|constructor]. intros i j si sj _ Hi. discriminate Hi. }
    specialize (Hrun H0). destruct done; [|exact Hrun].
    destruct Hrun as (r1 & t & [Hg Hall] & Hfin & Hn).
    assert (Hall' : Forall (fun x => exists more,
                      MigrationSession.migrationResults (Migrate.session r)
                        = MigrationSession.migrationResults x ++ more)
                      (Migrate.seen r1)).
    { rewrite Hfin. exact Hall. }
    rewrite Hn. split; [now apply growing_snoc|].
    apply Forall_app. split; [exact Hall'|].
    constructor; [|constructor]. exists []. now rewrite app_nil_r.
Qed.

(** X3. The outcome list of a session only grows: of any two states of
    the session seen during a run, the later one has the outcomes of the
    earlier one, in the same order, followed by the new ones. Nothing is
    ever removed, replaced or reordered. *)
Theorem outcomes_only_accumulate (W : World) (fuel : nat)
    (srv : Migrate.Server) (req : Migrate.Request)
    (i j : nat) (si sj : MigrationSession.t) :
  (i <= j)%nat ->
  Migrate.snapshots W fuel srv req !! i = Some si ->
  Migrate.snapshots W fuel srv req !! j = Some sj ->
  exists more : list MigrationResult.t,
    MigrationSession.migrationResults sj
      = MigrationSession.migrationResults si ++ more.
Proof.
  unfold Migrate.snapshots.
  destruct (Migrate.POST W fuel srv req) as [[reply srv'] [[r done]|]] eqn:E.
  - destruct (run_grows W fuel srv srv' req reply r done E) as [Hg _].
    apply Hg.
  - intros _ H. discriminate H.
Qed.

Lemma outcomes_only_accumulate_witness :
  (1 <= 5)%nat /\
  exists (si sj : MigrationSession.t) (more : list MigrationResult.t),
    Sample.run !! 1%nat = Some si /\ Sample.run !! 5%nat = Some sj /\
    length (MigrationSession.migrationResults si) = 1%nat /\
    MigrationSession.migrationResults sj
      = MigrationSession.migrationResults si ++ more.
Proof.
  split; [lia|].
  destruct (Sample.run !! 1%nat) as [si|] eqn:E1; [|vm_compute in E1; discriminate E1].
  destruct (Sample.run !! 5%nat) as [sj|] eqn:E5; [|vm_compute in E5; discriminate E5].
  destruct (outcomes_only_accumulate Sample.world 5 Sample.server
              (Sample.request 2 Sample.rows) 1 5 si sj ltac:(lia) E1 E5)
    as [more Hmore].
  exists si, sj, more. split; [reflexivity|]. split; [reflexivity|].
  split; [|exact Hmore].
  vm_compute in E1. injection E1 as <-. reflexivity.
Defined.

(** X4. With a batch size of at least one, and the promises of each
    batch settling once each, no state of the session ever holds more
    outcomes than the request had mailboxes. *)
Theorem never_more_outcomes_than_mailboxes (W : World) (fuel : nat)
    (srv : Migrate.Server) (sid : string) (l : list MailboxRow.t)
    (cfg : MigrationConfig.t) (s : MigrationSession.t) :
  sid <> EmptyString ->
  1 <= MigrationConfig.BatchSize cfg ->
  (length l < fuel)%nat ->
  (forall k n : nat, Permutation (schedule W k n) (seq 0 n)) ->
  In s (Migrate.snapshots W fuel srv
          {| Migrate.sessionId := Some sid; Migrate.mailboxList := Some l;
             Migrate.config := cfg |}) ->
  (length (MigrationSession.migrationResults s) <= length l)%nat.
Proof.
  intros Hsid HB Hfuel Hfair Hin. unfold Migrate.snapshots in Hin.
  destruct (RunFacts.POST_complete W fuel srv sid l cfg Hsid HB Hfuel)
    as (r & srv' & E & _ & _ & Ho).
  rewrite E in Hin.
  destruct (Ho Hfair) as (sorted & Hperm & Hf).
  assert (Hlen : length (MigrationSession.migrationResults (Migrate.session r))
                 = length l).
  { rewrite (Permutation_length Hperm). apply Forall2_length in Hf.
    rewrite Hf, length_combine, length_seq. lia. }
  destruct (run_grows W fuel srv srv' _ _ r true E) as [_ Hall].
  rewrite Forall_forall in Hall.
  destruct (Hall s) as [more Hmore]; [now apply list_elem_of_In|].
  rewrite <- Hlen, Hmore, length_app. lia.
Qed.

Lemma never_more_outcomes_than_mailboxes_witness :
  "session-1"%string <> EmptyString /\ 1 <= 2 /\
  (length Sample.rows < 5)%nat /\
  In Sample.final Sample.run /\
  (length (MigrationSession.migrationResults Sample.final) <= 3)%nat.
Proof.
  assert (H1 : "session-1"%string <> EmptyString) by discriminate.
  assert (H2 : 1 <= 2) by lia.
  assert (H3 : (length Sample.rows < 5)%nat) by (simpl; lia).
  assert (H4 : forall k n : nat,
                 Permutation (schedule Sample.world k n) (seq 0 n)).
  { intros k n. simpl. symmetry. apply Permutation_rev. }
  assert (H5 : In Sample.final
                 (Migrate.snapshots Sample.world 5 Sample.server
                    {| Migrate.sessionId := Some "session-1"%string;
                       Migrate.mailboxList := Some Sample.rows;
                       Migrate.config := MigrationConfig.mk 2 false false "." |})).
  { vm_compute. do 6 right. left. reflexivity. }
  split; [exact H1|]. split; [exact H2|]. split; [exact H3|].
  split; [exact H5|].
  exact (never_more_outcomes_than_mailboxes Sample.world 5 Sample.server
           "session-1" Sample.rows (MigrationConfig.mk 2 false false ".")
           Sample.final H1 H2 H3 H4 H5).
Defined.

(** ** A run in which no move throws *)

Lemma POST_reachable (W : World) (fuel : nat) (srv srv' : Migrate.Server)
    (req : Migrate.Request) (reply : Migrate.Reply) (r : Migrate.Run)
    (done : bool) :
  Migrate.POST W fuel srv req = (reply, srv', Some (r, done)) ->
  reachable W (Migrate.session r).
Proof.
  intros E. apply RunFacts.POST_started in E.
  destruct E as (sid & l & stored & _ & _ & Hget & logger & Hrun).
  apply RunFacts.processMigration_inv in Hrun; [apply Hrun|].
  intros s' Hs'. rewrite Hget in Hs'. injection Hs' as <-. apply reach_new.
Qed.

(** X5. When no call of the mover throws, the batch size is at least one
    and every promise settles once, the run ends with [stats] equal to
    [calculateStats(migrationResults)]: [Total] is the number of
    mailboxes of the request, [Successful + Failed] is that number too,
    and [InProgress] and [Skipped] are zero. *)
Theorem totals_when_nothing_throws (W : World) (fuel : nat)
    (srv : Migrate.Server) (sid : string) (l : list MailboxRow.t)
    (cfg : MigrationConfig.t) :
  sid <> EmptyString ->
  1 <= MigrationConfig.BatchSize cfg ->
  (length l < fuel)%nat ->
  (forall k n : nat, Permutation (schedule W k n) (seq 0 n)) ->
  (forall n : nat, exists mv : Move.t, mover W n = Fulfilled mv) ->
  exists (r : Migrate.Run) (srv' : Migrate.Server),
    Migrate.POST W fuel srv
      {| Migrate.sessionId := Some sid; Migrate.mailboxList := Some l;
         Migrate.config := cfg |}
      = (Migrate.Started sid, srv', Some (r, true)) /\
    aggregated (Migrate.session r) /\
    MigrationStats.Total (MigrationSession.stats (Migrate.session r)) = length l /\
    (MigrationStats.Successful (MigrationSession.stats (Migrate.session r)) +
     MigrationStats.Failed (MigrationSession.stats (Migrate.session r)))%nat
      = length l /\
    MigrationStats.InProgress (MigrationSession.stats (Migrate.session r)) = 0%nat /\
    MigrationStats.Skipped (MigrationSession.stats (Migrate.session r)) = 0%nat.
Proof.
  intros Hsid HB Hfuel Hfair Hok.
  destruct (RunFacts.POST_complete W fuel srv sid l cfg Hsid HB Hfuel)
    as (r & srv' & E & _ & _ & Ho).
  exists r, srv'. split; [exact E|].
  destruct (Ho Hfair) as (sorted & Hperm & Hf).
  assert (Hlen : length (MigrationSession.migrationResults (Migrate.session r))
                 = length l).
  { rewrite (Permutation_length Hperm). apply Forall2_length in Hf.
    rewrite Hf, length_combine, length_seq. lia. }
  set (s0 := Migrate.newSession W sid l cfg (clock W 0)).
  destruct (RunInvariants.POST_keeps W
              (fun _ s =>
                 (MigrationSession.migrationResults s = [] /\
                  MigrationSession.stats s = MigrationSession.stats s0) \/
                 aggregated s))
    with (4 := E) as (sid' & l' & Hsid' & Hl' & _ & Hrun).
  - auto.
  - intros _ x m t1 t2 mv r1 r2 _. right. reflexivity.
  - intros _ x m t1 t2 e n Hn _. destruct (Hok n) as [mv Hmv]. congruence.
  - simpl in Hsid', Hl', Hrun. injection Hsid' as <-. injection Hl' as <-.
    fold s0 in Hrun.
    destruct Hrun as (r1 & t & HJ & Hfin & _); [left; split; reflexivity|].
    assert (Hagg : aggregated (Migrate.session r)).
    { rewrite Hfin. unfold aggregated. simpl.
      destruct HJ as [[Hnil Hst] | Hagg]; [|exact Hagg].
      rewrite Hfin in Hlen. simpl in Hlen. rewrite Hnil in Hlen. simpl in Hlen.
      rewrite Hst, Hnil. unfold s0. simpl. rewrite <- Hlen. reflexivity. }
    split; [exact Hagg|].
    pose proof (reachable_terminal W _ (POST_reachable W fuel srv srv' _ _ r true E))
      as Hterm.
    pose proof (terminal_none_in_progress _ Hterm) as Hnone.
    pose proof (calculateStats_counted
                  (MigrationSession.migrationResults (Migrate.session r))) as Hsum.
    unfold aggregated in Hagg. rewrite Hagg.
    unfold countedOutcomes in Hsum. rewrite Hnone, Hlen in Hsum.
    split; [simpl; exact Hlen|]. split; [lia|]. split; [exact Hnone | reflexivity].
Qed.

Lemma totals_when_nothing_throws_witness :
  exists (r : Migrate.Run) (srv' : Migrate.Server),
    Migrate.POST Sample2.calm 5 Sample.server (Sample.request 1 Sample.rows)
      = (Migrate.Started "session-1", srv', Some (r, true)) /\
    MigrationStats.Total (MigrationSession.stats (Migrate.session r)) = 3%nat.
Proof.
  destruct (totals_when_nothing_throws Sample2.calm 5 Sample.server "session-1"
              Sample.rows (MigrationConfig.mk 1 false false "."))
    as (r & srv' & E & _ & Ht & _).
  - discriminate.
  - simpl. lia.
  - simpl. lia.
  - intros k n. simpl. apply Permutation_refl.
  - intros n. simpl. eexists. reflexivity.
  - exists r, srv'. split; [exact E | exact Ht].
Defined.

(** ** What a stored outcome looks like *)

Lemma formatDuration_not_empty (d : Z) : Utils.formatDuration d <> EmptyString.
Proof.
  intros H. apply (f_equal String.length) in H.
  unfold Utils.formatDuration in H.
  rewrite length_append, length_padStart in H. simpl in H. lia.
Qed.

Lemma simulateMigration_settled (W : World) (m : MailboxRow.t) (t1 t2 : Z)
    (mv : Move.t) (r1 r2 : Q) :
  settledOutcome (Utils.simulateMigration W m t1 t2 mv r1 r2).
Proof.
  unfold settledOutcome, Utils.simulateMigration.
  destruct (Move.success mv); simpl.
  - split; [discriminate|]. split.
    + eexists. split; [reflexivity | apply formatDuration_not_empty].
    + split; [reflexivity | discriminate].
  - split; [discriminate|]. split.
    + eexists. split; [reflexivity | apply formatDuration_not_empty].
    + split; [discriminate | auto].
Qed.

Lemma failedResult_settled (W : World) (m : MailboxRow.t) (t1 t2 : Z) (e : Thrown) :
  settledOutcome (Migrate.failedResult W m t1 t2 e).
Proof.
  unfold settledOutcome. simpl. split; [discriminate|]. split.
  - eexists. split; [reflexivity | discriminate].
  - split; [discriminate | auto].
Qed.

Lemma reachable_settled (W : World) (s : MigrationSession.t) :
  reachable W s -> Forall settledOutcome (MigrationSession.migrationResults s).
Proof.
  induction 1 as [sid l cfg t | s m t1 t2 mv r1 r2 _ IH | s m t1 t2 e _ IH | s t _ IH].
  - constructor.
  - rewrite RunFacts.results_fulfilled. apply Forall_app. split; [exact IH|].
    constructor; [apply simulateMigration_settled | constructor].
  - rewrite RunFacts.results_rejected. apply Forall_app. split; [exact IH|].
    constructor; [apply failedResult_settled | constructor].
  - exact IH.
Qed.

(** X6. Every outcome that a session holds is finished: its end time
    and its duration are set and the duration text is not empty; a
    [Completed] outcome has an empty error message, a [Failed] one has
    no items and ["0 MB"] moved. So the CSV export never has to write
    its ["N/A"] placeholder in the Duration column. *)
Theorem stored_outcomes_are_filled_in (W : World) (fuel : nat)
    (srv : Migrate.Server) (req : Migrate.Request) (s : MigrationSession.t)
    (out : MigrationResult.t) :
  In s (Migrate.snapshots W fuel srv req) ->
  In out (MigrationSession.migrationResults s) ->
  settledOutcome out /\
  exists d : string,
    MigrationResult.Duration out = Some d /\
    Reports.cell "Duration" (Reports.csvRecord out) = Some (CStr d).
Proof.
  intros Hs Hout. apply RunFacts.snapshots_reachable in Hs.
  pose proof (reachable_settled W s Hs) as Hall.
  rewrite Forall_forall in Hall.
  assert (Hset : settledOutcome out) by now apply Hall, list_elem_of_In.
  split; [exact Hset|].
  destruct Hset as (_ & (d & Hd & Hne) & _).
  exists d. split; [exact Hd|].
  simpl. rewrite Hd. simpl. unfold JS.orString.
  destruct (String.eqb_spec d EmptyString); [contradiction | reflexivity].
Qed.

Lemma stored_outcomes_are_filled_in_witness :
  exists out : MigrationResult.t,
    In Sample.final Sample.run /\
    In out (MigrationSession.migrationResults Sample.final) /\
    settledOutcome out.
Proof.
  assert (H : In Sample.final
                (Migrate.snapshots Sample.world 5 Sample.server
                   (Sample.request 2 Sample.rows))).
  { vm_compute. do 6 right. left. reflexivity. }
  destruct (MigrationSession.migrationResults Sample.final) as [|out rest] eqn:E;
    [vm_compute in E; discriminate E|].
  assert (Hin : In out (MigrationSession.migrationResults Sample.final))
    by (rewrite E; left; reflexivity).
  exists out. split; [exact H|]. split; [rewrite <- E; exact Hin|].
  exact (proj1 (stored_outcomes_are_filled_in Sample.world 5 Sample.server
                  (Sample.request 2 Sample.rows) Sample.final out H Hin)).
Defined.

(** ** Starting a migration *)

Lemma startAll_logger (W : World) (batch : list MailboxRow.t) (r : Migrate.Run) :
  exists started : list LogEntry.t,
    Migrate.logger (snd (Migrate.startAll W r batch))
      = Migrate.logger r ++ started /\
    Forall2 (fun e m => LogEntry.mailboxId e = Some (MailboxRow.SourceEmail m))
      started batch.
Proof.
  revert r. induction batch as [|m rest IH]; intros r.
  - exists []. split; [simpl; now rewrite app_nil_r | constructor].
  - rewrite RunFacts.startAll_cons.
    assert (H1 : exists e : LogEntry.t,
               Migrate.logger (snd (Migrate.startItem W r m))
                 = Migrate.logger r ++ [e] /\
               LogEntry.mailboxId e = Some (MailboxRow.SourceEmail m))
      by (eexists; split; reflexivity).
    destruct H1 as (e & He & Hid).
    destruct (Migrate.startItem W r m) as [p r1]. simpl in He.
    destruct (IH r1) as (started & Hs & Hall).
    destruct (Migrate.startAll W r1 rest) as [ps r2]. simpl in Hs |- *.
    exists (e :: started). split; [|constructor; assumption].
    rewrite Hs, He, <- app_assoc. reflexivity.
Qed.

Lemma untilAwait_spec (W : World) (srv : Migrate.Server) (now : nat)
    (sid : string) (l : list MailboxRow.t) (cfg : MigrationConfig.t)
    (logger : Utils.MigrationLogger) (session : MigrationSession.t) :
  Migrate.getSession srv sid = Some session ->
  exists r : Migrate.Run,
    Migrate.untilAwait W srv now sid l cfg logger = Some r /\
    (l <> [] ->
     Migrate.session r = session /\
     exists (batchEntry : LogEntry.t) (started : list LogEntry.t),
       Migrate.logger r = logger ++ batchEntry :: started /\
       LogEntry.mailboxId batchEntry = None /\
       Forall2 (fun e m => LogEntry.mailboxId e = Some (MailboxRow.SourceEmail m))
         started (JS.slice l 0 (MigrationConfig.BatchSize cfg))) /\
    (l = [] ->
     Migrate.session r
       = Migrate.complete session (toISOString W (clock W now)) /\
     exists summary : LogEntry.t,
       Migrate.logger r = logger ++ [summary] /\
       LogEntry.level summary = Success).
Proof.
  intros Hget. unfold Migrate.untilAwait. rewrite Hget.
  destruct l as [|m l'].
  - eexists. split; [reflexivity|]. split; [intros H; now contradiction H|].
    intros _. split; [reflexivity|].
    eexists. split; reflexivity.
  - destruct (Z.ltb_spec 0 (Z.of_nat (length (m :: l')))) as [_ | Hge];
      [|simpl in Hge; lia].
    eexists. split; [reflexivity|]. split; [|discriminate].
    intros _. unfold Migrate.batchStart.
    set (batch := JS.slice (m :: l') 0 (0 + MigrationConfig.BatchSize cfg)).
    match goal with |- context [Migrate.startAll W ?r1 batch] =>
      destruct (RunFacts.startAll_spec W batch r1) as ([Hs _ _] & _ & _);
      destruct (startAll_logger W batch r1) as (started & Hlog & Hall) end.
    split; [rewrite Hs; reflexivity|].
    eexists. exists started. split; [rewrite Hlog; simpl; rewrite <- app_assoc; reflexivity|].
    split; [reflexivity | exact Hall].
Qed.

(** X7. [POST] refuses a request, with status 400, exactly when the
    session id is missing or empty or the mailbox list is not an array;
    then it touches neither map and starts nothing. Otherwise it answers
    with the session id and leaves, under that id and replacing whatever
    was there, the session and the logger as [processMigration] has them
    at its first [await]: for a non-empty list the new session (status
    [migrating], [Total] the number of mailboxes, no outcome) and a
    logger that holds the starting entry, the entry of the first batch
    and one entry per mailbox of that batch; for an empty list the
    session already completed and a logger with the starting entry and
    the summary. Every other session and logger is left alone. *)
Theorem POST_stores_one_session (W : World) (fuel : nat)
    (srv srv' : Migrate.Server) (req : Migrate.Request)
    (reply : Migrate.Reply) (run : option (Migrate.Run * bool)) :
  Migrate.POST W fuel srv req = (reply, srv', run) ->
  ((Migrate.sessionId req = None \/
    Migrate.sessionId req = Some EmptyString \/
    Migrate.mailboxList req = None) /\
   reply = Migrate.Json 400 "Invalid request parameters" /\
   srv' = srv /\ run = None)
  \/
  (exists (sid : string) (l : list MailboxRow.t)
          (session : MigrationSession.t) (starting : LogEntry.t)
          (logger : Utils.MigrationLogger),
     Migrate.sessionId req = Some sid /\ sid <> EmptyString /\
     Migrate.mailboxList req = Some l /\
     reply = Migrate.Started sid /\
     run <> None /\
     Migrate.getSession srv' sid = Some session /\
     Migrate.getSessionLogger srv' sid = Some (starting :: logger) /\
     LogEntry.level starting = Progress /\
     LogEntry.mailboxId starting = None /\
     (l <> [] ->
      session = Migrate.newSession W sid l (Migrate.config req) (clock W 0) /\
      exists (batchEntry : LogEntry.t) (started : list LogEntry.t),
        logger = batchEntry :: started /\
        LogEntry.mailboxId batchEntry = None /\
        Forall2 (fun e m => LogEntry.mailboxId e = Some (MailboxRow.SourceEmail m))
          started
          (JS.slice l 0 (MigrationConfig.BatchSize (Migrate.config req)))) /\
     (l = [] ->
      session
        = Migrate.complete
            (Migrate.newSession W sid l (Migrate.config req) (clock W 0))
            (toISOString W (clock W 2)) /\
      exists summary : LogEntry.t,
        logger = [summary] /\ LogEntry.level summary = Success) /\
     forall other : string,
       other <> sid ->
       Migrate.getSession srv' other = Migrate.getSession srv other /\
       Migrate.getSessionLogger srv' other = Migrate.getSessionLogger srv other).
Proof.
  unfold Migrate.POST.
  destruct (Migrate.sessionId req) as [sid|]; [|intros [= <- <- <-]; left; auto].
  destruct (Migrate.mailboxList req) as [l|]; [|intros [= <- <- <-]; left; auto 6].
  destruct (String.eqb_spec sid EmptyString) as [-> | Hne];
    [intros [= <- <- <-]; left; auto 6|].
  cbv zeta.
  set (session0 := Migrate.newSession W sid l (Migrate.config req) (clock W 0)).
  set (logger0 := snd (Utils.log W (clock W 1) [] _ Progress None)).
  set (stored := {| Migrate.activeSessions := _; Migrate.sessionLoggers := _ |}).
  assert (Hget : Migrate.getSession stored sid = Some session0)
    by apply lookup_insert_eq.
  destruct (untilAwait_spec W stored 2 sid l (Migrate.config req) logger0
              session0 Hget) as (r & -> & Hfull & Hempty).
  intros [= <- <- <-]. right.
  assert (Hstart : exists starting : LogEntry.t,
             logger0 = [starting] /\ LogEntry.level starting = Progress /\
             LogEntry.mailboxId starting = None)
    by (eexists; repeat split).
  destruct Hstart as (starting & Hl0 & Hlevel & Hid).
  assert (Hlog : exists logger, Migrate.logger r = starting :: logger /\
             (l <> [] ->
              exists (batchEntry : LogEntry.t) (started : list LogEntry.t),
                logger = batchEntry :: started /\
                LogEntry.mailboxId batchEntry = None /\
                Forall2 (fun e m =>
                           LogEntry.mailboxId e = Some (MailboxRow.SourceEmail m))
                  started
                  (JS.slice l 0 (MigrationConfig.BatchSize (Migrate.config req)))) /\
             (l = [] ->
              exists summary : LogEntry.t,
                logger = [summary] /\ LogEntry.level summary = Success)).
  { destruct l as [|m l'].
    - destruct (Hempty eq_refl) as (_ & summary & Hs & Hsl).
      exists [summary]. rewrite Hs, Hl0. split; [reflexivity|].
      split; [intros H; now contradiction H|]. intros _. now exists summary.
    - destruct (Hfull ltac:(discriminate)) as (_ & batchEntry & started & Hs & Hb & Hall).
      exists (batchEntry :: started). rewrite Hs, Hl0. split; [reflexivity|].
      split; [|discriminate]. intros _. now exists batchEntry, started. }
  destruct Hlog as (logger & Hlogger & Hlfull & Hlempty).
  exists sid, l, (Migrate.session r), starting, logger.
  split; [reflexivity|]. split; [exact Hne|]. split; [reflexivity|].
  split; [reflexivity|].
  split.
  { unfold Migrate.processMigration. rewrite Hget.
    destruct (Migrate.batchLoop _ _ _ _ _ _ _) as [r1 [|]]; discriminate. }
  split; [apply lookup_insert_eq|].
  split; [unfold Migrate.getSessionLogger; simpl; rewrite <- Hlogger;
          apply lookup_insert_eq|].
  split; [exact Hlevel|]. split; [exact Hid|].
  split; [intros Hl; split; [exact (proj1 (Hfull Hl)) | exact (Hlfull Hl)]|].
  split; [intros Hl; split; [exact (proj1 (Hempty Hl)) | exact (Hlempty Hl)]|].
  intros other Hother.
  unfold Migrate.getSession, Migrate.getSessionLogger. simpl.
  rewrite !lookup_insert_ne by congruence. split; reflexivity.
Qed.

Lemma POST_stores_one_session_witness :
  exists (srv' : Migrate.Server) (run : option (Migrate.Run * bool))
         (logger : Utils.MigrationLogger),
    Migrate.POST Sample.world 0 Sample.server (Sample.request 2 Sample.rows)
      = (Migrate.Started "session-1", srv', run) /\
    Migrate.getSession srv' "session-1" = Some Sample.created /\
    Migrate.getSessionLogger srv' "session-1" = Some logger /\
    length logger = 4%nat /\
    Migrate.getSession srv' "session-2" = None.
Proof.
  destruct (Migrate.POST Sample.world 0 Sample.server
              (Sample.request 2 Sample.rows)) as [[reply srv'] run] eqn:E.
  destruct (POST_stores_one_session Sample.world 0 Sample.server srv'
              (Sample.request 2 Sample.rows) reply run E)
    as [([H | [H | H]] & _)
       | (sid & l & session & starting & logger & Hsid & _ & Hl & -> & _ &
          Hget & Hlog & _ & _ & Hfull & _ & Hother)];
    try discriminate H.
  simpl in Hsid, Hl. injection Hsid as <-. injection Hl as <-.
  destruct (Hfull ltac:(discriminate))
    as (Hs & batchEntry & started & -> & _ & Hall).
  exists srv', run, (starting :: batchEntry :: started).
  split; [reflexivity|]. split; [rewrite Hget, Hs; reflexivity|].
  split; [exact Hlog|].
  split; [apply Forall2_length in Hall; simpl; rewrite Hall; reflexivity|].
  destruct (Hother "session-2"%string ltac:(discriminate)) as [-> _].
  reflexivity.
Defined.

(** ** The protocol of a progress stream *)

Lemma wellFormed_start : wellFormed Progress.start.
Proof.
  split; [reflexivity|]. exists [], []. split; [reflexivity|].
  split; [constructor | left; reflexivity].
Qed.

Lemma wellFormed_open (s : Progress.Stream) :
  wellFormed s -> Progress.interval s = true ->
  Progress.closed s = false /\
  exists body : list Progress.Event,
    Progress.sent s = Progress.Connected :: body /\
    Forall (fun e => isLog e || Progress.isProgress e = true) body.
Proof.
  intros [Hi (body & tail & Hsent & Hbody & Htail)] Hopen.
  rewrite Hopen in Hi.
  assert (Hc : Progress.closed s = false)
    by (destruct (Progress.closed s); [discriminate Hi | reflexivity]).
  split; [exact Hc|].
  destruct Htail as [-> | [_ Hclosed]]; [|congruence].
  exists body. rewrite app_nil_r in Hsent. auto.
Qed.

Lemma wellFormed_tick (srv : Migrate.Server) (sid : string) (s : Progress.Stream) :
  wellFormed s -> wellFormed (Progress.tick srv sid s).
Proof.
  intros Hwf. unfold Progress.tick.
  destruct (Progress.interval s) eqn:Hopen; [|exact Hwf].
  destruct (wellFormed_open s Hwf Hopen) as (Hc & body & Hsent & Hbody).
  assert (Herr : wellFormed
            (Progress.close
               (Progress.sendEvent s (Progress.ErrorEvent "Session not found")))).
  { split; [reflexivity|].
    exists body, [Progress.ErrorEvent "Session not found"].
    simpl. rewrite Hsent. split; [reflexivity|]. split; [exact Hbody|].
    right. split; [eexists; split; reflexivity | reflexivity]. }
  destruct (Migrate.getSession srv sid) as [session|]; [|exact Herr].
  destruct (Migrate.getSessionLogger srv sid) as [logger|]; [|exact Herr].
  set (s1 := match last (Utils.getLogs logger) with
             | Some latestLog => Progress.sendEvent s (Progress.LogEvent latestLog)
             | None => s
             end).
  assert (H1 : Progress.interval s1 = true /\ Progress.closed s1 = false /\
               exists body1, Progress.sent s1 = Progress.Connected :: body1 /\
                 Forall (fun e => isLog e || Progress.isProgress e = true) body1).
  { unfold s1. destruct (last (Utils.getLogs logger)) as [e|]; simpl.
    - repeat split; auto. exists (body ++ [Progress.LogEvent e]).
      rewrite Hsent. split; [reflexivity|].
      apply Forall_app. split; [exact Hbody | repeat constructor].
    - repeat split; auto. exists body. auto. }
  destruct H1 as (Hi1 & Hc1 & body1 & Hsent1 & Hbody1).
  set (ev := Progress.ProgressEvent _ _ _).
  assert (Hbody2 : Forall (fun e => isLog e || Progress.isProgress e = true)
                     (body1 ++ [ev])).
  { apply Forall_app. split; [exact Hbody1 | repeat constructor]. }
  destruct (Progress.isTerminal (MigrationSession.status session)).
  - split; [reflexivity|].
    eexists (body1 ++ [ev]), [_]. simpl. rewrite Hsent1.
    split; [simpl; rewrite <- ?app_assoc; reflexivity|].
    split; [exact Hbody2|].
    right. split; [eexists; split; reflexivity | reflexivity].
  - split; [simpl; rewrite Hi1, Hc1; reflexivity|].
    exists (body1 ++ [ev]), []. simpl. rewrite Hsent1, app_nil_r.
    split; [reflexivity|]. split; [exact Hbody2 | left; reflexivity].
Qed.

Lemma wellFormed_abort (s : Progress.Stream) :
  wellFormed s -> wellFormed (Progress.abort s).
Proof.
  intros Hwf. unfold Progress.abort.
  destruct (Progress.closed s) eqn:Hc; [exact Hwf|].
  destruct Hwf as [Hi (body & tail & Hsent & Hbody & Htail)].
  split; [reflexivity|]. exists body, tail. simpl.
  split; [exact Hsent|]. split; [exact Hbody|].
  destruct Htail as [-> | [He _]]; [left; reflexivity | right; auto].
Qed.

Lemma wellFormed_steps (sid : string) (inputs : list Progress.Input)
    (s : Progress.Stream) :
  wellFormed s -> wellFormed (fold_left (Progress.step sid) inputs s).
Proof.
  revert s. induction inputs as [|i inputs IH]; intros s Hwf; [exact Hwf|].
  simpl. apply IH. destruct i as [srv|]; simpl.
  - now apply wellFormed_tick.
  - now apply wellFormed_abort.
Qed.

Lemma filter_body (f : Progress.Event -> bool) (body : list Progress.Event) :
  (forall e, isLog e || Progress.isProgress e = true -> f e = false) ->
  Forall (fun e => isLog e || Progress.isProgress e = true) body ->
  List.filter f body = [].
Proof.
  intros Hf. induction 1 as [|e body He _ IH]; [reflexivity|].
  simpl. now rewrite (Hf e He).
Qed.

(** X8. Whatever the timer and the client do, and whatever the maps
    hold when the timer fires, what a progress stream has sent is the
    acknowledgment, then only [log] and [progress] events, then at most
    one closing event ([error] or [complete]); a closing event is
    followed by nothing, and the timer is armed exactly as long as the
    stream is open. *)
Theorem stream_protocol (sid : string) (inputs : list Progress.Input) :
  let s := Progress.run sid inputs in
  wellFormed s /\
  List.filter isConnected (Progress.sent s) = [Progress.Connected] /\
  (length (List.filter ending (Progress.sent s)) <= 1)%nat /\
  (forall e : Progress.Event,
     ending e = true -> In e (Progress.sent s) ->
     last (Progress.sent s) = Some e /\ Progress.closed s = true).
Proof.
  cbv zeta.
  pose proof (wellFormed_steps sid inputs Progress.start wellFormed_start) as Hwf.
  fold (Progress.run sid inputs) in Hwf.
  split; [exact Hwf|].
  destruct Hwf as [_ (body & tail & Hsent & Hbody & Htail)].
  rewrite Hsent.
  assert (Hb1 : List.filter isConnected body = []).
  { apply filter_body; [|exact Hbody]. intros [] H; try reflexivity; discriminate H. }
  assert (Hb2 : List.filter ending body = []).
  { apply filter_body; [|exact Hbody]. intros [] H; try reflexivity; discriminate H. }
  assert (Hb3 : forall e, ending e = true -> ~ In e body).
  { intros e He Hin. rewrite Forall_forall in Hbody.
    apply list_elem_of_In, Hbody in Hin. destruct e; discriminate. }
  destruct Htail as [-> | [(e0 & -> & He0) Hclosed]].
  - rewrite app_nil_r. simpl. rewrite Hb1, Hb2. split; [reflexivity|].
    split; [simpl; lia|].
    intros e He [<- | Hin]; [discriminate He | destruct (Hb3 e He Hin)].
  - simpl. rewrite !List.filter_app, Hb1, Hb2. simpl. rewrite He0.
    assert (Hc0 : isConnected e0 = false) by (destruct e0; try reflexivity; discriminate).
    rewrite Hc0. split; [reflexivity|]. split; [simpl; lia|].
    intros e He [<- | Hin]; [discriminate He|].
    apply in_app_or in Hin. destruct Hin as [Hin | [<- | []]];
      [destruct (Hb3 e He Hin)|].
    split; [|exact Hclosed].
    change (Progress.Connected :: body ++ [e0])
      with ((Progress.Connected :: body) ++ [e0]).
    apply last_snoc.
Qed.

(** X9. A closed stream stays as it is: once the controller has been
    closed, by a closing event or because the client went away, no later
    tick or abort sends anything or reopens it. *)
Theorem closed_stream_is_frozen (sid : string)
    (inputs later : list Progress.Input) :
  Progress.closed (Progress.run sid inputs) = true ->
  Progress.run sid (inputs ++ later) = Progress.run sid inputs.
Proof.
  intros Hc. unfold Progress.run. rewrite fold_left_app.
  apply run_after_close; [|exact Hc].
  destruct (wellFormed_steps sid inputs Progress.start wellFormed_start) as [Hi _].
  fold (Progress.run sid inputs) in Hi.
  unfold Progress.run in Hi, Hc. rewrite Hi, Hc. reflexivity.
Qed.

Lemma closed_stream_is_frozen_witness :
  Progress.closed (Progress.run "session-1" [Progress.Abort]) = true /\
  Progress.sent
    (Progress.run "session-1"
       ([Progress.Abort] ++ [Progress.Tick Sample.server; Progress.Abort]))
  = [Progress.Connected].
Proof.
  split; [reflexivity|].
  rewrite (closed_stream_is_frozen "session-1" [Progress.Abort]
             [Progress.Tick Sample.server; Progress.Abort] eq_refl).
  reflexivity.
Defined.

(** X10. A tick does not remember what it has sent: while a session is
    stored, not finished, and its logger holds entries, every tick sends
    the logger's last entry and a [progress] event, so two ticks that
    find the maps unchanged send the same two events twice. *)
Theorem tick_resends_last_log (srv : Migrate.Server) (sid : string)
    (session : MigrationSession.t) (logger : Utils.MigrationLogger)
    (latest : LogEntry.t) (s : Progress.Stream) :
  Progress.interval s = true ->
  Migrate.getSession srv sid = Some session ->
  Migrate.getSessionLogger srv sid = Some logger ->
  last logger = Some latest ->
  Progress.isTerminal (MigrationSession.status session) = false ->
  let once :=
    [ Progress.LogEvent latest;
      Progress.ProgressEvent (MigrationSession.stats session)
        (MigrationSession.status session)
        (MigrationSession.migrationResults session) ] in
  Progress.sent (Progress.tick srv sid s) = Progress.sent s ++ once /\
  Progress.sent (Progress.tick srv sid (Progress.tick srv sid s))
    = Progress.sent s ++ once ++ once /\
  Progress.interval (Progress.tick srv sid (Progress.tick srv sid s)) = true.
Proof.
  intros Hopen Hs Hl Hlast Hterm once.
  assert (Hone : forall s0, Progress.interval s0 = true ->
            Progress.sent (Progress.tick srv sid s0) = Progress.sent s0 ++ once /\
            Progress.interval (Progress.tick srv sid s0) = true).
  { intros s0 H0. unfold Progress.tick.
    rewrite H0, Hs, Hl. unfold Utils.getLogs. rewrite Hlast, Hterm. simpl.
    split; [now rewrite <- app_assoc | exact H0]. }
  destruct (Hone s Hopen) as [H1 H1'].
  destruct (Hone _ H1') as [H2 H2'].
  split; [exact H1|]. split; [|exact H2'].
  rewrite H2, H1, <- app_assoc. reflexivity.
Qed.

Lemma tick_resends_last_log_witness :
  Progress.interval Progress.start = true /\
  Migrate.getSession Fixtures.logging "session-1" = Some Sample.created /\
  Migrate.getSessionLogger Fixtures.logging "session-1"
    = Some [Fixtures.entry] /\
  length (Progress.sent
            (Progress.tick Fixtures.logging "session-1"
               (Progress.tick Fixtures.logging "session-1" Progress.start)))
    = 5%nat.
Proof.
  assert (H1 : Migrate.getSession Fixtures.logging "session-1"
               = Some Sample.created)
    by apply lookup_insert_eq.
  assert (H2 : Migrate.getSessionLogger Fixtures.logging "session-1"
               = Some [Fixtures.entry])
    by apply lookup_insert_eq.
  split; [reflexivity|]. split; [exact H1|]. split; [exact H2|].
  destruct (tick_resends_last_log Fixtures.logging "session-1" Sample.created
              [Fixtures.entry] Fixtures.entry
              Progress.start eq_refl H1 H2 eq_refl eq_refl) as (_ & -> & _).
  reflexivity.
Defined.

(** ** From the end of a migration to the last event *)

Lemma finish_logs_completion (W : World) (r : Migrate.Run) :
  exists entry : LogEntry.t,
    Migrate.logger (Migrate.finish W r) = Migrate.logger r ++ [entry] /\
    LogEntry.level entry = Success /\
    LogEntry.mailboxId entry = None /\
    exists rest : string,
      LogEntry.message entry = ("Migration Complete! Total: " ++ rest)%string.
Proof.
  eexists. split; [reflexivity|]. split; [reflexivity|]. split; [reflexivity|].
  eexists. reflexivity.
Qed.

Lemma POST_done (W : World) (fuel : nat) (srv srv' : Migrate.Server)
    (req : Migrate.Request) (reply : Migrate.Reply) (r : Migrate.Run) :
  Migrate.POST W fuel srv req = (reply, srv', Some (r, true)) ->
  exists (sid : string) (r1 : Migrate.Run),
    Migrate.sessionId req = Some sid /\ r = Migrate.finish W r1.
Proof.
  unfold Migrate.POST.
  destruct (Migrate.sessionId req) as [sid|]; [|discriminate].
  destruct (Migrate.mailboxList req) as [l|]; [|discriminate].
  destruct (String.eqb sid EmptyString); [discriminate|].
  unfold Migrate.processMigration, Migrate.getSession. simpl.
  rewrite lookup_insert_eq.
  destruct (Migrate.batchLoop _ _ _ _ _ _ _) as [r1 [|]]; [|discriminate].
  intros [= _ _ <-]. exists sid, r1. split; reflexivity.
Qed.

(** X11. A progress stream opened on a migration that has run to its end
    delivers, at its first tick, the acknowledgment, the logger's last
    entry (the "Migration Complete!" summary), one [progress] event and
    one [complete] event that carries the whole session and the whole
    log, and closes. *)
Theorem finished_migration_completes_stream (W : World) (fuel : nat)
    (srv srv' : Migrate.Server) (req : Migrate.Request)
    (reply : Migrate.Reply) (r : Migrate.Run) (sid : string)
    (later : list Progress.Input) :
  Migrate.POST W fuel srv req = (reply, srv', Some (r, true)) ->
  Migrate.sessionId req = Some sid ->
  exists (latest : LogEntry.t) (rest : string),
    last (Migrate.logger r) = Some latest /\
    LogEntry.level latest = Success /\
    LogEntry.message latest = ("Migration Complete! Total: " ++ rest)%string /\
    MigrationSession.status (Migrate.session r) = SCompleted /\
    let s := Progress.run sid
               (Progress.Tick (Migrate.publish srv' sid r) :: later) in
    Progress.sent s
      = [ Progress.Connected;
          Progress.LogEvent latest;
          Progress.ProgressEvent (MigrationSession.stats (Migrate.session r))
            SCompleted (MigrationSession.migrationResults (Migrate.session r));
          Progress.CompleteEvent (Migrate.session r) (Migrate.logger r) ] /\
    Progress.closed s = true.
Proof.
  intros E Hsid.
  destruct (POST_done W fuel srv srv' req reply r E) as (sid' & r1 & Hsid' & ->).
  destruct (finish_logs_completion W r1) as (latest & Hlog & Hlevel & _ & rest & Hmsg).
  destruct (RunFacts.finish_spec W r1) as (t & Hs & _).
  exists latest, rest.
  assert (Hlast : last (Migrate.logger (Migrate.finish W r1)) = Some latest)
    by (rewrite Hlog; apply last_snoc).
  assert (Hst : MigrationSession.status (Migrate.session (Migrate.finish W r1))
                = SCompleted) by (rewrite Hs; reflexivity).
  repeat (split; [assumption|]).
  cbv zeta. unfold Progress.run. simpl fold_left.
  assert (Htick :
    Progress.tick (Migrate.publish srv' sid (Migrate.finish W r1)) sid Progress.start
    = {| Progress.sent :=
           [ Progress.Connected; Progress.LogEvent latest;
             Progress.ProgressEvent
               (MigrationSession.stats (Migrate.session (Migrate.finish W r1)))
               SCompleted
               (MigrationSession.migrationResults
                  (Migrate.session (Migrate.finish W r1)));
             Progress.CompleteEvent (Migrate.session (Migrate.finish W r1))
               (Migrate.logger (Migrate.finish W r1)) ];
         Progress.interval := false; Progress.closed := true |}).
  { unfold Progress.tick, Migrate.getSession, Migrate.getSessionLogger,
      Migrate.publish.
    cbn [Progress.interval Progress.start Progress.sendEvent
         Migrate.activeSessions Migrate.sessionLoggers].
    rewrite !lookup_insert_eq. unfold Utils.getLogs. rewrite Hlast, Hst.
    reflexivity. }
  rewrite Htick, run_after_close by reflexivity.
  split; reflexivity.
Qed.

Lemma finished_migration_completes_stream_witness :
  exists (srv' : Migrate.Server) (r : Migrate.Run),
    Migrate.POST Sample.world 5 Sample.server (Sample.request 2 Sample.rows)
      = (Migrate.Started "session-1", srv', Some (r, true)) /\
    Migrate.sessionId (Sample.request 2 Sample.rows) = Some "session-1"%string /\
    length (Progress.sent
              (Progress.run "session-1"
                 [Progress.Tick (Migrate.publish srv' "session-1" r)])) = 4%nat.
Proof.
  destruct (Migrate.POST Sample.world 5 Sample.server
              (Sample.request 2 Sample.rows))
    as [[reply srv'] [[r done]|]] eqn:E.
  - assert (Hd : done = true /\ reply = Migrate.Started "session-1").
    { vm_compute in E. injection E as <- _ _ <-. split; reflexivity. }
    destruct Hd as [-> ->].
    exists srv', r. split; [reflexivity|]. split; [reflexivity|].
    destruct (finished_migration_completes_stream Sample.world 5 Sample.server
                srv' (Sample.request 2 Sample.rows) _ r "session-1" [] E eq_refl)
      as (latest & rest & _ & _ & _ & _ & Hsent & _).
    cbv zeta in Hsent. rewrite Hsent. reflexivity.
  - vm_compute in E. discriminate E.
Defined.

(** ** The address pattern *)

Lemma append_nil_r (s : string) : (s ++ EmptyString)%string = s.
Proof. induction s as [|c s IH]; [reflexivity|]. now rewrite append_cons, IH. Qed.

Lemma append_eq_nil (a b : string) :
  (a ++ b)%string = EmptyString -> a = EmptyString /\ b = EmptyString.
Proof. destruct a; [auto | discriminate]. Qed.

Lemma append_eq_cons (a b s : string) (c : ascii) :
  (a ++ b)%string = String c s ->
  (a = EmptyString /\ b = String c s) \/
  (exists a', a = String c a' /\ s = (a' ++ b)%string).
Proof.
  destruct a as [|x a]; [left; auto|].
  rewrite append_cons. intros [= -> <-]. right. eauto.
Qed.

Lemma nullable_matches (r : JS.regex) :
  JS.nullable r = true <-> matches r EmptyString.
Proof.
  split.
  - induction r as [| |p|a IHa b IHb|a IHa b IHb|a IHa]; simpl; intros H;
      try discriminate.
    + constructor.
    + apply andb_true_iff in H. destruct H as [Ha Hb].
      change EmptyString with (EmptyString ++ EmptyString)%string.
      constructor; auto.
    + apply orb_true_iff in H. destruct H as [Ha | Hb];
        [apply matches_alt_l | apply matches_alt_r]; auto.
    + constructor.
  - intros H. remember EmptyString as s eqn:Es.
    induction H as [|p c Hp|a b s1 s2 _ IH1 _ IH2|a b s _ IH|a b s _ IH| |a s1 s2 _ _ _ _];
      simpl; try reflexivity; try discriminate.
    + apply append_eq_nil in Es. destruct Es as [-> ->].
      rewrite IH1, IH2; reflexivity.
    + rewrite IH; auto.
    + rewrite IH; auto. apply orb_true_r.
Qed.

Lemma deriv_sound (c : ascii) (r : JS.regex) :
  forall s : string, matches (JS.deriv c r) s -> matches r (String c s).
Proof.
  induction r as [| |p|a IHa b IHb|a IHa b IHb|a IHa]; simpl; intros s H.
  - inversion H.
  - inversion H.
  - destruct (p c) eqn:Hp; inversion H; subst. now constructor.
  - assert (Hleft : forall s, matches (JS.Cat (JS.deriv c a) b) s ->
                      matches (JS.Cat a b) (String c s)).
    { intros s0 H0. inversion H0; subst.
      rewrite <- append_cons. constructor; auto. }
    destruct (JS.nullable a) eqn:Hn; [|now apply Hleft].
    inversion H; subst; [now apply Hleft|].
    change (String c s) with (EmptyString ++ String c s)%string.
    constructor; [now apply nullable_matches | auto].
  - inversion H; subst; [apply matches_alt_l | apply matches_alt_r]; auto.
  - inversion H; subst. rewrite <- append_cons. constructor; auto.
Qed.

Lemma deriv_complete (c : ascii) (r : JS.regex) (s : string) :
  matches r (String c s) -> matches (JS.deriv c r) s.
Proof.
  intros H. remember (String c s) as s' eqn:Es. revert s Es.
  induction H as [|p c0 Hp|a b s1 s2 H1 IH1 H2 IH2|a b s0 _ IH|a b s0 _ IH|
                  |a s1 s2 H1 IH1 H2 IH2]; intros s Es; simpl.
  - discriminate.
  - injection Es as -> <-. rewrite Hp. constructor.
  - apply append_eq_cons in Es.
    destruct Es as [[-> ->] | (s1' & -> & ->)].
    + apply nullable_matches in H1. rewrite H1.
      apply matches_alt_r. now apply IH2.
    + assert (Hc : matches (JS.Cat (JS.deriv c a) b) (s1' ++ s2))
        by (constructor; auto).
      destruct (JS.nullable a); [now apply matches_alt_l | exact Hc].
  - apply matches_alt_l. now apply IH.
  - apply matches_alt_r. now apply IH.
  - discriminate.
  - apply append_eq_cons in Es.
    destruct Es as [[-> ->] | (s1' & -> & ->)].
    + now apply IH2.
    + constructor; auto.
Qed.

Lemma test_matches (r : JS.regex) (s : string) :
  JS.test r s = true <-> matches r s.
Proof.
  revert r. induction s as [|c s IH]; intros r; simpl.
  - apply nullable_matches.
  - rewrite IH. split; [apply deriv_sound | apply deriv_complete].
Qed.

Lemma matches_char (d : ascii) (s : string) :
  matches (JS.Class (JS.isChar d)) s <-> s = String d EmptyString.
Proof.
  split.
  - intros H. inversion H; subst.
    unfold JS.isChar in *. now apply Ascii.eqb_eq in H1 as ->.
  - intros ->. constructor. unfold JS.isChar. apply Ascii.eqb_refl.
Qed.

Lemma star_class_all (p : ascii -> bool) (s : string) :
  matches (JS.Star (JS.Class p)) s <-> allChars p s = true.
Proof.
  split.
  - intros H. remember (JS.Star (JS.Class p)) as r eqn:Er.
    induction H as [| | | | | |a s1 s2 H1 _ H2 IH2]; try discriminate; [reflexivity|].
    injection Er as ->. inversion H1; subst. simpl.
    rewrite H0. now apply IH2.
  - induction s as [|c s IH]; simpl; intros H; [constructor|].
    apply andb_true_iff in H. destruct H as [Hc Hs].
    change (String c s) with (String c EmptyString ++ s)%string.
    constructor; [now constructor | auto].
Qed.

Lemma plus_class_all (p : ascii -> bool) (s : string) :
  matches (JS.Plus (JS.Class p)) s <->
  s <> EmptyString /\ allChars p s = true.
Proof.
  unfold JS.Plus. split.
  - intros H. inversion H; subst.
    match goal with H : matches (JS.Class p) _ |- _ => inversion H; subst end.
    match goal with H : matches (JS.Star _) _ |- _ =>
      apply star_class_all in H; rename H into Hs end.
    split; [discriminate|]. simpl.
    match goal with H : p _ = true |- _ => rewrite H end. exact Hs.
  - intros [Hne H]. destruct s as [|c s]; [contradiction|].
    simpl in H. apply andb_true_iff in H. destruct H as [Hc Hs].
    change (String c s) with (String c EmptyString ++ s)%string.
    constructor; [now constructor | now apply star_class_all].
Qed.

(** X12. The target address test accepts exactly the strings of the form
    [local@domain.tld] in which each of the three parts is non-empty and
    free of white space and of [@] (the domain part may itself contain
    dots). *)
Theorem email_pattern_language (s : string) :
  JS.test Utils.emailRegex s = true <->
  exists a b c : string,
    s = (a ++ "@" ++ b ++ "." ++ c)%string /\ plain a /\ plain b /\ plain c.
Proof.
  rewrite test_matches. unfold Utils.emailRegex, plain. split.
  - intros H.
    inversion H as [| |? ? a rest1 Ha H1| | | |]; subst.
    inversion H1 as [| |? ? at_ rest2 Hat H2| | | |]; subst.
    inversion H2 as [| |? ? b rest3 Hb H3| | | |]; subst.
    inversion H3 as [| |? ? dot c Hdot Hc| | | |]; subst.
    apply matches_char in Hat, Hdot. subst.
    apply plus_class_all in Ha, Hb, Hc.
    exists a, b, c. auto.
  - intros (a & b & c & -> & Ha & Hb & Hc).
    apply plus_class_all in Ha, Hb, Hc.
    repeat (constructor; try assumption); now apply matches_char.
Qed.

(** ** The aggregation *)

Lemma filter_length_perm {A : Type} (f : A -> bool) (l l' : list A) :
  Permutation l l' -> length (List.filter f l) = length (List.filter f l').
Proof.
  induction 1 as [|x l l' _ IH|x y l|l l' l'' _ IH1 _ IH2]; simpl.
  - reflexivity.
  - destruct (f x); simpl; congruence.
  - destruct (f x), (f y); reflexivity.
  - congruence.
Qed.

(** X13. [calculateStats] counts, it does not look at the order: two
    outcome lists that are permutations of each other have the same
    stats, and the stats of a concatenation are the field-wise sums. So
    the order in which the items of a batch settle never shows in the
    stats. *)
Theorem stats_ignore_order (l l' a b : list MigrationResult.t) :
  Permutation l l' ->
  Utils.calculateStats l = Utils.calculateStats l' /\
  Utils.calculateStats (a ++ b)
    = MigrationStats.mk
        (MigrationStats.Total (Utils.calculateStats a) +
         MigrationStats.Total (Utils.calculateStats b))
        (MigrationStats.Successful (Utils.calculateStats a) +
         MigrationStats.Successful (Utils.calculateStats b))
        (MigrationStats.Failed (Utils.calculateStats a) +
         MigrationStats.Failed (Utils.calculateStats b))
        0
        (MigrationStats.InProgress (Utils.calculateStats a) +
         MigrationStats.InProgress (Utils.calculateStats b)).
Proof.
  intros Hperm. split.
  - unfold Utils.calculateStats.
    rewrite (Permutation_length Hperm).
    rewrite (filter_length_perm (Utils.hasStatus StCompleted) l l' Hperm).
    rewrite (filter_length_perm (Utils.hasStatus StFailed) l l' Hperm).
    rewrite (filter_length_perm (Utils.hasStatus StInProgress) l l' Hperm).
    reflexivity.
  - unfold Utils.calculateStats. simpl.
    rewrite !List.filter_app, !length_app. reflexivity.
Qed.

Lemma stats_ignore_order_witness :
  Permutation (MigrationSession.migrationResults Sample.final)
    (rev (MigrationSession.migrationResults Sample.final)) /\
  Utils.calculateStats (MigrationSession.migrationResults Sample.final)
    = Utils.calculateStats (rev (MigrationSession.migrationResults Sample.final)).
Proof.
  assert (H : Permutation (MigrationSession.migrationResults Sample.final)
                (rev (MigrationSession.migrationResults Sample.final)))
    by apply Permutation_rev.
  split; [exact H|].
  exact (proj1 (stats_ignore_order _ _ [] [] H)).
Defined.

(** ** Validation in simulation mode *)

Lemma charCodeSum_chars (s : string) :
  JS.charCodeSum s = fold_right (fun c acc => Z.of_nat (nat_of_ascii c) + acc) 0 (chars s).
Proof. induction s as [|c s IH]; simpl; [reflexivity | now rewrite IH]. Qed.

Lemma charCodeSum_perm (s1 s2 : string) :
  Permutation (chars s1) (chars s2) -> JS.charCodeSum s1 = JS.charCodeSum s2.
Proof.
  rewrite !charCodeSum_chars.
  induction 1 as [|x l l' _ IH|x y l|l l' l'' _ IH1 _ IH2]; simpl; lia.
Qed.

(** X14. Whether a mailbox exists in simulation mode depends only on
    which characters its address is made of, not on their order: two
    addresses that are anagrams of each other get the same answer, from
    [simulateMailboxExists] and from the connector alike, and the two
    functions always agree. *)
Theorem simulated_existence_ignores_order (email1 email2 : string) (r1 r2 : Q) :
  Permutation (chars email1) (chars email2) ->
  Utils.simulateMailboxExists email1 = Utils.simulateMailboxExists email2 /\
  Lookup.exists_ (Connector.validateMailbox r1 r2 email1)
    = Utils.simulateMailboxExists email1 /\
  Lookup.exists_ (Connector.validateMailbox r1 r2 email2)
    = Utils.simulateMailboxExists email1.
Proof.
  intros Hperm. apply charCodeSum_perm in Hperm.
  unfold Utils.simulateMailboxExists, Connector.validateMailbox.
  rewrite Hperm.
  destruct (negb (JS.charCodeSum email2 mod 10 =? 0)); repeat split.
Qed.

Lemma simulated_existence_ignores_order_witness :
  Permutation (chars "ab@x.y") (chars "ba@x.y") /\
  Utils.simulateMailboxExists "ab@x.y" = Utils.simulateMailboxExists "ba@x.y".
Proof.
  assert (H : Permutation (chars "ab@x.y") (chars "ba@x.y"))
    by (simpl; apply perm_swap).
  split; [exact H|].
  exact (proj1 (simulated_existence_ignores_order "ab@x.y" "ba@x.y" 0 0 H)).
Defined.

Lemma validate_SourceSize (W : World) (l : Lookup.t) (m : MailboxRow.t) :
  ValidationResult.SourceSize (Utils.validateMailbox W l m)
    = JS.orZero (Lookup.size l).
Proof.
  unfold Utils.validateMailbox.
  destruct (negb (Lookup.exists_ l)); [reflexivity|].
  destruct (negb (JS.test Utils.emailRegex (MailboxRow.TargetEmail m)));
    [reflexivity|].
  destruct (JS.gt (JS.orZero (Lookup.size l)) 10000); reflexivity.
Qed.

(** X15. In simulation mode the outcome of validating a record is fixed
    by the record: [Failed] when the character codes of the source
    address add up to a multiple of ten or the target does not match the
    address pattern, [Passed] otherwise. The reported size stays between
    100 and 5100 MB, so the large-mailbox [Warning] never occurs. *)
Theorem simulated_validation_never_warns (W : World) (m : MailboxRow.t)
    (r1 r2 : Q) :
  (0 <= r1)%Q -> (r1 < 1)%Q ->
  let lookup := Connector.validateMailbox r1 r2 (MailboxRow.SourceEmail m) in
  let v := Utils.validateMailbox W lookup m in
  ValidationResult.ValidationStatus v
    = (if Utils.simulateMailboxExists (MailboxRow.SourceEmail m)
          && JS.test Utils.emailRegex (MailboxRow.TargetEmail m)
       then Passed else VFailed) /\
  ValidationResult.ValidationStatus v <> Warning /\
  (Lookup.exists_ lookup = true ->
   (100 <= ValidationResult.SourceSize v)%Q /\
   (ValidationResult.SourceSize v < 5100)%Q).
Proof.
  intros H0 H1 lookup v.
  pose proof (validate_verdict W lookup m) as V.
  assert (Hgt : JS.gt (JS.orZero (Lookup.size lookup)) 10000 = false)
    by (apply simulated_size_small; assumption).
  rewrite Hgt in V.
  assert (He : Lookup.exists_ lookup
               = Utils.simulateMailboxExists (MailboxRow.SourceEmail m)).
  { unfold lookup, Connector.validateMailbox, Utils.simulateMailboxExists.
    destruct (negb (JS.charCodeSum (MailboxRow.SourceEmail m) mod 10 =? 0));
      reflexivity. }
  rewrite He in V. fold v in V.
  assert (Hst : ValidationResult.ValidationStatus v
                = (if Utils.simulateMailboxExists (MailboxRow.SourceEmail m)
                      && JS.test Utils.emailRegex (MailboxRow.TargetEmail m)
                   then Passed else VFailed)).
  { destruct (Utils.simulateMailboxExists (MailboxRow.SourceEmail m));
      destruct (JS.test Utils.emailRegex (MailboxRow.TargetEmail m));
      simpl in V |- *; now injection V. }
  split; [exact Hst|]. split.
  - rewrite Hst.
    destruct (Utils.simulateMailboxExists (MailboxRow.SourceEmail m)
              && JS.test Utils.emailRegex (MailboxRow.TargetEmail m));
      discriminate.
  - intros Hex.
    assert (Hsize : ValidationResult.SourceSize v = (r1 * 5000 + 100)%Q).
    { unfold v. rewrite validate_SourceSize.
      unfold lookup, Connector.validateMailbox in Hex |- *.
      destruct (negb (JS.charCodeSum (MailboxRow.SourceEmail m) mod 10 =? 0));
        [reflexivity | discriminate Hex]. }
    rewrite Hsize. split.
    + apply Qle_trans with (0 * 5000 + 100)%Q; [discriminate|].
      apply Qplus_le_l. apply Qmult_le_compat_r; [exact H0 | discriminate].
    + apply Qlt_le_trans with (1 * 5000 + 100)%Q; [|discriminate].
      apply Qplus_lt_l. apply Qmult_lt_compat_r; [reflexivity | exact H1].
Qed.

Lemma simulated_validation_never_warns_witness :
  (0 <= 1 # 2)%Q /\ (1 # 2 < 1)%Q /\
  ValidationResult.ValidationStatus
    (Utils.validateMailbox Sample.world
       (Connector.validateMailbox (1 # 2) (1 # 2) "ann@old.example")
       (Sample.row "ann")) <> Warning.
Proof.
  assert (H0 : (0 <= 1 # 2)%Q) by discriminate.
  assert (H1 : (1 # 2 < 1)%Q) by reflexivity.
  split; [exact H0|]. split; [exact H1|].
  exact (proj1 (proj2 (simulated_validation_never_warns Sample.world
                         (Sample.row "ann") (1 # 2) (1 # 2) H0 H1))).
Defined.

(** X16. A validation result repeats the three fields of its record and
    the existence answer of the lookup, never claims that the target
    exists, and always explains itself: there is at least one message,
    and the issue list is empty exactly when the status is [Passed]
    (otherwise it holds one issue). *)
Theorem validation_result_shape (W : World) (l : Lookup.t) (m : MailboxRow.t) :
  let v := Utils.validateMailbox W l m in
  ValidationResult.SourceEmail v = MailboxRow.SourceEmail m /\
  ValidationResult.TargetEmail v = MailboxRow.TargetEmail m /\
  ValidationResult.DisplayName v = MailboxRow.DisplayName m /\
  ValidationResult.SourceExists v = Lookup.exists_ l /\
  ValidationResult.TargetExists v = false /\
  ValidationResult.ValidationMessages v <> [] /\
  (ValidationResult.ValidationIssues v = [] <->
   ValidationResult.ValidationStatus v = Passed) /\
  (ValidationResult.ValidationStatus v <> Passed ->
   length (ValidationResult.ValidationIssues v) = 1%nat).
Proof.
  cbv zeta. unfold Utils.validateMailbox.
  destruct (Lookup.exists_ l); simpl;
    [|repeat split; intros; try discriminate; try reflexivity; congruence].
  destruct (JS.test Utils.emailRegex (MailboxRow.TargetEmail m)); simpl;
    [|repeat split; intros; try discriminate; try reflexivity; congruence].
  assert (Hmsg : forall (x : string) (tail : list string),
            match Lookup.database l with
            | Some db => if String.eqb db EmptyString then [x] else [x] ++ [("Database: " ++ db)%string]
            | None => [x]
            end ++ tail <> []).
  { intros x tail. destruct (Lookup.database l) as [db|];
      [destruct (String.eqb db EmptyString)|]; discriminate. }
  destruct (JS.gt (JS.orZero (Lookup.size l)) 10000); simpl.
  - repeat split; intros; try discriminate; try reflexivity; try congruence.
    apply Hmsg.
  - repeat split; intros; try discriminate; try reflexivity; try congruence.
    specialize (Hmsg ("Source mailbox exists (" ++
                      JS.numToString (JS.round (JS.orZero (Lookup.size l))) ++ "MB, " ++
                      Utils.itemCountText W (Lookup.itemCount l) ++ " items)")%string []).
    rewrite app_nil_r in Hmsg. exact Hmsg.
Qed.

(** ** A simulated move *)

Lemma floor_of_draw (r : Q) (n : Z) :
  0 < n -> (0 <= r)%Q -> (r < 1)%Q ->
  0 <= Qfloor (r * inject_Z n)%Q < n.
Proof.
  intros Hn H0 H1. split.
  - change 0 with (Qfloor 0). apply Qfloor_resp_le.
    apply Qmult_le_0_compat; [exact H0|].
    change 0%Q with (inject_Z 0). rewrite <- Zle_Qle. lia.
  - rewrite Zlt_Qlt.
    apply Qle_lt_trans with (r * inject_Z n)%Q; [apply Qfloor_le|].
    rewrite <- (Qmult_1_l (inject_Z n)) at 2.
    apply Qmult_lt_compat_r; [|exact H1].
    change 0%Q with (inject_Z 0). rewrite <- Zlt_Qlt. lia.
Qed.

(** X17. A simulated move never throws; what [simulateMigration] makes
    of its answer is [Completed], with no error message and between 1000
    and 50999 items, exactly when the draw exceeds 0.05, and otherwise
    [Failed] with the message of the simulator (the fallback text
    "Migration failed" is not used), no items and ["0 MB"]. Either way
    the record repeats the three fields of the mailbox. *)
Theorem simulated_move_outcome (W : World) (m : MailboxRow.t)
    (startTime finishTime now : Z) (suffix : string) (r r1 r2 : Q) :
  (0 <= r1)%Q -> (r1 < 1)%Q ->
  let out :=
    Utils.simulateMigration W m startTime finishTime
      (ExchangeConnector.startMigration r now suffix) r1 r2 in
  MigrationResult.SourceEmail out = MailboxRow.SourceEmail m /\
  MigrationResult.TargetEmail out = MailboxRow.TargetEmail m /\
  MigrationResult.DisplayName out = MailboxRow.DisplayName m /\
  ((5 # 100 < r)%Q ->
   MigrationResult.Status out = StCompleted /\
   MigrationResult.ErrorMessage out = EmptyString /\
   1000 <= MigrationResult.ItemsMigrated out <= 50999) /\
  (~ (5 # 100 < r)%Q ->
   MigrationResult.Status out = StFailed /\
   MigrationResult.ErrorMessage out
     = "Simulated migration failure - mailbox locked"%string /\
   MigrationResult.ItemsMigrated out = 0 /\
   MigrationResult.DataMigrated out = "0 MB"%string).
Proof.
  intros H0 H1 out. unfold out, Utils.simulateMigration,
    ExchangeConnector.startMigration.
  destruct (JS.gt r (5 # 100)) eqn:E; simpl.
  - apply gt_true in E. repeat split; try (intros; contradiction).
    + pose proof (floor_of_draw r1 50000 ltac:(lia) H0 H1). simpl in *. lia.
    + pose proof (floor_of_draw r1 50000 ltac:(lia) H0 H1). simpl in *. lia.
  - apply gt_false in E. repeat split; intros; contradiction.
Qed.

Lemma simulated_move_outcome_witness :
  (0 <= 1 # 2)%Q /\ (1 # 2 < 1)%Q /\
  MigrationResult.Status
    (Utils.simulateMigration Sample.world (Sample.row "ann") 0 3000
       (ExchangeConnector.startMigration (1 # 100) 0 "abc") (1 # 2) (1 # 2))
  = StFailed.
Proof.
  assert (H0 : (0 <= 1 # 2)%Q) by discriminate.
  assert (H1 : (1 # 2 < 1)%Q) by reflexivity.
  split; [exact H0|]. split; [exact H1|].
  destruct (simulated_move_outcome Sample.world (Sample.row "ann") 0 3000 0 "abc"
              (1 # 100) (1 # 2) (1 # 2) H0 H1) as (_ & _ & _ & _ & Hfail).
  apply Hfail. intros H. discriminate H.
Defined.

(** ** Downloading a report *)

(** X18. A report request is answered with a file only when the session
    id is given and known and the format is [csv] or [html]; a missing or
    empty format means [csv]. A missing or empty session id gives status
    400, an unknown session 404 whatever the format, and any other
    format 400. *)
Theorem report_replies (W : World) (now : Z) (srv : Migrate.Server)
    (sessionId format : option string) :
  let reply := Reports.GET W now srv sessionId format in
  let fmt := JS.orNullable format "csv" in
  let known :=
    match sessionId with
    | Some sid => if String.eqb sid EmptyString then None
                  else Migrate.getSession srv sid
    | None => None
    end in
  (sessionId = None \/ sessionId = Some EmptyString ->
   reply = Reports.Json 400 "Missing sessionId") /\
  (forall sid : string,
     sessionId = Some sid -> sid <> EmptyString ->
     Migrate.getSession srv sid = None ->
     reply = Reports.Json 404 "Session not found") /\
  (forall (sid : string) (session : MigrationSession.t),
     sessionId = Some sid -> sid <> EmptyString ->
     Migrate.getSession srv sid = Some session ->
     (fmt = "csv"%string ->
      exists body, reply = Reports.Download "text/csv"
                             (Reports.fileName W now "csv") body) /\
     (fmt = "html"%string ->
      exists body, reply = Reports.Download "text/html"
                             (Reports.fileName W now "html") body) /\
     (fmt <> "csv"%string -> fmt <> "html"%string ->
      reply = Reports.Json 400 "Invalid format. Use csv or html")) /\
  ((format = None \/ format = Some EmptyString) ->
   reply = Reports.GET W now srv sessionId (Some "csv"%string)) /\
  ((exists contentType filename body,
      reply = Reports.Download contentType filename body) ->
   known <> None /\ (fmt = "csv"%string \/ fmt = "html"%string)).
Proof.
  cbv zeta. unfold Reports.GET.
  split; [|split; [|split; [|split]]].
  - intros [-> | ->]; reflexivity.
  - intros sid -> Hne Hnone.
    destruct (String.eqb_spec sid EmptyString); [contradiction|].
    now rewrite Hnone.
  - intros sid session -> Hne Hsome.
    destruct (String.eqb_spec sid EmptyString); [contradiction|].
    rewrite Hsome. split; [|split].
    + intros ->. eexists. reflexivity.
    + intros ->. eexists. reflexivity.
    + intros H1 H2.
      destruct (String.eqb_spec (JS.orNullable format "csv") "csv"); [contradiction|].
      destruct (String.eqb_spec (JS.orNullable format "csv") "html"); [contradiction|].
      reflexivity.
  - intros [-> | ->]; reflexivity.
  - intros (ct & fn & body & H).
    destruct sessionId as [sid|]; [|discriminate H].
    destruct (String.eqb sid EmptyString); [discriminate H|].
    destruct (Migrate.getSession srv sid); [|discriminate H].
    split; [discriminate|].
    destruct (String.eqb_spec (JS.orNullable format "csv") "csv"); [now left|].
    destruct (String.eqb_spec (JS.orNullable format "csv") "html"); [now right|].
    discriminate H.
Qed.

(** ** Validating a list *)

Lemma validateEach_spec (W : World) (lookups : nat -> Lookup.t)
    (l : list MailboxRow.t) :
  forall (first : nat) (acc : list ValidationResult.t),
    Validate.validateEach W lookups first acc l
      = acc ++ map (fun jm => Utils.validateMailbox W (lookups (fst jm)) (snd jm))
                 (combine (seq first (length l)) l).
Proof.
  induction l as [|m l IH]; intros first acc; simpl.
  - now rewrite app_nil_r.
  - rewrite IH, <- app_assoc. reflexivity.
Qed.

(** X19. The validation route answers a list of mailboxes with exactly
    one result per mailbox, in the order of the list, each built from
    its own mailbox and its own lookup; an empty list gives an empty
    answer, and a body without a mailbox array gives status 400. *)
Theorem validate_route_keeps_order (W : World) (lookups : nat -> Lookup.t)
    (l : list MailboxRow.t) :
  Validate.POST W lookups None = Validate.Json 400 "Invalid mailbox list" /\
  Validate.POST W lookups (Some []) = Validate.Results [] /\
  exists results : list ValidationResult.t,
    Validate.POST W lookups (Some l) = Validate.Results results /\
    length results = length l /\
    forall (i : nat) (m : MailboxRow.t),
      l !! i = Some m ->
      results !! i = Some (Utils.validateMailbox W (lookups i) m).
Proof.
  split; [reflexivity|]. split; [reflexivity|].
  eexists. split; [reflexivity|].
  rewrite validateEach_spec. simpl app.
  split.
  - rewrite length_map, length_combine, length_seq. lia.
  - intros i m Hi.
    apply (map_lookup_Some
             (fun jm => Utils.validateMailbox W (lookups (fst jm)) (snd jm))
             _ i (i, m)).
    exact (combine_seq_lookup l 0 i m Hi).
Qed.

(** ** The connector singleton *)

(** X20. The first call of [getExchangeConnector] decides: the connector
    it creates (with the given configuration, or simulation mode when
    none is given) is the one that every later call hands out, whatever
    configuration the later call asks for. *)
Theorem first_connector_config_wins (first : option ExchangeConnector.ExchangeConfig)
    (later : list (option ExchangeConnector.ExchangeConfig))
    (c : ExchangeConnector.t) :
  In c (ExchangeConnector.getExchangeConnectors None (first :: later)) ->
  c = ExchangeConnector.new first /\
  (first = None -> ExchangeConnector.mocking c = true).
Proof.
  intros Hin.
  assert (Hc : c = ExchangeConnector.new first).
  { simpl in Hin. destruct Hin as [<- | Hin]; [reflexivity|].
    revert Hin. generalize (ExchangeConnector.new first). intros c0.
    induction later as [|cfg later IH]; simpl; [intros []|].
    intros [<- | Hin]; [reflexivity | auto]. }
  split; [exact Hc|]. intros ->. rewrite Hc. reflexivity.
Qed.

Lemma first_connector_config_wins_witness :
  In Fixtures.second
    (ExchangeConnector.getExchangeConnectors None [None; Some Fixtures.real]) /\
  ExchangeConnector.mocking Fixtures.second = true.
Proof.
  assert (Hin : In Fixtures.second
                  (ExchangeConnector.getExchangeConnectors None
                     [None; Some Fixtures.real]))
    by (simpl; right; left; reflexivity).
  split; [exact Hin|].
  exact (proj2 (first_connector_config_wins None [Some Fixtures.real]
                  Fixtures.second Hin) eq_refl).
Defined.

(** ** The dashboard *)

Lemma filter_idem {A : Type} (f : A -> bool) (l : list A) :
  List.filter f (List.filter f l) = List.filter f l.
Proof.
  induction l as [|x l IH]; [reflexivity|]. simpl.
  destruct (f x) eqn:E; simpl; [rewrite E, IH|]; auto.
Qed.

(** X21. Loading a file keeps the rows that have a non-empty source
    address, target address and display name, in the order of the file,
    and drops all others: every kept row is complete, every complete row
    is kept, the count never grows, and loading what was loaded changes
    nothing. *)
Theorem ingestion_keeps_complete_rows (data : list Dashboard.CsvRow) :
  Forall (fun row => Dashboard.complete row = true) (Dashboard.validData data) /\
  (forall row : Dashboard.CsvRow,
     In row (Dashboard.validData data) <->
     In row data /\ Dashboard.complete row = true) /\
  sublist (Dashboard.validData data) data /\
  (length (Dashboard.validData data) <= length data)%nat /\
  Dashboard.validData (Dashboard.validData data) = Dashboard.validData data /\
  (Forall (fun row => Dashboard.complete row = true) data ->
   Dashboard.validData data = data).
Proof.
  unfold Dashboard.validData.
  split; [|split; [|split; [|split; [|split]]]].
  - apply Forall_forall. intros row Hin.
    apply list_elem_of_In, filter_In in Hin. tauto.
  - intros row. apply filter_In.
  - induction data as [|x data IH]; simpl; [constructor|].
    destruct (Dashboard.complete x); [now apply sublist_skip | now apply sublist_cons].
  - induction data as [|x data IH]; simpl; [lia|].
    destruct (Dashboard.complete x); simpl; lia.
  - apply filter_idem.
  - induction 1 as [|x data Hx _ IH]; simpl; [reflexivity|].
    now rewrite Hx, IH.
Qed.

Lemma count_by_status (validationResults : list ValidationResult.t) :
  (Dashboard.countStatus Passed validationResults +
   Dashboard.countStatus Warning validationResults +
   Dashboard.countStatus VFailed validationResults)%nat
  = length validationResults.
Proof.
  unfold Dashboard.countStatus.
  induction validationResults as [|r l IH]; [reflexivity|]. simpl.
  destruct (ValidationResult.ValidationStatus r); simpl; lia.
Qed.

(** X22. The three validation counters of the dashboard add up to the
    number of validation results, and the Start button is blocked by the
    validation exactly when the counter of failed mailboxes is not
    zero. *)
Theorem validation_counters_and_start_button
    (validationResults : list ValidationResult.t) :
  (Dashboard.countStatus Passed validationResults +
   Dashboard.countStatus Warning validationResults +
   Dashboard.countStatus VFailed validationResults)%nat
  = length validationResults /\
  (Dashboard.someFailed validationResults = true <->
   (0 < Dashboard.countStatus VFailed validationResults)%nat).
Proof.
  split; [apply count_by_status|].
  unfold Dashboard.someFailed, Dashboard.countStatus.
  induction validationResults as [|r l IH]; simpl.
  - split; [discriminate | lia].
  - destruct (Dashboard.ValidationStatus_eqb
                (ValidationResult.ValidationStatus r) VFailed); simpl.
    + split; [lia | reflexivity].
    + exact IH.
Qed.

(** ** A batch size that is not positive *)

Module StuckLoop.
Import Migrate.

#[local] Arguments log : simpl never.
#[local] Arguments startItem : simpl never.
#[local] Arguments settleItem : simpl never.
#[local] Arguments batchBody : simpl never.
#[local] Arguments finish : simpl never.

Lemma batchLoop_never_exits (W : World) (l : list MailboxRow.t) (B : Z)
    (fuel : nat) :
  l <> [] -> B <= 0 ->
  forall (k : nat) (i : Z) (r : Run),
    i <= 0 -> snd (batchLoop W fuel l B k i r) = false.
Proof.
  intros Hl HB. induction fuel as [|fuel IH]; intros k i r Hi; [reflexivity|].
  simpl. destruct (Z.ltb_spec i (Z.of_nat (length l))) as [_ | Hge].
  - apply IH. lia.
  - destruct l; [contradiction | simpl in Hge; lia].
Qed.

Lemma settleAll_none (W : World) (order : list nat) (r : Run) :
  settleAll W r [] order = r.
Proof. induction order as [|pos order IH]; [reflexivity | exact IH]. Qed.

Lemma batchBody_empty (W : World) (l : list MailboxRow.t) (k : nat) (r : Run) :
  session (batchBody W l 0 k 0 r) = session r.
Proof.
  unfold batchBody, batchStart.
  assert (Hs : JS.slice l 0 (0 + 0) = []).
  { unfold JS.slice. simpl. now rewrite Z.sub_diag. }
  rewrite Hs. simpl startAll. cbv iota beta.
  rewrite settleAll_none.
  destruct (0 + 0 <? Z.of_nat (length l)); reflexivity.
Qed.

Lemma batchLoop_zero_session (W : World) (l : list MailboxRow.t) (B : Z)
    (fuel : nat) :
  B = 0 ->
  forall (k : nat) (r : Run),
    session (fst (batchLoop W fuel l B k 0 r)) = session r.
Proof.
  intros ->. induction fuel as [|fuel IH]; intros k r; [reflexivity|].
  simpl. destruct (0 <? Z.of_nat (length l)); [|reflexivity].
  rewrite IH. apply batchBody_empty.
Qed.

End StuckLoop.

(** X23. A batch size of zero or less is not refused: on a non-empty
    list the loop of [processMigration] then never ends. However long it
    runs, the session is never completed, its status stays [migrating];
    with a batch size of zero it never records a single outcome. *)
Theorem nonpositive_batch_size_never_completes (W : World) (fuel : nat)
    (srv : Migrate.Server) (sid : string) (l : list MailboxRow.t)
    (cfg : MigrationConfig.t) :
  sid <> EmptyString ->
  l <> [] ->
  MigrationConfig.BatchSize cfg <= 0 ->
  exists (r : Migrate.Run) (srv' : Migrate.Server),
    Migrate.POST W fuel srv
      {| Migrate.sessionId := Some sid; Migrate.mailboxList := Some l;
         Migrate.config := cfg |}
      = (Migrate.Started sid, srv', Some (r, false)) /\
    migrating (Migrate.session r) /\
    Forall migrating (Migrate.seen r) /\
    (MigrationConfig.BatchSize cfg = 0 ->
     MigrationSession.migrationResults (Migrate.session r) = []).
Proof.
  intros Hsid Hl HB.
  destruct (Migrate.POST W fuel srv
              {| Migrate.sessionId := Some sid; Migrate.mailboxList := Some l;
                 Migrate.config := cfg |})
    as [[reply srv'] run] eqn:E.
  assert (Hshape : exists r,
            reply = Migrate.Started sid /\ run = Some (r, false) /\
            (MigrationConfig.BatchSize cfg = 0 ->
             MigrationSession.migrationResults (Migrate.session r) = [])).
  { revert E. unfold Migrate.POST. simpl.
    destruct (String.eqb_spec sid EmptyString) as [|_]; [contradiction|].
    unfold Migrate.processMigration, Migrate.getSession. simpl.
    rewrite lookup_insert_eq.
    match goal with |- context [Migrate.batchLoop W fuel l ?B ?k ?i ?r0] =>
      pose proof (StuckLoop.batchLoop_never_exits W l B fuel Hl HB k i r0
                    ltac:(lia)) as Hstuck;
      pose proof (fun H0 => StuckLoop.batchLoop_zero_session W l B fuel H0 k r0)
        as Hzero;
      destruct (Migrate.batchLoop W fuel l B k i r0) as [r1 exited] eqn:Eloop end.
    simpl in Hstuck. subst exited. intros [= <- _ <-].
    exists r1. split; [reflexivity|]. split; [reflexivity|].
    intros H0. specialize (Hzero H0). simpl in Hzero.
    rewrite Hzero. reflexivity. }
  destruct Hshape as (r & -> & -> & Hnone).
  exists r, srv'. split; [reflexivity|].
  destruct (RunInvariants.POST_keeps W
              (fun seen s => Forall migrating seen /\ migrating s))
    with (4 := E) as (sid' & l' & _ & _ & _ & Hrun).
  - intros seen x [Hseen Hx]. split; [|exact Hx].
    apply Forall_app. split; [exact Hseen|]. constructor; [exact Hx | constructor].
  - intros seen x m t1 t2 mv r1 r2 [Hseen Hx]. split; [exact Hseen|].
    now apply migrating_fulfilled.
  - intros seen x m t1 t2 e n _ [Hseen Hx]. split; [exact Hseen|].
    now apply migrating_rejected.
  - destruct Hrun as [Hseen Hs]; [split; [constructor | repeat split]|].
    auto.
Qed.

Lemma nonpositive_batch_size_never_completes_witness :
  "session-1"%string <> EmptyString /\ Sample.rows <> [] /\ 0 <= 0 /\
  exists (r : Migrate.Run) (srv' : Migrate.Server),
    Migrate.POST Sample.world 40 Sample.server (Sample.request 0 Sample.rows)
      = (Migrate.Started "session-1", srv', Some (r, false)) /\
    MigrationSession.migrationResults (Migrate.session r) = [].
Proof.
  assert (H1 : "session-1"%string <> EmptyString) by discriminate.
  assert (H2 : Sample.rows <> []) by discriminate.
  assert (H3 : 0 <= 0) by lia.
  split; [exact H1|]. split; [exact H2|]. split; [exact H3|].
  destruct (nonpositive_batch_size_never_completes Sample.world 40 Sample.server
              "session-1" Sample.rows (MigrationConfig.mk 0 false false ".")
              H1 H2 H3) as (r & srv' & E & _ & _ & Hnone).
  exists r, srv'. split; [exact E | exact (Hnone eq_refl)].
Defined.

(** ** What a run writes to its log *)

Module LogFacts.
Import Migrate.

#[local] Arguments log : simpl never.
#[local] Arguments startItem : simpl never.
#[local] Arguments settleItem : simpl never.
#[local] Arguments batchBody : simpl never.
#[local] Arguments finish : simpl never.

Lemma log_length (W : World) (r : Run) (msg : string) (lvl : LogLevel)
    (id : option string) :
  length (logger (log W r msg lvl id)) = S (length (logger r)).
Proof. unfold log. simpl. rewrite length_app. simpl. lia. Qed.

Lemma startAll_length (W : World) (batch : list MailboxRow.t) (r : Run) :
  length (logger (snd (startAll W r batch)))
    = (length (logger r) + length batch)%nat.
Proof.
  revert r. induction batch as [|m rest IH]; intros r; [simpl; lia|].
  rewrite RunFacts.startAll_cons.
  assert (H1 : length (logger (snd (startItem W r m))) = S (length (logger r))).
  { unfold startItem. simpl. apply log_length. }
  destruct (startItem W r m) as [p r1]. specialize (IH r1).
  destruct (startAll W r1 rest) as [ps r2]. simpl in *. lia.
Qed.

Lemma settleItem_length (W : World) (r : Run) (p : Pending) :
  length (logger (settleItem W r p)) = S (length (logger r)).
Proof.
  unfold settleItem, awaitSimulateMigration.
  destruct (promise p) as [mv | e].
  - destruct (Move.success mv); simpl; unfold onFulfilled;
      match goal with |- context [Status_eqb ?a ?b] => destruct (Status_eqb a b) end;
      simpl; rewrite ?log_length, ?length_app; simpl; lia.
  - unfold onRejected. simpl. rewrite ?log_length, ?length_app; simpl; lia.
Qed.

Lemma settleAll_length (W : World) (pend : list Pending) (order : list nat)
    (r : Run) :
  length (logger (settleAll W r pend order))
    = (length (logger r) + length (settled pend order))%nat.
Proof.
  revert r. induction order as [|pos rest IH]; intros r; [simpl; lia|].
  simpl. unfold settled. simpl. fold (settled pend rest).
  destruct (pend !! pos) as [p|]; [|apply IH].
  rewrite IH. simpl. rewrite settleItem_length. lia.
Qed.

Lemma batchBody_length (W : World) (l : list MailboxRow.t) (B : Z) (k : nat)
    (i : Z) (r : Run) :
  let batch := JS.slice l i (i + B) in
  Permutation (schedule W k (length batch)) (seq 0 (length batch)) ->
  length (logger (batchBody W l B k i r))
    = (length (logger r) + 2 + 2 * length batch +
       (if (i + B <? Z.of_nat (length l))%Z then 1 else 0))%nat.
Proof.
  cbv zeta. intros Hfair. unfold batchBody, batchStart.
  set (batch := JS.slice l i (i + B)) in *.
  set (r1 := log W (cut r batch) _ _ _).
  assert (L1 : length (logger r1) = S (length (logger r)))
    by (unfold r1; rewrite log_length; reflexivity).
  pose proof (startAll_length W batch r1) as L2.
  destruct (RunFacts.startAll_spec W batch r1) as (_ & _ & A2).
  destruct (startAll W r1 batch) as [pend r2]. simpl in L2, A2.
  assert (Hlen : length pend = length batch).
  { apply Forall2_length in A2. rewrite A2, length_combine, length_seq. lia. }
  pose proof (settleAll_length W pend (schedule W k (length pend)) (yield r2)) as L3.
  rewrite <- Hlen in Hfair. apply RunFacts.settled_fair in Hfair.
  rewrite (Permutation_length Hfair) in L3. simpl in L3.
  set (r3 := settleAll W (yield r2) pend (schedule W k (length pend))) in *.
  rewrite length_app in L2. simpl in L2.
  destruct (i + B <? Z.of_nat (length l)); simpl;
    rewrite ?length_app; simpl; lia.
Qed.

Lemma batchLoop_length (W : World) (l : list MailboxRow.t) (B : Z) (fuel : nat) :
  1 <= B ->
  (forall k n : nat, Permutation (schedule W k n) (seq 0 n)) ->
  forall (k : nat) (i : Z) (r : Run),
    0 <= i ->
    (length (skipn (Z.to_nat i) l) < fuel)%nat ->
    let rest := skipn (Z.to_nat i) l in
    (length (logger (fst (batchLoop W fuel l B k i r))) +
     (match rest with [] => 0 | _ => 1 end))%nat
    = (length (logger r) + 2 * length rest +
       3 * length (chunks (Z.to_nat B) rest))%nat.
Proof.
  intros HB Hfair. induction fuel as [|fuel IH]; intros k i r Hi Hfuel; [lia|].
  cbv zeta. simpl. rewrite length_skipn in Hfuel.
  destruct (Z.ltb_spec i (Z.of_nat (length l))) as [Hlt | Hge].
  - pose proof (batchBody_length W l B k i r (Hfair _ _)) as Hbody.
    rewrite (slice_batch l i B) in Hbody by lia.
    set (rest := skipn (Z.to_nat i) l) in *.
    assert (Hrest : length rest = (length l - Z.to_nat i)%nat)
      by (unfold rest; apply length_skipn).
    assert (Hnext : skipn (Z.to_nat (i + B)) l = skipn (Z.to_nat B) rest).
    { unfold rest. rewrite skipn_skipn. f_equal. lia. }
    specialize (IH (S k) (i + B) (batchBody W l B k i r) ltac:(lia)).
    rewrite Hnext in IH. cbv zeta in IH.
    specialize (IH ltac:(rewrite length_skipn; lia)).
    destruct rest as [|x rest'] eqn:Er; [simpl in Hrest; lia|].
    rewrite chunks_cons by lia. simpl length at 3.
    assert (Hsplit : (length (firstn (Z.to_nat B) (x :: rest')) +
                      length (skipn (Z.to_nat B) (x :: rest')))%nat
                     = length (x :: rest')).
    { rewrite <- length_app, firstn_skipn. reflexivity. }
    assert (Hpause : (if (i + B <? Z.of_nat (length l))%Z then 1 else 0)%nat
                     = match skipn (Z.to_nat B) (x :: rest') with
                       | [] => 0 | _ => 1 end%nat).
    { assert (Hl' : length (skipn (Z.to_nat B) (x :: rest'))
                    = (length (x :: rest') - Z.to_nat B)%nat)
        by apply length_skipn.
      destruct (Z.ltb_spec (i + B) (Z.of_nat (length l)));
        destruct (skipn (Z.to_nat B) (x :: rest')); cbn [length] in *; lia. }
    rewrite Hpause in Hbody. cbn [length] in *. lia.
  - rewrite skipn_all2 by lia. simpl. unfold chunks. simpl. lia.
Qed.

End LogFacts.

(** X24. A migration that runs to its end writes a fixed number of log
    entries: one when it starts, two for every batch and one more for
    every pause between two batches, two for every mailbox (its start
    and its result, success, failure or error alike), and one when it is
    complete. For [N] mailboxes in batches of [B >= 1] that is
    [2 + 2N + 3 * ceil(N/B) - 1] entries, and [2] entries when [N = 0]. *)
Theorem log_entries_of_a_run (W : World) (fuel : nat)
    (srv : Migrate.Server) (sid : string) (l : list MailboxRow.t)
    (cfg : MigrationConfig.t) :
  sid <> EmptyString ->
  1 <= MigrationConfig.BatchSize cfg ->
  (length l < fuel)%nat ->
  (forall k n : nat, Permutation (schedule W k n) (seq 0 n)) ->
  let B := MigrationConfig.BatchSize cfg in
  let N := Z.of_nat (length l) in
  exists (r : Migrate.Run) (srv' : Migrate.Server),
    Migrate.POST W fuel srv
      {| Migrate.sessionId := Some sid; Migrate.mailboxList := Some l;
         Migrate.config := cfg |}
      = (Migrate.Started sid, srv', Some (r, true)) /\
    Z.of_nat (length (Migrate.logger r))
      = 2 + 2 * N + 3 * ceilDiv N B - (if N =? 0 then 0 else 1).
Proof.
  intros Hsid HB Hfuel Hfair B N.
  destruct (RunFacts.POST_complete W fuel srv sid l cfg Hsid HB Hfuel)
    as (r & srv' & E & _).
  exists r, srv'. split; [exact E|].
  revert E. unfold Migrate.POST. simpl.
  destruct (String.eqb_spec sid EmptyString) as [|_]; [contradiction|].
  unfold Migrate.processMigration, Migrate.getSession. simpl.
  rewrite lookup_insert_eq.
  match goal with |- context [Migrate.batchLoop W fuel l ?B' ?k ?i ?r0] =>
    pose proof (LogFacts.batchLoop_length W l B' fuel HB Hfair k i r0
                  ltac:(lia) Hfuel) as Hlog;
    destruct (Migrate.batchLoop W fuel l B' k i r0) as [r1 exited] end.
  cbv zeta in Hlog. simpl in Hlog.
  destruct exited; intros [= _ <-].
  destruct (finish_logs_completion W r1) as (entry & -> & _).
  rewrite length_app. simpl length.
  pose proof (length_chunks (Z.to_nat (MigrationConfig.BatchSize cfg)) l
                ltac:(lia)) as Hch.
  rewrite Z2Nat.id in Hch by lia.
  rewrite ceilDiv_spec in Hch by lia.
  subst B N.
  destruct l as [|x l']; simpl in Hlog, Hch |- *; lia.
Qed.

Lemma log_entries_of_a_run_witness :
  "session-1"%string <> EmptyString /\ 1 <= 2 /\ (length Sample.rows < 5)%nat /\
  exists (r : Migrate.Run) (srv' : Migrate.Server),
    Migrate.POST Sample.world 5 Sample.server (Sample.request 2 Sample.rows)
      = (Migrate.Started "session-1", srv', Some (r, true)) /\
    Z.of_nat (length (Migrate.logger r)) = 13.
Proof.
  assert (H1 : "session-1"%string <> EmptyString) by discriminate.
  assert (H2 : 1 <= 2) by lia.
  assert (H3 : (length Sample.rows < 5)%nat) by (simpl; lia).
  split; [exact H1|]. split; [exact H2|]. split; [exact H3|].
  destruct (log_entries_of_a_run Sample.world 5 Sample.server "session-1"
              Sample.rows (MigrationConfig.mk 2 false false ".") H1 H2 H3)
    as (r & srv' & E & Hn).
  - intros k n. simpl. symmetry. apply Permutation_rev.
  - exists r, srv'. split; [exact E | exact Hn].
Defined.
